(** * gokrb5: encryption engine, AP-REQ codec and client exchanges

    A shallow embedding of [crypto/EncryptionEngine.go],
    [types/PrincipalName.go], [messages/APReq.go] and the client's AS and TGS
    exchanges.  Go functions returning [(T, error)] become functions into
    [res T]; a run-time panic (slice bounds, index out of range) is the third
    outcome [Panic].  Methods with a pointer receiver take the receiver and
    return its new value.  Code of the repository that is not part of the
    sources at hand (the two AES enctypes, the ASN.1 codec, the keytab, the
    KDC transport, the reply validators) enters as fields of the classes
    [AesSuite], [TypesCodec], [Asn1] and [Collaborators]. *)

From Stdlib Require Import ZArith List Bool Lia.
From Stdlib Require Import Strings.String Strings.Ascii Strings.Byte.
Import ListNotations.
Local Open Scope Z_scope.

(** ** Bytes, strings and slices *)

Definition bytes := list byte.

Definition len {A} (l : list A) : Z := Z.of_nat (List.length l).

Definition byte_of_Z (z : Z) : byte :=
  match Byte.of_N (Z.to_N (z mod 256)) with
  | Some b => b
  | None => x00
  end.

Definition byte_xor (a b : byte) : byte :=
  match Byte.of_N (N.lxor (Byte.to_N a) (Byte.to_N b)) with
  | Some c => c
  | None => x00
  end.

Fixpoint bytes_eqb (a b : bytes) : bool :=
  match a, b with
  | [], [] => true
  | x :: a', y :: b' => Byte.eqb x y && bytes_eqb a' b'
  | _, _ => false
  end.

(** Go's built-in [copy(dst, src)]: overwrites the first
    [min(len dst, len src)] bytes of [dst]. *)
Definition copy (dst src : bytes) : bytes :=
  firstn (List.length dst) src ++ skipn (List.length src) dst.

(** [make([]byte, n)] for [0 <= n]. *)
Definition make (n : Z) : bytes := repeat x00 (Z.to_nat n).

(** [hex.EncodeToString] *)
Definition hex_digit (n : N) : ascii :=
  nth (N.to_nat n)
      ["0";"1";"2";"3";"4";"5";"6";"7";"8";"9";"a";"b";"c";"d";"e";"f"]%char
      "0"%char.

Fixpoint hex_EncodeToString (b : bytes) : string :=
  match b with
  | [] => EmptyString
  | x :: r =>
      String (hex_digit (N.div (Byte.to_N x) 16))
        (String (hex_digit (N.modulo (Byte.to_N x) 16)) (hex_EncodeToString r))
  end.

(** [uint32(x)] for a Go [int] *)
Definition uint32 (x : Z) : Z := x mod 2 ^ 32.

(** ** Errors and outcomes *)

(** [messages.KRBError]: the fields the client reads, the rest of the decoded
    message kept as [EData]. *)
Record KRBError := {
  krb_PVNO : Z;
  krb_MsgType : Z;
  ErrorCode : Z;
  EText : string;
  EData : bytes
}.

(** Go [error] values: [errors.New], [fmt.Errorf] with a [%v] or a [%d]
    argument, and a [KRBError] returned as an error. *)
Inductive error : Type :=
| errors_New (msg : string)
| fmt_Errorf (format : string) (cause : error)
| fmt_Errorf_d (format : string) (n : Z)
| KRBError_error (k : KRBError).

Inductive res (A : Type) : Type :=
| Ok (a : A)
| Err (e : error)
| Panic.
Arguments Ok {A} a.
Arguments Err {A} e.
Arguments Panic {A}.

Definition bind {A B} (r : res A) (k : A -> res B) : res B :=
  match r with
  | Ok a => k a
  | Err e => Err e
  | Panic => Panic
  end.

(** [if err != nil { return ..., fmt.Errorf(format, err) }] *)
Definition wrap {A} (format : string) (r : res A) : res A :=
  match r with
  | Ok a => Ok a
  | Err e => Err (fmt_Errorf format e)
  | Panic => Panic
  end.

Notation "'let!' x ':=' e 'in' k" := (bind e (fun x => k))
  (at level 10, x pattern, e at level 200, k at level 200).

(** Slice expressions [b[:n]] and [b[n:]]; out of range panics.  The
    capacity of a slice is taken to be its length. *)
Definition slice_to (b : bytes) (n : Z) : res bytes :=
  if (0 <=? n) && (n <=? len b) then Ok (firstn (Z.to_nat n) b) else Panic.

Definition slice_from (b : bytes) (n : Z) : res bytes :=
  if (0 <=? n) && (n <=? len b) then Ok (skipn (Z.to_nat n) b) else Panic.

(** [make([]byte, n)] panics for a negative length. *)
Definition make_checked (n : Z) : res bytes :=
  if 0 <=? n then Ok (make n) else Panic.

(** ** iana constants *)

Module etype.
Definition AES128_CTS_HMAC_SHA1_96 : Z := 17.
Definition AES256_CTS_HMAC_SHA1_96 : Z := 18.
End etype.

Module patype.
Definition PA_ENC_TIMESTAMP : Z := 2.
Definition PA_PW_SALT : Z := 3.
Definition PA_ETYPE_INFO : Z := 11.
Definition PA_ETYPE_INFO2 : Z := 19.
End patype.

Module msgtype.
Definition KRB_AP_REQ : Z := 14.
End msgtype.

Module errorcode.
Definition KDC_ERR_C_PRINCIPAL_UNKNOWN : Z := 6.
Definition KDC_ERR_PREAUTH_REQUIRED : Z := 25.
End errorcode.

Module keyusage.
Definition AS_REQ_PA_ENC_TIMESTAMP : Z := 1.
Definition TGS_REQ_PA_TGS_REQ_AP_REQ_AUTHENTICATOR : Z := 7.
End keyusage.

Module nametype.
Definition KRB_NT_PRINCIPAL : Z := 1.
End nametype.

(** ** package types *)

Record PrincipalName := {
  NameType : Z;
  NameString : list string
}.

(** [func (pn *PrincipalName) GetSalt(realm string) string] *)
Definition GetSalt (pn : PrincipalName) (realm : string) : string :=
  fold_left String.append (NameString pn) realm.

Record EncryptionKey := {
  KeyType : Z;
  KeyValue : bytes
}.

Record EncryptedData := {
  ed_EType : Z;
  KVNO : Z;
  Cipher : bytes
}.

Record PAData := {
  PADataType : Z;
  PADataValue : bytes
}.

Definition PADataSequence := list PAData.

Record ETypeInfoEntry := {
  ei_EType : Z;
  ei_Salt : bytes
}.

Record ETypeInfo2Entry := {
  ei2_EType : Z;
  ei2_Salt : string;
  ei2_S2KParams : bytes
}.

(** Modelled from the spec: the Ticket structure (tkt-vno, realm, sname,
    enc-part); its declaration is not part of the sources. *)
Record Ticket := {
  TktVNO : Z;
  tkt_Realm : string;
  SName : PrincipalName;
  tkt_EncPart : EncryptedData
}.

(** The decoders of package types that the engine and the codec call. *)
Class TypesCodec := {
  ETypeInfo_Unmarshal : bytes -> res (list ETypeInfoEntry);
  ETypeInfo2_Unmarshal : bytes -> res (list ETypeInfo2Entry);
  UnmarshalTicket : bytes -> Ticket * option error
}.

(** [s[0]]: index out of range panics. *)
Definition index0 {A} (s : list A) : res A :=
  match s with
  | x :: _ => Ok x
  | [] => Panic
  end.

(** ** package crypto *)

(** [hash.Hash], seen as the digest of everything written to it. *)
Record Hash := {
  Sum : bytes -> bytes;
  Size : Z;
  BlockSize : Z
}.

(** [hmac.New(h, key)], [Write(msg)], [Sum(nil)] of the Go library. *)
Definition hmac_Sum (h : Hash) (key msg : bytes) : bytes :=
  let key' := if BlockSize h <? len key then Sum h key else key in
  let pad := copy (make (BlockSize h)) key' in
  Sum h (map (byte_xor x5c) pad ++ Sum h (map (byte_xor x36) pad ++ msg)).

(** [hmac.Equal] *)
Definition hmac_Equal (a b : bytes) : bool := bytes_eqb a b.

(** The [EType] interface.  Its [VerifyIntegrity] method is
    [EType_VerifyIntegrity] below. *)
Record EType := {
  GetETypeID : Z;
  GetHashID : Z;
  GetKeyByteSize : Z;
  GetKeySeedBitLength : Z;
  GetDefaultStringToKeyParams : string;
  StringToKey : string -> string -> string -> res bytes;
  RandomToKey : bytes -> bytes;
  GetHMACBitLength : Z;
  GetMessageBlockByteSize : Z;
  Encrypt : bytes -> bytes -> res (bytes * bytes);
  Decrypt : bytes -> bytes -> res bytes;
  GetCypherBlockBitLength : Z;
  GetConfounderByteSize : Z;
  DeriveKey : bytes -> bytes -> res bytes;
  DeriveRandom : bytes -> bytes -> res bytes;
  GetHash : Hash
}.

(** The two implementations of [EType] that [GetEtype] knows. *)
Class AesSuite := {
  Aes128CtsHmacSha96 : EType;
  Aes256CtsHmacSha96 : EType
}.

(** Key usage constants: the usage number in four big-endian octets followed
    by one tag octet. *)
Definition getUsage (un : Z) (o : byte) : bytes :=
  [byte_of_Z (un / 2 ^ 24); byte_of_Z (un / 2 ^ 16);
   byte_of_Z (un / 2 ^ 8); byte_of_Z un] ++ [o].

Definition GetUsageKc (un : Z) : bytes := getUsage un x99.
Definition GetUsageKe (un : Z) : bytes := getUsage un xaa.
Definition GetUsageKi (un : Z) : bytes := getUsage un x55.

(** The truncated HMAC of [pt] under an explicit key: the last two
    statements of [getHash]. *)
Definition hmac_truncated (et : EType) (k pt : bytes) : res bytes :=
  slice_to (hmac_Sum (GetHash et) k (copy (make (len pt)) pt))
           (Z.quot (GetHMACBitLength et) 8).

Definition getHash (pt key usage : bytes) (et : EType) : res bytes :=
  let! k := wrap "Unable to derive key for checksum: %v" (DeriveKey et key usage) in
  hmac_truncated et k pt.

Definition GetChecksumHash (pt key : bytes) (usage : Z) (et : EType) : res bytes :=
  getHash pt key (GetUsageKc usage) et.

Definition GetIntegrityHash (pt key : bytes) (usage : Z) (et : EType) : res bytes :=
  getHash pt key (GetUsageKi usage) et.

(** [expectedMAC, _ := f()]: the error is dropped and the value is nil. *)
Definition drop_error (r : res bytes) : res bytes :=
  match r with
  | Ok a => Ok a
  | Err _ => Ok []
  | Panic => Panic
  end.

Definition VerifyIntegrity (key ct pt : bytes) (usage : Z) (et : EType) : res bool :=
  let n := Z.quot (GetHMACBitLength et) 8 in
  let! h := make_checked n in
  let! tail := slice_from ct (len ct - n) in
  let h := copy h tail in
  let! expectedMAC := drop_error (GetIntegrityHash pt key usage et) in
  Ok (hmac_Equal h expectedMAC).

(** Modelled from the spec: the method [VerifyIntegrity] of the AES enctypes,
    whose file is not part of the sources ("verify-integrity(protocol-key,
    full-cipher-with-mac, plaintext, usage): recompute Ki-derived HMAC
    truncated to 96 bits over plaintext, compare"); it hands over to the
    package function with the enctype itself. *)
Definition EType_VerifyIntegrity (et : EType) (protocolKey ct pt : bytes) (usage : Z) : res bool :=
  VerifyIntegrity protocolKey ct pt usage et.

Definition err_integrity : error :=
  errors_New "Error decrypting encrypted part: integrity verification failed".

Definition DecryptEncPart (key : bytes) (pe : EncryptedData) (et : EType) (usage : Z) : res bytes :=
  let! k := wrap "Error deriving key: %v" (DeriveKey et key (GetUsageKe usage)) in
  let! body := slice_to (Cipher pe) (len (Cipher pe) - Z.quot (GetHMACBitLength et) 8) in
  let! b := wrap "Error decrypting: %v" (Decrypt et k body) in
  let! ok := EType_VerifyIntegrity et key (Cipher pe) b usage in
  if negb ok then Err err_integrity
  else slice_from b (GetConfounderByteSize et).

Section Engine.
Context {aes : AesSuite} {codec : TypesCodec}.

Definition GetEtype (id : Z) : res EType :=
  if id =? etype.AES128_CTS_HMAC_SHA1_96 then Ok Aes128CtsHmacSha96
  else if id =? etype.AES256_CTS_HMAC_SHA1_96 then Ok Aes256CtsHmacSha96
  else Err (fmt_Errorf_d "Unknown or unsupported EType: %d" id).

(** [rnd] is what [rand.Read] wrote into the confounder buffer, or its
    error. *)
Definition GetEncryptedData (pt : bytes) (key : EncryptionKey) (usage kvno : Z)
    (rnd : res bytes) : res EncryptedData :=
  let! et := wrap "Error getting etype: %v" (GetEtype (KeyType key)) in
  let! k :=
    if negb (usage =? 0)
    then wrap "Error deriving key: %v"
           (DeriveKey et (KeyValue key) (GetUsageKe (uint32 usage)))
    else Ok (KeyValue key) in
  let! c := make_checked (GetConfounderByteSize et) in
  let! r := wrap "Could not generate random confounder: %v" rnd in
  let c := copy c r in
  let pt := c ++ pt in
  let! (_, b) := wrap "Error encrypting data: %v" (Encrypt et k pt) in
  let! ih := drop_error (GetIntegrityHash pt (KeyValue key) (uint32 usage) et) in
  let b := b ++ ih in
  Ok {| ed_EType := KeyType key; Cipher := b; KVNO := kvno |}.

(** The variables of the loop over the PA-DATA in [GetKeyFromPassword]. *)
Record s2k_state := {
  st_etype : EType;
  st_sk2p : string;
  st_salt : string;
  st_paID : Z
}.

(** The etype switch shared by the PA-ETYPE-INFO and PA-ETYPE-INFO2 cases. *)
Definition switch_etype (etypeId : Z) (cur : EType) (id : Z) : res EType :=
  if negb (etypeId =? id)
  then wrap "Error getting encryption type: %v" (GetEtype id)
  else Ok cur.

(** One iteration of [for _, pa := range pas]. *)
Definition pa_step (etypeId : Z) (st : s2k_state) (pa : PAData) : res s2k_state :=
  if PADataType pa =? patype.PA_PW_SALT then
    if st_paID st >? PADataType pa then Ok st
    else Ok {| st_etype := st_etype st; st_sk2p := st_sk2p st;
               st_salt := string_of_list_byte (PADataValue pa);
               st_paID := st_paID st |}
  else if PADataType pa =? patype.PA_ETYPE_INFO then
    if st_paID st >? PADataType pa then Ok st
    else
      let! et := wrap "Error unmashalling PA Data to PA-ETYPE-INFO2: %v"
                   (ETypeInfo_Unmarshal (PADataValue pa)) in
      let! e0 := index0 et in
      let! etype' := switch_etype etypeId (st_etype st) (ei_EType e0) in
      Ok {| st_etype := etype'; st_sk2p := st_sk2p st;
            st_salt := string_of_list_byte (ei_Salt e0);
            st_paID := st_paID st |}
  else if PADataType pa =? patype.PA_ETYPE_INFO2 then
    if st_paID st >? PADataType pa then Ok st
    else
      let! et2 := wrap "Error unmashalling PA Data to PA-ETYPE-INFO2: %v"
                    (ETypeInfo2_Unmarshal (PADataValue pa)) in
      let! e0 := index0 et2 in
      let! etype' := switch_etype etypeId (st_etype st) (ei2_EType e0) in
      let sk2p := if len (ei2_S2KParams e0) =? 4
                  then hex_EncodeToString (ei2_S2KParams e0)
                  else st_sk2p st in
      Ok {| st_etype := etype'; st_sk2p := sk2p;
            st_salt := ei2_Salt e0;
            st_paID := st_paID st |}
  else Ok st.

Fixpoint pa_loop (etypeId : Z) (st : s2k_state) (pas : PADataSequence) : res s2k_state :=
  match pas with
  | [] => Ok st
  | pa :: rest => let! st' := pa_step etypeId st pa in pa_loop etypeId st' rest
  end.

(** The variables before the loop: [sk2p] is the default of the requested
    enctype, [var salt string] and [var paID int] are zero values. *)
Definition s2k_initial (et : EType) : s2k_state :=
  {| st_etype := et; st_sk2p := GetDefaultStringToKeyParams et;
     st_salt := EmptyString; st_paID := 0 |}.

Definition GetKeyFromPassword (passwd : string) (cn : PrincipalName) (realm : string)
    (etypeId : Z) (pas : PADataSequence) : res (EncryptionKey * EType) :=
  let! et := wrap "Error getting encryption type: %v" (GetEtype etypeId) in
  let! st := pa_loop etypeId (s2k_initial et) pas in
  let salt := if String.eqb (st_salt st) EmptyString
              then GetSalt cn realm else st_salt st in
  let! k := wrap "Error deriving key from string: %+v"
              (StringToKey (st_etype st) passwd salt (st_sk2p st)) in
  Ok ({| KeyType := etypeId; KeyValue := k |}, st_etype st).

End Engine.

(** ** package messages *)

(** [asn1.BitString] and [asn1.RawValue] of the ASN.1 library. *)
Record BitString := {
  bs_Bytes : bytes;
  BitLength : Z
}.

Record RawValue := {
  rv_Class : Z;
  Tag : Z;
  IsCompound : bool;
  rv_Bytes : bytes;
  FullBytes : bytes
}.

Record marshalAPReq := {
  m_PVNO : Z;
  m_MsgType : Z;
  m_APOptions : BitString;
  m_Ticket : RawValue;
  m_Authenticator : EncryptedData
}.

Record APReq := {
  PVNO : Z;
  MsgType : Z;
  APOptions : BitString;
  ap_Ticket : Ticket;
  Authenticator : EncryptedData
}.

(** [asn1.UnmarshalWithParams(b, &m, params)] at type [marshalAPReq]. *)
Class Asn1 := {
  asn1_UnmarshalWithParams : bytes -> string -> res marshalAPReq
}.

Section APReqCodec.
Context {codec : TypesCodec} {asn1 : Asn1}.

(** [func (a *APReq) Unmarshal(b []byte) error]: the receiver after the
    call and the error ([None] is nil).  [res] only adds a panic of the
    ASN.1 library. *)
Definition APReq_Unmarshal (a : APReq) (b : bytes) : res (APReq * option error) :=
  match asn1_UnmarshalWithParams b "application,explicit,tag:14" with
  | Panic => Panic
  | Err err => Ok (a, Some err)
  | Ok m =>
      if negb (m_MsgType m =? msgtype.KRB_AP_REQ)
      then Ok (a, Some (errors_New "Message ID does not indicate a KRB_AS_REP"))
      else
        let (t, err) := UnmarshalTicket (rv_Bytes (m_Ticket m)) in
        let a' := {| PVNO := m_PVNO m;
                     MsgType := m_MsgType m;
                     APOptions := m_APOptions m;
                     ap_Ticket := t;
                     Authenticator := m_Authenticator m |} in
        match err with
        | Some e => Ok (a', Some (fmt_Errorf "Error unmarshalling ticket in AP_REQ; %v" e))
        | None => Ok (a', None)
        end
  end.
End APReqCodec.

(** Modelled from the spec: the KDC request and reply structures, whose
    declarations are not part of the sources; the fields are the ones the
    exchanges read or write. *)
Record KDCReqBody := {
  body_Realm : string;
  body_SName : PrincipalName;
  body_Till : Z;
  body_Nonce : Z;
  body_EType : list Z
}.

Record KDCReq := {
  req_PVNO : Z;
  req_MsgType : Z;
  req_PAData : PADataSequence;
  ReqBody : KDCReqBody
}.

Definition ASReq := KDCReq.
Definition TGSReq := KDCReq.

Record EncKDCRepPart := {
  enc_Key : EncryptionKey;
  enc_Nonce : Z;
  KeyExpiration : Z;
  enc_AuthTime : Z;
  enc_EndTime : Z;
  enc_RenewTill : Z
}.

Record KDCRep := {
  rep_PVNO : Z;
  rep_MsgType : Z;
  rep_Ticket : Ticket;
  rep_EncPart : EncryptedData;
  DecryptedEncPart : EncKDCRepPart
}.

Definition ASRep := KDCRep.
Definition TGSRep := KDCRep.

(** Zero values of Go declarations such as [var ar messages.ASRep]. *)
Definition zero_PrincipalName : PrincipalName :=
  {| NameType := 0; NameString := [] |}.
Definition zero_EncryptionKey : EncryptionKey :=
  {| KeyType := 0; KeyValue := [] |}.
Definition zero_EncryptedData : EncryptedData :=
  {| ed_EType := 0; KVNO := 0; Cipher := [] |}.
Definition zero_Ticket : Ticket :=
  {| TktVNO := 0; tkt_Realm := EmptyString; SName := zero_PrincipalName;
     tkt_EncPart := zero_EncryptedData |}.
Definition zero_KDCRep : KDCRep :=
  {| rep_PVNO := 0; rep_MsgType := 0; rep_Ticket := zero_Ticket;
     rep_EncPart := zero_EncryptedData;
     DecryptedEncPart := {| enc_Key := zero_EncryptionKey; enc_Nonce := 0;
                            KeyExpiration := 0; enc_AuthTime := 0;
                            enc_EndTime := 0; enc_RenewTill := 0 |} |}.

(** ** package client *)

Record LibDefaults := {
  Default_realm : string;
  Default_tkt_enctype_ids : list Z
}.

Record Config := {
  libDefaults : LibDefaults
}.

(** Modelled from the spec: keytab and ticket cache, as the data the spec
    lists for them; their operations are collaborators. *)
Record KeytabEntry := {
  kt_Principal : string;
  kt_Realm : string;
  kt_KVNO : Z;
  kt_Key : EncryptionKey
}.

Definition Keytab := list KeytabEntry.

Record CacheEntry := {
  ce_Ticket : Ticket;
  ce_AuthTime : Z;
  ce_EndTime : Z;
  ce_RenewTill : Z
}.

Definition Cache := list (string * CacheEntry).

Record Credentials := {
  Username : string;
  cred_Keytab : Keytab
}.

Record Session := {
  AuthTime : Z;
  EndTime : Z;
  RenewTill : Z;
  TGT : Ticket;
  SessionKey : EncryptionKey;
  SessionKeyExpiration : Z
}.

Record Client := {
  cl_Credentials : Credentials;
  cl_Config : Config;
  cl_Session : option Session;
  cl_Cache : Cache
}.

(** What the exchanges call outside the sources at hand.  [KDC] answers the
    latest request given all requests handed to the transport so far;
    [GetPAEncTSEncAsnMarshalled] and [rand_Read] are the clock and the random
    source as read in this run. *)
Class Collaborators := {
  IsConfigured : Client -> bool;
  NewASReq : Config -> string -> ASReq;
  ASReq_Marshal : ASReq -> res bytes;
  KDC : list bytes -> res bytes;
  ASRep_Unmarshal : ASRep -> bytes -> ASRep * option error;
  KRBError_Unmarshal : bytes -> KRBError * option error;
  GetPAEncTSEncAsnMarshalled : res bytes;
  Keytab_GetEncryptionKey : Keytab -> string -> string -> Z -> Z -> EncryptionKey * option error;
  rand_Read : res bytes;
  ASRep_DecryptEncPart : ASRep -> Credentials -> ASRep * option error;
  ASRep_IsValid : ASRep -> Config -> ASReq -> bool * option error;
  NewTGSReq : string -> Config -> Ticket -> EncryptionKey -> PrincipalName -> bool -> res TGSReq;
  TGSReq_Marshal : TGSReq -> res bytes;
  TGSRep_Unmarshal : TGSRep -> bytes -> TGSRep * option error;
  TGSRep_DecryptEncPart : TGSRep -> EncryptionKey -> TGSRep * option error;
  TGSRep_IsValid : TGSRep -> Config -> TGSReq -> bool * option error;
  AddEntry : Cache -> Ticket -> Z -> Z -> Z -> Cache
}.

(** [sort.Sort(sort.Reverse(sort.IntSlice(s)))]: [s] in descending order. *)
Fixpoint insert_desc (x : Z) (l : list Z) : list Z :=
  match l with
  | [] => [x]
  | y :: r => if y <=? x then x :: l else y :: insert_desc x r
  end.

Definition sort_Reverse_IntSlice (l : list Z) : list Z :=
  fold_right insert_desc [] l.

(** [strings.Split(s, "/")] *)
Fixpoint strings_Split_slash (s : string) : list string :=
  match s with
  | EmptyString => [EmptyString]
  | String c r =>
      if Ascii.eqb c "/" then EmptyString :: strings_Split_slash r
      else match strings_Split_slash r with
           | h :: t => String c h :: t
           | [] => [String c EmptyString]
           end
  end.

(** [%v] of an error that may be nil. *)
Definition fmt_Errorf_v (format : string) (err : option error) : error :=
  match err with
  | Some e => fmt_Errorf format e
  | None => fmt_Errorf format (errors_New "<nil>")
  end.

(** The client and the requests handed to the transport, threaded through
    an exchange. *)
Record World := {
  w_client : Client;
  w_sent : list bytes
}.

Definition M (A : Type) : Type := World -> World * res A.

Definition ret {A} (a : A) : M A := fun w => (w, Ok a).

Definition bindM {A B} (m : M A) (k : A -> M B) : M B :=
  fun w =>
    match m w with
    | (w', Ok a) => k a w'
    | (w', Err e) => (w', Err e)
    | (w', Panic) => (w', Panic)
    end.

Definition lift {A} (r : res A) : M A := fun w => (w, r).

Definition fail {A} (e : error) : M A := lift (Err e).

Definition get_client : M Client := fun w => (w, Ok (w_client w)).

Definition set_client (cl : Client) : M unit :=
  fun w => ({| w_client := cl; w_sent := w_sent w |}, Ok tt).

Notation "'do' x <- m ; k" := (bindM m (fun x => k))
  (at level 10, x pattern, m at level 200, k at level 200).

Section ClientExchanges.
Context {aes : AesSuite} {codec : TypesCodec} {co : Collaborators}.

(** [cl.SendToKDC(b)] *)
Definition SendToKDC (b : bytes) : M bytes :=
  fun w =>
    let sent := w_sent w ++ [b] in
    ({| w_client := w_client w; w_sent := sent |}, KDC sent).

Definition set_enctype_ids (cl : Client) (ids : list Z) : Client :=
  {| cl_Credentials := cl_Credentials cl;
     cl_Config := {| libDefaults :=
                       {| Default_realm := Default_realm (libDefaults (cl_Config cl));
                          Default_tkt_enctype_ids := ids |} |};
     cl_Session := cl_Session cl;
     cl_Cache := cl_Cache cl |}.

Definition set_Session (cl : Client) (s : Session) : Client :=
  {| cl_Credentials := cl_Credentials cl;
     cl_Config := cl_Config cl;
     cl_Session := Some s;
     cl_Cache := cl_Cache cl |}.

Definition set_Cache (cl : Client) (c : Cache) : Client :=
  {| cl_Credentials := cl_Credentials cl;
     cl_Config := cl_Config cl;
     cl_Session := cl_Session cl;
     cl_Cache := c |}.

Definition add_PAData (a : ASReq) (pa : PAData) : ASReq :=
  {| req_PVNO := req_PVNO a; req_MsgType := req_MsgType a;
     req_PAData := req_PAData a ++ [pa]; ReqBody := ReqBody a |}.

(** The body of [if krberr.ErrorCode == errorcode.KDC_ERR_PREAUTH_REQUIRED]
    in [ASExchange]; it ends where the block ends. *)
Definition preauth_retry (a : ASReq) (ar : ASRep) : M ASRep :=
  do paTSb <- lift (wrap "Error creating PAEncTSEnc for Pre-Authentication: %v"
                      GetPAEncTSEncAsnMarshalled);
  do cl <- get_client;
  let ids := sort_Reverse_IntSlice (Default_tkt_enctype_ids (libDefaults (cl_Config cl))) in
  let cl := set_enctype_ids cl ids in
  do _ <- set_client cl;
  do id0 <- lift (index0 ids);
  do etype <- lift (wrap "Error creating etype: %v" (GetEtype id0));
  let (key, _) := Keytab_GetEncryptionKey (cred_Keytab (cl_Credentials cl))
                    (Username (cl_Credentials cl))
                    (Default_realm (libDefaults (cl_Config cl))) 1 (GetETypeID etype) in
  do paEncTS <- lift (wrap "Error encrypting pre-authentication timestamp: %v"
                        (GetEncryptedData paTSb key 0 1 rand_Read));
  let pa := {| PADataType := patype.PA_ENC_TIMESTAMP;
               PADataValue := Cipher paEncTS |} in
  let a := add_PAData a pa in
  do b <- lift (wrap "Error marshalling AS_REQ: %v" (ASReq_Marshal a));
  do rb <- (fun w => let (w', r) := SendToKDC b w in
                     (w', wrap "Error sending AS_REQ to KDC: %v" r));
  match ASRep_Unmarshal ar rb with
  | (_, Some err) =>
      fail (fmt_Errorf "Could not unmarshal data returned from KDC: %v" err)
  | (ar', None) => ret ar'
  end.

(** [func (cl *Client) ASExchange() error]; [Ok tt] is the nil error. *)
Definition ASExchange : M unit :=
  do cl <- get_client;
  if negb (IsConfigured cl)
  then fail (errors_New "Client is not configured correctly.")
  else
    let a := NewASReq (cl_Config cl) (Username (cl_Credentials cl)) in
    do b <- lift (wrap "Error marshalling AS_REQ: %v" (ASReq_Marshal a));
    do rb <- (fun w => let (w', r) := SendToKDC b w in
                       (w', wrap "Error sending AS_REQ to KDC: %v" r));
    match ASRep_Unmarshal zero_KDCRep rb with
    | (ar, Some _) =>
        (* A KRBError may have been returned instead. *)
        match KRBError_Unmarshal rb with
        | (_, Some err) =>
            fail (fmt_Errorf "Could not unmarshal data returned from KDC: %v" err)
        | (krberr, None) =>
            if ErrorCode krberr =? errorcode.KDC_ERR_PREAUTH_REQUIRED
            then do _ <- preauth_retry a ar;
                 fail (KRBError_error krberr)
            else fail (KRBError_error krberr)
        end
    | (ar, None) =>
        match ASRep_DecryptEncPart ar (cl_Credentials cl) with
        | (_, Some err) =>
            fail (fmt_Errorf "Error decrypting EncPart of AS_REP: %v" err)
        | (ar, None) =>
            match ASRep_IsValid ar (cl_Config cl) a with
            | (false, err) => fail (fmt_Errorf_v "AS_REP is not valid: %v" err)
            | (true, _) =>
                do cl <- get_client;
                let d := DecryptedEncPart ar in
                set_client (set_Session cl
                  {| AuthTime := enc_AuthTime d;
                     EndTime := enc_EndTime d;
                     RenewTill := enc_RenewTill d;
                     TGT := rep_Ticket ar;
                     SessionKey := enc_Key d;
                     SessionKeyExpiration := KeyExpiration d |})
            end
        end
    end.

(** [func (cl *Client) Login() error] *)
Definition Login : M unit := ASExchange.

(** [func (cl *Client) TGSExchange(spn, renewal) (tgsReq, tgsRep, err)] *)
Definition TGSExchange (spn : PrincipalName) (renewal : bool) : M (TGSReq * TGSRep) :=
  do cl <- get_client;
  match cl_Session cl with
  | None =>
      fail (errors_New
        "Error client does not have a session. Client needs to login first")
  | Some session =>
      do tgsReq <- lift (wrap "Error generating New TGS_REQ: %v"
                           (NewTGSReq (Username (cl_Credentials cl)) (cl_Config cl)
                              (TGT session) (SessionKey session) spn renewal));
      do b <- lift (wrap "Error marshalling TGS_REQ: %v" (TGSReq_Marshal tgsReq));
      do r <- (fun w => let (w', r) := SendToKDC b w in
                        (w', wrap "Error sending TGS_REQ to KDC: %v" r));
      match TGSRep_Unmarshal zero_KDCRep r with
      | (_, Some err) => fail (fmt_Errorf "Error unmarshalling TGS_REP: %v" err)
      | (tgsRep, None) =>
          match TGSRep_DecryptEncPart tgsRep (SessionKey session) with
          | (_, Some err) =>
              fail (fmt_Errorf "Error decrypting EncPart of TGS_REP: %v" err)
          | (tgsRep, None) =>
              match TGSRep_IsValid tgsRep (cl_Config cl) tgsReq with
              | (false, err) => fail (fmt_Errorf_v "TGS_REP is not valid: %v" err)
              | (true, _) => ret (tgsReq, tgsRep)
              end
          end
      end
  end.

(** [func (cl *Client) GetServiceTicket(spn string) error] *)
Definition GetServiceTicket (spn : string) : M unit :=
  let s := strings_Split_slash spn in
  let princ := {| NameType := nametype.KRB_NT_PRINCIPAL; NameString := s |} in
  do (_, tgsRep) <- TGSExchange princ false;
  do cl <- get_client;
  let d := DecryptedEncPart tgsRep in
  set_client (set_Cache cl
    (AddEntry (cl_Cache cl) (rep_Ticket tgsRep)
       (enc_AuthTime d) (enc_EndTime d) (enc_RenewTill d))).

End ClientExchanges.

(** ** Statements of the specification *)

(** Encrypt-with-integrity with its two keys explicit, in the words of the
    specification (steps 4 to 6): [C = encrypt(Ke, padded)],
    [mac = HMAC(Ki, padded)] truncated, cipher [= C || mac]. *)
Definition seal (et : EType) (Ke Ki padded : bytes) : res bytes :=
  let! (_, C) := Encrypt et Ke padded in
  let! mac := hmac_truncated et Ki padded in
  Ok (C ++ mac).

(** What the engine returns once the cipher is known. *)
Definition sealed_data (key : EncryptionKey) (kvno : Z) (cipher : res bytes) : res EncryptedData :=
  let! c := wrap "Error encrypting data: %v" cipher in
  Ok {| ed_EType := KeyType key; Cipher := c; KVNO := kvno |}.

(** The confounder followed by the plaintext, as the engine forms it from
    what the random source wrote. *)
Definition confounded (et : EType) (r pt : bytes) : bytes :=
  copy (make (GetConfounderByteSize et)) r ++ pt.

(** Invariant I1 of the data model: the key value is as long as the enctype
    named by the key declares. *)
Definition I1 {aes : AesSuite} (key : EncryptionKey) : Prop :=
  exists et, GetEtype (KeyType key) = Ok et /\ len (KeyValue key) = GetKeyByteSize et.


(** Replace the byte at index [i]. *)
Fixpoint set_byte (i : nat) (x : byte) (l : bytes) : bytes :=
  match l, i with
  | [], _ => []
  | _ :: r, O => x :: r
  | y :: r, S j => y :: set_byte j x r
  end.

Definition with_Cipher (ed : EncryptedData) (c : bytes) : EncryptedData :=
  {| ed_EType := ed_EType ed; KVNO := KVNO ed; Cipher := c |}.

(** ** A small enctype and environment to run the code on concrete inputs

    The code of the AES enctypes, of the codecs and of the transport is not
    at hand; to evaluate the engine and the exchanges, [Fixture] supplies
    stand-ins with the sizes of the specification: a keyed XOR stream that
    wants at least one 16-byte block, key derivation by XOR with the folded
    usage constant, a polynomial checksum of 20 bytes as the hash, and
    one-byte tags in place of ASN.1. *)

Module Fixture.

(** XOR with the key repeated along the message. *)
Fixpoint xor_stream (key cur m : bytes) : bytes :=
  match m with
  | [] => []
  | b :: m' =>
      match cur with
      | kb :: kr => byte_xor b kb :: xor_stream key kr m'
      | [] =>
          match key with
          | kb :: kr => byte_xor b kb :: xor_stream key kr m'
          | [] => b :: xor_stream key [] m'
          end
      end
  end.

(** A polynomial checksum, as four big-endian bytes and sixteen zero bytes. *)
Definition poly (m : bytes) : Z :=
  fold_left (fun acc b => (acc * 31 + Z.of_N (Byte.to_N b) + 1) mod 2 ^ 32) m 7.

Definition digest (m : bytes) : bytes :=
  let h := poly m in
  [byte_of_Z (h / 2 ^ 24); byte_of_Z (h / 2 ^ 16); byte_of_Z (h / 2 ^ 8); byte_of_Z h]
    ++ repeat x00 16.

Definition hash : Hash := {| Sum := digest; Size := 20; BlockSize := 64 |}.

Definition crypt (k m : bytes) : res bytes :=
  if len m <? 16 then Err (errors_New "less than one block")
  else Ok (xor_stream k [] m).

Definition derive (k u : bytes) : res bytes :=
  Ok (map (fun b => byte_xor b (fold_left byte_xor u x00)) k).

Definition s2k (size : nat) (passwd salt params : string) : res bytes :=
  Ok (firstn size (list_byte_of_string (passwd ++ salt ++ params) ++ repeat x00 size)).

Definition enctype (id : Z) (size : nat) : EType :=
  {| GetETypeID := id;
     GetHashID := 0;
     GetKeyByteSize := Z.of_nat size;
     GetKeySeedBitLength := 8 * Z.of_nat size;
     GetDefaultStringToKeyParams := "00001000";
     StringToKey := s2k size;
     RandomToKey := fun b => b;
     GetHMACBitLength := 96;
     GetMessageBlockByteSize := 1;
     Encrypt := fun k m => let! c := crypt k m in Ok (skipn (List.length c - 16) c, c);
     Decrypt := crypt;
     GetCypherBlockBitLength := 128;
     GetConfounderByteSize := 16;
     DeriveKey := derive;
     DeriveRandom := derive;
     GetHash := hash |}.

Definition suite : AesSuite :=
  {| Aes128CtsHmacSha96 := enctype 17 16; Aes256CtsHmacSha96 := enctype 18 32 |}.

(** A one-byte enctype id followed by the salt stands for an encoded
    ETYPE-INFO or ETYPE-INFO2; the bytes of a ticket stand for its realm. *)
Definition codec : TypesCodec :=
  {| ETypeInfo_Unmarshal := fun v =>
       match v with
       | e :: salt => Ok [ {| ei_EType := Z.of_N (Byte.to_N e); ei_Salt := salt |} ]
       | [] => Err (errors_New "empty ETYPE-INFO")
       end;
     ETypeInfo2_Unmarshal := fun v =>
       match v with
       | e :: salt => Ok [ {| ei2_EType := Z.of_N (Byte.to_N e);
                              ei2_Salt := string_of_list_byte salt;
                              ei2_S2KParams := [] |} ]
       | [] => Err (errors_New "empty ETYPE-INFO2")
       end;
     UnmarshalTicket := fun b =>
       ({| TktVNO := 5; tkt_Realm := string_of_list_byte b;
           SName := zero_PrincipalName; tkt_EncPart := zero_EncryptedData |}, None) |}.

(** Two leading bytes stand for pvno and msg-type, the rest for the ticket. *)
Definition asn1 : Asn1 :=
  {| asn1_UnmarshalWithParams := fun b _ =>
       match b with
       | pv :: mt :: rest =>
           Ok {| m_PVNO := Z.of_N (Byte.to_N pv);
                 m_MsgType := Z.of_N (Byte.to_N mt);
                 m_APOptions := {| bs_Bytes := [x00; x00; x00; x00]; BitLength := 32 |};
                 m_Ticket := {| rv_Class := 2; Tag := 3; IsCompound := true;
                                rv_Bytes := rest; FullBytes := rest |};
                 m_Authenticator := zero_EncryptedData |}
       | _ => Err (errors_New "asn1: syntax error")
       end |}.

Definition marshal (a : KDCReq) : res bytes :=
  Ok (byte_of_Z (req_MsgType a)
        :: flat_map (fun pa => byte_of_Z (PADataType pa) :: PADataValue pa) (req_PAData a)).

Definition krbtgt (realm : string) : PrincipalName :=
  {| NameType := 2; NameString := ["krbtgt"%string; realm] |}.

Definition reply (tag : byte) : KDCRep :=
  {| rep_PVNO := 5; rep_MsgType := Z.of_N (Byte.to_N tag);
     rep_Ticket := {| TktVNO := 5; tkt_Realm := "EXAMPLE.COM";
                      SName := krbtgt "EXAMPLE.COM";
                      tkt_EncPart := zero_EncryptedData |};
     rep_EncPart := zero_EncryptedData;
     DecryptedEncPart := {| enc_Key := {| KeyType := 17; KeyValue := repeat x2a 16 |};
                            enc_Nonce := 1; KeyExpiration := 400;
                            enc_AuthTime := 100; enc_EndTime := 200;
                            enc_RenewTill := 300 |} |}.

Definition rep_unmarshal (tag : byte) (r : KDCRep) (b : bytes) : KDCRep * option error :=
  match b with
  | t :: _ => if Byte.eqb t tag then (reply tag, None)
              else (r, Some (errors_New "wrong message type"))
  | [] => (r, Some (errors_New "empty reply"))
  end.

Definition zero_KRBError : KRBError :=
  {| krb_PVNO := 0; krb_MsgType := 0; ErrorCode := 0; EText := EmptyString; EData := [] |}.

Definition krberror_unmarshal (b : bytes) : KRBError * option error :=
  match b with
  | x1e :: code :: rest =>
      ({| krb_PVNO := 5; krb_MsgType := 30; ErrorCode := Z.of_N (Byte.to_N code);
          EText := EmptyString; EData := rest |}, None)
  | _ => (zero_KRBError, Some (errors_New "not a KRB-ERROR"))
  end.

Definition lookup (kt : Keytab) (user realm : string) (kvno et : Z) : EncryptionKey * option error :=
  match find (fun e => String.eqb (kt_Principal e) user && String.eqb (kt_Realm e) realm
                       && (kt_KVNO e =? kvno) && (KeyType (kt_Key e) =? et)) kt with
  | Some e => (kt_Key e, None)
  | None => (zero_EncryptionKey, Some (errors_New "Matching key not found in keytab"))
  end.

Definition body (cfg : Config) (sname : PrincipalName) : KDCReqBody :=
  {| body_Realm := Default_realm (libDefaults cfg); body_SName := sname;
     body_Till := 1000; body_Nonce := 1;
     body_EType := Default_tkt_enctype_ids (libDefaults cfg) |}.

(** The environment whose KDC is [kdc]. *)
Definition collaborators (kdc : list bytes -> res bytes) : Collaborators :=
  {| IsConfigured := fun _ => true;
     NewASReq := fun cfg _ =>
       {| req_PVNO := 5; req_MsgType := 10; req_PAData := [];
          ReqBody := body cfg (krbtgt (Default_realm (libDefaults cfg))) |};
     ASReq_Marshal := marshal;
     KDC := kdc;
     ASRep_Unmarshal := rep_unmarshal x0b;
     KRBError_Unmarshal := krberror_unmarshal;
     GetPAEncTSEncAsnMarshalled := Ok (list_byte_of_string "20161231235959Z");
     Keytab_GetEncryptionKey := lookup;
     rand_Read := Ok (repeat x07 16);
     ASRep_DecryptEncPart := fun ar _ => (ar, None);
     ASRep_IsValid := fun _ _ _ => (true, None);
     NewTGSReq := fun _ cfg _ _ spn _ =>
       Ok {| req_PVNO := 5; req_MsgType := 12; req_PAData := [];
             ReqBody := body cfg spn |};
     TGSReq_Marshal := marshal;
     TGSRep_Unmarshal := rep_unmarshal x0d;
     TGSRep_DecryptEncPart := fun r _ => (r, None);
     TGSRep_IsValid := fun _ _ _ => (true, None);
     AddEntry := fun c t a e r =>
       c ++ [(String.concat "/" (NameString (SName t)),
              {| ce_Ticket := t; ce_AuthTime := a; ce_EndTime := e; ce_RenewTill := r |})] |}.

Definition key128 : EncryptionKey :=
  {| KeyType := 17; KeyValue := list_byte_of_string "0123456789abcdef" |}.

Definition client : Client :=
  {| cl_Credentials :=
       {| Username := "user";
          cred_Keytab := [ {| kt_Principal := "user"; kt_Realm := "EXAMPLE.COM";
                              kt_KVNO := 1; kt_Key := key128 |} ] |};
     cl_Config := {| libDefaults := {| Default_realm := "EXAMPLE.COM";
                                       Default_tkt_enctype_ids := [17] |} |};
     cl_Session := None;
     cl_Cache := [] |}.

Definition world : World := {| w_client := client; w_sent := [] |}.

(** A KDC that asks for pre-authentication and then issues the ticket. *)
Definition kdc_preauth (sent : list bytes) : res bytes :=
  match sent with
  | [_] => Ok [x1e; x19]
  | _ => Ok [x0b]
  end.

(** A KDC that does not know the principal. *)
Definition kdc_unknown (sent : list bytes) : res bytes := Ok [x1e; x06].

(** A KDC that answers every request with a TGS-REP. *)
Definition kdc_tgs (sent : list bytes) : res bytes := Ok [x0d].

Definition session : Session :=
  {| AuthTime := 100; EndTime := 200; RenewTill := 300;
     TGT := rep_Ticket (reply x0b);
     SessionKey := enc_Key (DecryptedEncPart (reply x0b));
     SessionKeyExpiration := 400 |}.

Definition logged_in : World :=
  {| w_client := {| cl_Credentials := cl_Credentials client;
                    cl_Config := cl_Config client;
                    cl_Session := Some session;
                    cl_Cache := [] |};
     w_sent := [] |}.

Definition user : PrincipalName :=
  {| NameType := nametype.KRB_NT_PRINCIPAL; NameString := ["user"%string] |}.

Definition aes128 : EType := enctype 17 16.
Definition aes256 : EType := enctype 18 32.

Definition plaintext : bytes := list_byte_of_string "attack at dawn".
Definition confounder : bytes := repeat x07 16.

(** The value of a computation that returned. *)
Definition val {A} (d : A) (r : res A) : A :=
  match r with
  | Ok a => a
  | _ => d
  end.

(** Sealing ["attack at dawn"] under [key128] with usage 3, step by step,
    and opening it after its third byte was zeroed. *)
Definition padded3 : bytes := confounded aes128 confounder plaintext.
Definition ke3 : bytes := val [] (DeriveKey aes128 (KeyValue key128) (GetUsageKe (uint32 3))).
Definition ki3 : bytes := val [] (DeriveKey aes128 (KeyValue key128) (GetUsageKi (uint32 3))).
Definition body3 : bytes := snd (val ([], []) (Encrypt aes128 ke3 padded3)).
Definition state3 : bytes := fst (val ([], []) (Encrypt aes128 ke3 padded3)).
Definition mac3 : bytes := val [] (hmac_truncated aes128 ki3 padded3).
Definition sealed3 : EncryptedData :=
  {| ed_EType := 17; KVNO := 0; Cipher := body3 ++ mac3 |}.
Definition opened3' : bytes := val [] (Decrypt aes128 ke3 (set_byte 2 x00 body3)).
Definition mac3' : bytes := val [] (hmac_truncated aes128 ki3 opened3').

Definition krberror (code : Z) : KRBError :=
  {| krb_PVNO := 5; krb_MsgType := 30; ErrorCode := code; EText := EmptyString; EData := [] |}.

(** The enctype 17 with the XOR stream taking a message of any length, as a
    stream cipher does: decrypt undoes encrypt and both keep the length. *)
Definition stream : EType :=
  {| GetETypeID := GetETypeID aes128;
     GetHashID := GetHashID aes128;
     GetKeyByteSize := GetKeyByteSize aes128;
     GetKeySeedBitLength := GetKeySeedBitLength aes128;
     GetDefaultStringToKeyParams := GetDefaultStringToKeyParams aes128;
     StringToKey := StringToKey aes128;
     RandomToKey := RandomToKey aes128;
     GetHMACBitLength := GetHMACBitLength aes128;
     GetMessageBlockByteSize := GetMessageBlockByteSize aes128;
     Encrypt := fun k m =>
       let c := xor_stream k [] m in Ok (skipn (List.length c - 16) c, c);
     Decrypt := fun k m => Ok (xor_stream k [] m);
     GetCypherBlockBitLength := GetCypherBlockBitLength aes128;
     GetConfounderByteSize := GetConfounderByteSize aes128;
     DeriveKey := DeriveKey aes128;
     DeriveRandom := DeriveRandom aes128;
     GetHash := GetHash aes128 |}.


End Fixture.

(** ** More of package crypto: checksum enctypes, padding, key stretching *)

Module chksumtype.
Definition HMAC_SHA1_96_AES128 : Z := 15.
Definition HMAC_SHA1_96_AES256 : Z := 16.
End chksumtype.

Module asnAppTag.
Definition APREQ : Z := 14.
End asnAppTag.

Module iana.
Definition PVNO : Z := 5.
End iana.

(** [b[i]]; index out of range panics. *)
Definition index (b : bytes) (i : Z) : res byte :=
  if (0 <=? i) && (i <? len b) then Ok (nth (Z.to_nat i) b x00) else Panic.

(** [copy(dst[off:], src)] for [0 <= off <= len(dst)]: [dst] afterwards. *)
Definition copy_at (dst : bytes) (off : Z) (src : bytes) : bytes :=
  firstn (Z.to_nat off) dst ++ copy (skipn (Z.to_nat off) dst) src.

(** [int(c)] for a byte. *)
Definition int_of_byte (c : byte) : Z := Z.of_N (Byte.to_N c).

Definition zeroPad (b : bytes) (m : Z) : res bytes :=
  if m <=? 0 then Err (errors_New "Invalid message block size when padding")
  else if len b =? 0 then Err (errors_New "Data not valid to pad: Zero size")
  else
    let l := Z.rem (len b) m in
    if negb (l =? 0) then
      let n := m - l in
      let z := make n in
      Ok (b ++ z)
    else Ok b.

Definition pkcs7Pad (b : bytes) (m : Z) : res bytes :=
  if m <=? 0 then Err (errors_New "Invalid message block size when padding")
  else if len b =? 0 then Err (errors_New "Data not valid to pad: Zero size")
  else
    let n := m - Z.rem (len b) m in
    let! pb := make_checked (len b + n) in
    let pb := copy pb b in
    let! _ := slice_from pb (len b) in
    Ok (copy_at pb (len b) (repeat (byte_of_Z n) (Z.to_nat n))).

(** [for i := 0; i < n; i++ { if b[len(b)-n+i] != c { return error } }]
    over the indices [idxs]: [Ok true] when the loop runs to its end. *)
Fixpoint pkcs7_check (b : bytes) (c : byte) (n : Z) (idxs : list nat) : res bool :=
  match idxs with
  | [] => Ok true
  | i :: rest =>
      let! x := index b (len b - n + Z.of_nat i) in
      if negb (Byte.eqb x c) then Ok false else pkcs7_check b c n rest
  end.

Definition pkcs7Unpad (b : bytes) (m : Z) : res bytes :=
  if m <=? 0 then Err (errors_New "Invalid message block size when unpadding")
  else if len b =? 0 then Err (errors_New "Padded data not valid: Zero size")
  else if negb (Z.rem (len b) m =? 0)
  then Err (errors_New "Padded data not valid: Not multiple of message block size")
  else
    let! c := index b (len b - 1) in
    let n := int_of_byte c in
    if (n =? 0) || (n >? len b)
    then Err (errors_New "Padded data not valid: Data may not have been padded")
    else
      let! ok := pkcs7_check b c n (seq 0 (Z.to_nat n)) in
      if negb ok then Err (errors_New "Padded data not valid")
      else slice_to b (len b - n).

Definition VerifyChecksum (key chksum msg : bytes) (usage : Z) (et : EType) : res bool :=
  let! expectedMAC := drop_error (GetChecksumHash msg key usage et) in
  Ok (hmac_Equal chksum expectedMAC).

(** Reading back the four big-endian octets of a usage constant. *)
Definition usage_number (u : bytes) : Z :=
  fold_left (fun acc b => acc * 256 + int_of_byte b) (firstn 4 u) 0.

Section EngineMore.
Context {aes : AesSuite}.

Definition GetChksumEtype (id : Z) : res EType :=
  if id =? chksumtype.HMAC_SHA1_96_AES128 then Ok Aes128CtsHmacSha96
  else if id =? chksumtype.HMAC_SHA1_96_AES256 then Ok Aes256CtsHmacSha96
  else Err (fmt_Errorf_d "Unknown or unsupported checksum type: %d" id).

End EngineMore.

(** The PA-DATA types that have a case in the switch of
    [GetKeyFromPassword]. *)
Definition recognised_PA (pa : PAData) : bool :=
  (PADataType pa =? patype.PA_PW_SALT)
  || (PADataType pa =? patype.PA_ETYPE_INFO)
  || (PADataType pa =? patype.PA_ETYPE_INFO2).

(** The loop of [deriveRandom]: [i] bytes of [out] are filled, [K] is the
    last block.  [None] stands for a run this model does not determine: the
    fuel is used up, or [Encrypt] failed inside the loop, where the code
    drops the error and goes on with the slice returned beside it, which the
    interface as modelled does not carry. *)
Fixpoint deriveRandom_loop (fuel : nat) (et : EType) (key out : bytes) (i : Z) (K : bytes)
    : option (res bytes) :=
  if i <? len out then
    match fuel with
    | O => None
    | S fuel' =>
        match Encrypt et key K with
        | Ok (_, K') =>
            deriveRandom_loop fuel' et key (copy_at out i K')
              (i + Z.min (len out - i) (len K')) K'
        | Err _ => None
        | Panic => Some Panic
        end
    end
  else Some (Ok out).

(** [deriveRandom(key, usage, n, k, e)]; [Nfold] is not part of the sources
    and enters as [nfold]. *)
Definition deriveRandom (nfold : bytes -> Z -> bytes) (fuel : nat)
    (key usage : bytes) (n k : Z) (e : EType) : option (res bytes) :=
  let nFoldUsage := nfold usage n in
  match make_checked (Z.quot k 8) with
  | Ok out =>
      match Encrypt e key nFoldUsage with
      | Ok (_, K) =>
          deriveRandom_loop fuel e key (copy out K) (Z.min (len out) (len K)) K
      | Err err => Some (Err err)
      | Panic => Some Panic
      end
  | Err err => Some (Err err)
  | Panic => Some Panic
  end.

(** The blocks K1 | K2 | ... of RFC 3961, [blocks] of them, from [K1] on,
    each the encryption of the one before. *)
Fixpoint DR_blocks (et : EType) (key : bytes) (blocks : nat) (K : bytes) : bytes :=
  match blocks with
  | O => []
  | S b =>
      K ++ match Encrypt et key K with
           | Ok (_, K') => DR_blocks et key b K'
           | _ => []
           end
  end.

(** ** More of package messages: building and marshalling an AP-REQ *)

(** Modelled from the spec: the Authenticator structure (avno, crealm,
    cname, cusec, ctime, optional sequence number); its declaration is not
    part of the sources. *)
Record types_Authenticator := {
  AVNO : Z;
  CRealm : string;
  CName : PrincipalName;
  Cusec : Z;
  CTime : Z;
  SeqNumber : Z
}.

(** What [NewAPReq] and [Marshal] call outside the sources at hand. *)
Class APReqDeps := {
  Authenticator_Marshal : types_Authenticator -> res bytes;
  NewKrbFlags : BitString;
  Ticket_Marshal : Ticket -> res bytes;
  asn1_Marshal : marshalAPReq -> res bytes;
  AddASNAppTag : bytes -> Z -> bytes
}.

(** The structure that [Marshal] hands to the ASN.1 encoder: the fields of
    the AP-REQ, the ticket as a raw value of class 2, tag 3, holding the
    marshalled ticket [b]. *)
Definition to_marshalAPReq (a : APReq) (b : bytes) : marshalAPReq :=
  {| m_PVNO := PVNO a;
     m_MsgType := MsgType a;
     m_APOptions := APOptions a;
     m_Ticket := {| rv_Class := 2; Tag := 3; IsCompound := true;
                    rv_Bytes := b; FullBytes := [] |};
     m_Authenticator := Authenticator a |}.

Section APReqBuild.
Context {aes : AesSuite} {deps : APReqDeps}.

Definition encryptAuthenticator (a : types_Authenticator) (sessionKey : EncryptionKey)
    (rnd : res bytes) : res EncryptedData :=
  let! m := wrap "Error marshalling authenticator: %v" (Authenticator_Marshal a) in
  GetEncryptedData m sessionKey keyusage.TGS_REQ_PA_TGS_REQ_AP_REQ_AUTHENTICATOR 0 rnd.

Definition NewAPReq (TGT : Ticket) (sessionKey : EncryptionKey) (auth : types_Authenticator)
    (rnd : res bytes) : res APReq :=
  let! ed := wrap "Error creating authenticator for AP_REQ: %v"
               (encryptAuthenticator auth sessionKey rnd) in
  Ok {| PVNO := iana.PVNO;
        MsgType := msgtype.KRB_AP_REQ;
        APOptions := NewKrbFlags;
        ap_Ticket := TGT;
        Authenticator := ed |}.

(** [func (a *APReq) Marshal() ([]byte, error)]; the error of the ticket is
    returned as it is. *)
Definition APReq_Marshal (a : APReq) : res bytes :=
  let! b := Ticket_Marshal (ap_Ticket a) in
  let m := to_marshalAPReq a b in
  let! mk := wrap "Error marshalling AP_REQ: %v" (asn1_Marshal m) in
  Ok (AddASNAppTag mk asnAppTag.APREQ).

End APReqBuild.

(** The fields of a decoded AP-REQ that [Unmarshal] reads. *)
Definition same_APReq_fields (m m' : marshalAPReq) : Prop :=
  m_PVNO m' = m_PVNO m
  /\ m_MsgType m' = m_MsgType m
  /\ m_APOptions m' = m_APOptions m
  /\ rv_Bytes (m_Ticket m') = rv_Bytes (m_Ticket m)
  /\ m_Authenticator m' = m_Authenticator m.

(** ** Stand-ins for the additions *)

Module Fixture2.
Import Fixture.

(** Inverse of [Fixture.asn1] on the two leading bytes and the ticket. *)
Definition deps : APReqDeps :=
  {| Authenticator_Marshal := fun a =>
       Ok (byte_of_Z (AVNO a) :: list_byte_of_string (CRealm a));
     NewKrbFlags := {| bs_Bytes := [x00; x00; x00; x00]; BitLength := 32 |};
     Ticket_Marshal := fun t => Ok (list_byte_of_string (tkt_Realm t));
     asn1_Marshal := fun m =>
       Ok (byte_of_Z (m_PVNO m) :: byte_of_Z (m_MsgType m) :: rv_Bytes (m_Ticket m));
     AddASNAppTag := fun b _ => b |}.

Definition ticket : Ticket :=
  {| TktVNO := 5; tkt_Realm := "EXAMPLE.COM"; SName := zero_PrincipalName;
     tkt_EncPart := zero_EncryptedData |}.

Definition authenticator : types_Authenticator :=
  {| AVNO := 5; CRealm := "EXAMPLE.COM"; CName := user; Cusec := 0; CTime := 0;
     SeqNumber := 0 |}.

Definition apreq (msgType : Z) : APReq :=
  {| PVNO := 5; MsgType := msgType;
     APOptions := {| bs_Bytes := [x00; x00; x00; x00]; BitLength := 32 |};
     ap_Ticket := ticket; Authenticator := zero_EncryptedData |}.

Definition zero_APReq : APReq :=
  {| PVNO := 0; MsgType := 0; APOptions := {| bs_Bytes := []; BitLength := 0 |};
     ap_Ticket := zero_Ticket; Authenticator := zero_EncryptedData |}.

(** A 4-byte n-fold stand-in: the constant cut or zero-filled to [n/8]
    bytes. *)
Definition nfold (b : bytes) (n : Z) : bytes := copy (make (Z.quot n 8)) b.

(** A client whose configuration lists no enctype, and one whose keytab is
    empty. *)
Definition no_enctypes : World :=
  {| w_client := {| cl_Credentials := cl_Credentials client;
                    cl_Config := {| libDefaults := {| Default_realm := "EXAMPLE.COM";
                                                      Default_tkt_enctype_ids := [] |} |};
                    cl_Session := None; cl_Cache := [] |};
     w_sent := [] |}.

Definition no_key : World :=
  {| w_client := {| cl_Credentials := {| Username := "user"; cred_Keytab := [] |};
                    cl_Config := cl_Config client;
                    cl_Session := None; cl_Cache := [] |};
     w_sent := [] |}.

Definition many_enctypes : World :=
  {| w_client := {| cl_Credentials := cl_Credentials client;
                    cl_Config := {| libDefaults := {| Default_realm := "EXAMPLE.COM";
                                                      Default_tkt_enctype_ids := [17; 23; 3] |} |};
                    cl_Session := None; cl_Cache := [] |};
     w_sent := [] |}.

(** An enctype whose key derivation fails, as for a key of the wrong size. *)
Definition no_derive (et : EType) : EType :=
  {| GetETypeID := GetETypeID et;
     GetHashID := GetHashID et;
     GetKeyByteSize := GetKeyByteSize et;
     GetKeySeedBitLength := GetKeySeedBitLength et;
     GetDefaultStringToKeyParams := GetDefaultStringToKeyParams et;
     StringToKey := StringToKey et;
     RandomToKey := RandomToKey et;
     GetHMACBitLength := GetHMACBitLength et;
     GetMessageBlockByteSize := GetMessageBlockByteSize et;
     Encrypt := Encrypt et;
     Decrypt := Decrypt et;
     GetCypherBlockBitLength := GetCypherBlockBitLength et;
     GetConfounderByteSize := GetConfounderByteSize et;
     DeriveKey := fun _ _ => Err (errors_New "Incorrect keysize");
     DeriveRandom := DeriveRandom et;
     GetHash := GetHash et |}.

Definition suite_no_derive : AesSuite :=
  {| Aes128CtsHmacSha96 := no_derive aes128; Aes256CtsHmacSha96 := no_derive aes256 |}.

(** Decoders that find an empty sequence. *)
Definition codec_empty : TypesCodec :=
  {| ETypeInfo_Unmarshal := fun _ => Ok [];
     ETypeInfo2_Unmarshal := fun _ => Ok [];
     UnmarshalTicket := @UnmarshalTicket codec |}.

Definition abc : bytes := list_byte_of_string "abc".
Definition abc_padded : bytes := abc ++ repeat x05 5.

Definition checksum6 : bytes :=
  val [] (GetChecksumHash plaintext (KeyValue key128) 6 aes128).

(** Sealing the marshalled authenticator under [key128] with usage 7, step
    by step. *)
Definition auth_bytes : bytes := val [] (@Authenticator_Marshal deps authenticator).
Definition padded7 : bytes := confounded aes128 confounder auth_bytes.
Definition ke7 : bytes := val [] (DeriveKey aes128 (KeyValue key128) (GetUsageKe 7)).
Definition ki7 : bytes := val [] (DeriveKey aes128 (KeyValue key128) (GetUsageKi 7)).
Definition body7 : bytes := snd (val ([], []) (Encrypt aes128 ke7 padded7)).
Definition state7 : bytes := fst (val ([], []) (Encrypt aes128 ke7 padded7)).
Definition mac7 : bytes := val [] (hmac_truncated aes128 ki7 padded7).

Definition service : PrincipalName :=
  {| NameType := nametype.KRB_NT_PRINCIPAL;
     NameString := ["HTTP"%string; "www.example.com"%string] |}.

(** A KDC that issues the ticket at once, and one that then answers the
    TGS request. *)
Definition kdc_asrep (sent : list bytes) : res bytes := Ok [x0b].

Definition kdc_login (sent : list bytes) : res bytes :=
  match sent with
  | [_] => Ok [x0b]
  | _ => Ok [x0d]
  end.

Definition after_login : World :=
  fst (@ASExchange suite (collaborators kdc_login) world).

Definition after_tgs : World :=
  fst (@TGSExchange (collaborators kdc_login) service false after_login).

(** The first block of the key stretching of [key128] for the constant
    "kerberos". *)
Definition kerberos : bytes := list_byte_of_string "kerberos".
Definition K1 : bytes :=
  snd (val ([], []) (Encrypt aes128 (KeyValue key128) (nfold kerberos 128))).
Definition K1_state : bytes :=
  fst (val ([], []) (Encrypt aes128 (KeyValue key128) (nfold kerberos 128))).

(** Sealing ["attack at dawn"] under [key128] itself, as usage 0 does. *)
Definition body0 : bytes := snd (val ([], []) (Encrypt aes128 (KeyValue key128) padded3)).
Definition state0 : bytes := fst (val ([], []) (Encrypt aes128 (KeyValue key128) padded3)).

(** The key of ["password"] when the KDC names enctype 18 with salt "SALT". *)
Definition password_key : EncryptionKey * EType :=
  val (zero_EncryptionKey, aes128)
    (@GetKeyFromPassword suite codec "password" user "EXAMPLE.COM" 17
       [ {| PADataType := 19; PADataValue := x12 :: list_byte_of_string "SALT" |} ]).

Definition ticket_bytes : bytes := list_byte_of_string "EXAMPLE.COM".
Definition apreq_bytes : bytes := x05 :: x0e :: ticket_bytes.
Definition apreq_decoded : marshalAPReq :=
  {| m_PVNO := 5; m_MsgType := 14;
     m_APOptions := {| bs_Bytes := [x00; x00; x00; x00]; BitLength := 32 |};
     m_Ticket := {| rv_Class := 2; Tag := 3; IsCompound := true;
                    rv_Bytes := ticket_bytes; FullBytes := ticket_bytes |};
     m_Authenticator := zero_EncryptedData |}.

Definition tgs_request : KDCReq :=
  {| req_PVNO := 5; req_MsgType := 12; req_PAData := [];
     ReqBody := body (cl_Config client) service |}.

(** 32 bytes stretched from [key128] and the constant "kerberos". *)
Definition stretched : bytes :=
  match deriveRandom nfold 4 (KeyValue key128) kerberos 128 256 aes128 with
  | Some (Ok out) => out
  | _ => []
  end.

End Fixture2.

(** * Properties *)

(** ** Lists and slices *)

Lemma len_app {A} (a b : list A) : len (a ++ b) = len a + len b.
Proof. unfold len. rewrite length_app. lia. Qed.

Lemma len_nonneg {A} (a : list A) : 0 <= len a.
Proof. unfold len. lia. Qed.

Lemma copy_length (dst src : bytes) : List.length (copy dst src) = List.length dst.
Proof.
  unfold copy. rewrite length_app, length_firstn, length_skipn. lia.
Qed.

Lemma copy_same_length (dst src : bytes) :
  List.length src = List.length dst -> copy dst src = src.
Proof.
  intros H. unfold copy. rewrite <- H, firstn_all, skipn_all2 by lia.
  apply app_nil_r.
Qed.

Lemma make_length (n : Z) : List.length (make n) = Z.to_nat n.
Proof. unfold make. apply repeat_length. Qed.

Lemma copy_make_same (l : bytes) : copy (make (len l)) l = l.
Proof.
  apply copy_same_length. rewrite make_length. unfold len. lia.
Qed.

Lemma bytes_eqb_eq (a b : bytes) : bytes_eqb a b = true <-> a = b.
Proof.
  revert b. induction a as [|x a IH]; intros [|y b]; simpl; split; intros H;
    try reflexivity; try discriminate.
  - apply andb_true_iff in H. destruct H as [H1 H2].
    apply Byte.byte_dec_bl in H1. apply IH in H2. now subst.
  - injection H as -> ->. apply andb_true_iff. split.
    + now apply Byte.byte_dec_lb.
    + now apply IH.
Qed.

Lemma bytes_neq (a b : bytes) : bytes_eqb a b = false -> a <> b.
Proof.
  intros H E. apply bytes_eqb_eq in E. congruence.
Qed.

Lemma slice_to_app (a b : bytes) : slice_to (a ++ b) (len (a ++ b) - len b) = Ok a.
Proof.
  unfold slice_to. rewrite len_app.
  replace (len a + len b - len b) with (len a) by lia.
  pose proof (len_nonneg a). pose proof (len_nonneg b).
  replace (0 <=? len a) with true by (symmetry; apply Z.leb_le; lia).
  replace (len a <=? len a + len b) with true by (symmetry; apply Z.leb_le; lia).
  simpl. f_equal. unfold len. rewrite Nat2Z.id.
  rewrite firstn_app, firstn_all, Nat.sub_diag. simpl. apply app_nil_r.
Qed.

Lemma slice_from_app (a b : bytes) : slice_from (a ++ b) (len (a ++ b) - len b) = Ok b.
Proof.
  unfold slice_from. rewrite len_app.
  replace (len a + len b - len b) with (len a) by lia.
  pose proof (len_nonneg a). pose proof (len_nonneg b).
  replace (0 <=? len a) with true by (symmetry; apply Z.leb_le; lia).
  replace (len a <=? len a + len b) with true by (symmetry; apply Z.leb_le; lia).
  simpl. f_equal. unfold len. rewrite Nat2Z.id.
  rewrite skipn_app, skipn_all, Nat.sub_diag. reflexivity.
Qed.

Lemma slice_to_Ok (b : bytes) (n : Z) (r : bytes) :
  slice_to b n = Ok r -> len r = n /\ 0 <= n <= len b.
Proof.
  unfold slice_to. destruct (0 <=? n) eqn:H0; destruct (n <=? len b) eqn:H1;
    simpl; try discriminate.
  intros H. injection H as <-. apply Z.leb_le in H0, H1. split; [|lia].
  unfold len in *. rewrite length_firstn. lia.
Qed.


Lemma slice_out_of_range (b : bytes) (n : Z) :
  n < 0 -> slice_to b n = Panic /\ slice_from b n = Panic.
Proof.
  intros H. unfold slice_to, slice_from.
  replace (0 <=? n) with false by (symmetry; apply Z.leb_gt; lia).
  split; reflexivity.
Qed.

(** ** The Go library functions on examples *)

Example getUsage_big_endian :
  GetUsageKe 1 = [x00; x00; x00; x01; xaa]
  /\ GetUsageKi (uint32 (-1)) = [xff; xff; xff; xff; x55]
  /\ GetUsageKc 258 = [x00; x00; x01; x02; x99].
Proof. repeat split. Qed.

Example hex_EncodeToString_example :
  hex_EncodeToString [x00; x00; x10; xff] = "000010ff"%string.
Proof. reflexivity. Qed.

Example strings_Split_example :
  strings_Split_slash "HTTP/www.example.com" = ["HTTP"; "www.example.com"]%string
  /\ strings_Split_slash EmptyString = [EmptyString]
  /\ strings_Split_slash "a//b/" = ["a"; EmptyString; "b"; EmptyString]%string.
Proof. repeat split. Qed.

Example sort_Reverse_example :
  sort_Reverse_IntSlice [17; 18; 3; 18] = [18; 18; 17; 3].
Proof. reflexivity. Qed.

Example copy_example :
  copy [x00; x00; x00] [x01; x02] = [x01; x02; x00]
  /\ copy [x00; x00] [x01; x02; x03] = [x01; x02].
Proof. split; reflexivity. Qed.

(** ** Salt derivation *)

Lemma append_assoc (a b c : string) : ((a ++ b) ++ c = a ++ (b ++ c))%string.
Proof. induction a; simpl; congruence. Qed.

Lemma append_empty_r (a : string) : (a ++ EmptyString = a)%string.
Proof. induction a; simpl; congruence. Qed.

Lemma concat_empty_cons (n : string) (ns : list string) :
  String.concat EmptyString (n :: ns) = (n ++ String.concat EmptyString ns)%string.
Proof.
  destruct ns; simpl; [now rewrite append_empty_r | reflexivity].
Qed.

Lemma GetSalt_concat (pn : PrincipalName) (realm : string) :
  GetSalt pn realm = (realm ++ String.concat EmptyString (NameString pn))%string.
Proof.
  unfold GetSalt. generalize (NameString pn) as ns. intros ns. revert realm.
  induction ns as [|n ns IH]; intros realm.
  - simpl. now rewrite append_empty_r.
  - rewrite concat_empty_cons. simpl fold_left. rewrite IH. apply append_assoc.
Qed.

(** ** Key from password *)

Section KeyFromPassword.
Context {aes : AesSuite} {codec : TypesCodec}.

(** No iteration of the loop assigns [paID]. *)
Lemma pa_step_paID etypeId st pa st' :
  pa_step etypeId st pa = Ok st' -> st_paID st' = st_paID st.
Proof.
  unfold pa_step.
  destruct (PADataType pa =? patype.PA_PW_SALT).
  { destruct (st_paID st >? PADataType pa); intros H; injection H as <-; reflexivity. }
  destruct (PADataType pa =? patype.PA_ETYPE_INFO).
  { destruct (st_paID st >? PADataType pa); [intros H; injection H as <-; reflexivity|].
    destruct (ETypeInfo_Unmarshal (PADataValue pa)) as [[|e0 l]| |]; simpl; try discriminate.
    destruct (switch_etype etypeId (st_etype st) (ei_EType e0)); simpl; try discriminate.
    intros H; injection H as <-; reflexivity. }
  destruct (PADataType pa =? patype.PA_ETYPE_INFO2).
  { destruct (st_paID st >? PADataType pa); [intros H; injection H as <-; reflexivity|].
    destruct (ETypeInfo2_Unmarshal (PADataValue pa)) as [[|e0 l]| |]; simpl; try discriminate.
    destruct (switch_etype etypeId (st_etype st) (ei2_EType e0)); simpl; try discriminate.
    intros H; injection H as <-; reflexivity. }
  intros H; injection H as <-; reflexivity.
Qed.

Lemma pa_loop_paID etypeId pas : forall st st',
  pa_loop etypeId st pas = Ok st' -> st_paID st' = st_paID st.
Proof.
  induction pas as [|pa pas IH]; intros st st' H; simpl in H.
  - injection H as <-. reflexivity.
  - destruct (pa_step etypeId st pa) as [st1| |] eqn:E; simpl in H; try discriminate.
    rewrite (IH _ _ H). eapply pa_step_paID; eassumption.
Qed.

(** C7: when the loop over the PA-DATA leaves the salt empty,
    [GetKeyFromPassword] calls string-to-key with the realm followed by the
    name components, nothing in between; for the components [["user"]] in
    realm EXAMPLE.COM the salt is "EXAMPLE.COMuser". *)
Theorem default_salt_is_realm_then_components :
  forall passwd cn realm etypeId pas et st,
    GetEtype etypeId = Ok et ->
    pa_loop etypeId (s2k_initial et) pas = Ok st ->
    st_salt st = EmptyString ->
    GetKeyFromPassword passwd cn realm etypeId pas =
      (let! k := wrap "Error deriving key from string: %+v"
                   (StringToKey (st_etype st) passwd
                      (realm ++ String.concat EmptyString (NameString cn)) (st_sk2p st)) in
       Ok ({| KeyType := etypeId; KeyValue := k |}, st_etype st))
    /\ GetSalt {| NameType := nametype.KRB_NT_PRINCIPAL; NameString := ["user"%string] |}
         "EXAMPLE.COM" = "EXAMPLE.COMuser"%string.
Proof.
  intros passwd cn realm etypeId pas et st Het Hloop Hsalt. split; [|reflexivity].
  unfold GetKeyFromPassword. rewrite Het. simpl. rewrite Hloop. simpl.
  rewrite Hsalt. simpl. rewrite GetSalt_concat. reflexivity.
Qed.

(** C4, on the code: a PA-PW-SALT entry that follows a PA-ETYPE-INFO2 entry
    is applied, and its value is the salt handed to string-to-key; the
    maximum [paID] is still 0 after both entries. *)
Theorem later_pw_salt_overrides_etype_info2 :
  forall passwd cn realm etypeId et v2 e2 more x v,
    GetEtype etypeId = Ok et ->
    ETypeInfo2_Unmarshal v2 = Ok (e2 :: more) ->
    ei2_EType e2 = etypeId ->
    let pas := [ {| PADataType := patype.PA_ETYPE_INFO2; PADataValue := v2 |};
                 {| PADataType := patype.PA_PW_SALT; PADataValue := x :: v |} ] in
    let sk2p := if len (ei2_S2KParams e2) =? 4
                then hex_EncodeToString (ei2_S2KParams e2)
                else GetDefaultStringToKeyParams et in
    pa_loop etypeId (s2k_initial et) pas =
      Ok {| st_etype := et; st_sk2p := sk2p;
            st_salt := string_of_list_byte (x :: v); st_paID := 0 |}
    /\ GetKeyFromPassword passwd cn realm etypeId pas =
         (let! k := wrap "Error deriving key from string: %+v"
                      (StringToKey et passwd (string_of_list_byte (x :: v)) sk2p) in
          Ok ({| KeyType := etypeId; KeyValue := k |}, et)).
Proof.
  intros passwd cn realm etypeId et v2 e2 more x v Het Hv2 He2 pas sk2p.
  assert (Hloop : pa_loop etypeId (s2k_initial et) pas =
                  Ok {| st_etype := et; st_sk2p := sk2p;
                        st_salt := string_of_list_byte (x :: v); st_paID := 0 |}).
  { unfold pas. simpl. unfold pa_step at 1. simpl. rewrite Hv2. simpl.
    unfold switch_etype. rewrite He2, Z.eqb_refl. simpl. reflexivity. }
  split; [exact Hloop|].
  unfold GetKeyFromPassword. rewrite Het. unfold wrap at 1. unfold bind at 1.
  rewrite Hloop. reflexivity.
Qed.

(** C5, on the code: when a PA-ETYPE-INFO2 entry names enctype 18 and the
    requested enctype-id is 17, the returned key carries enctype-id 17 and
    the key value computed by enctype 18; with key sizes that differ it
    breaks invariant I1. *)
Theorem key_type_stays_requested_after_switch :
  forall passwd cn realm v2 e2 more k,
    ETypeInfo2_Unmarshal v2 = Ok (e2 :: more) ->
    ei2_EType e2 = etype.AES256_CTS_HMAC_SHA1_96 ->
    let sk2p := if len (ei2_S2KParams e2) =? 4
                then hex_EncodeToString (ei2_S2KParams e2)
                else GetDefaultStringToKeyParams Aes128CtsHmacSha96 in
    let salt := if String.eqb (ei2_Salt e2) EmptyString
                then GetSalt cn realm else ei2_Salt e2 in
    StringToKey Aes256CtsHmacSha96 passwd salt sk2p = Ok k ->
    len k = GetKeyByteSize Aes256CtsHmacSha96 ->
    GetKeyByteSize Aes256CtsHmacSha96 <> GetKeyByteSize Aes128CtsHmacSha96 ->
    let key := {| KeyType := etype.AES128_CTS_HMAC_SHA1_96; KeyValue := k |} in
    GetKeyFromPassword passwd cn realm etype.AES128_CTS_HMAC_SHA1_96
      [ {| PADataType := patype.PA_ETYPE_INFO2; PADataValue := v2 |} ]
      = Ok (key, Aes256CtsHmacSha96)
    /\ ~ I1 key.
Proof.
  intros passwd cn realm v2 e2 more k Hv2 He2 sk2p salt Hk Hlen Hsizes key. split.
  - unfold GetKeyFromPassword. simpl. unfold pa_step. simpl. rewrite Hv2. simpl.
    unfold switch_etype. rewrite He2. simpl.
    fold salt. fold sk2p. rewrite Hk. reflexivity.
  - intros [et [Het Hl]]. simpl in Het. injection Het as <-.
    simpl in Hl. congruence.
Qed.

End KeyFromPassword.

(** ** The encrypted-data engine *)

Lemma slice_to_not_Err (b : bytes) (n : Z) (e : error) : slice_to b n <> Err e.
Proof. unfold slice_to. destruct ((0 <=? n) && (n <=? len b)); discriminate. Qed.

Lemma drop_error_hmac_truncated (et : EType) (k pt : bytes) :
  drop_error (hmac_truncated et k pt) = hmac_truncated et k pt.
Proof.
  destruct (hmac_truncated et k pt) eqn:E; try reflexivity.
  exfalso. eapply slice_to_not_Err. exact E.
Qed.

Lemma getHash_derived (pt key usage : bytes) (et : EType) (k : bytes) :
  DeriveKey et key usage = Ok k -> getHash pt key usage et = hmac_truncated et k pt.
Proof. intros H. unfold getHash. rewrite H. reflexivity. Qed.

Lemma set_byte_length (i : nat) (x : byte) (l : bytes) :
  List.length (set_byte i x l) = List.length l.
Proof.
  revert i. induction l as [|y l IH]; intros [|i]; simpl; try reflexivity.
  now rewrite IH.
Qed.

Lemma set_byte_app_l (i : nat) (x : byte) (a b : bytes) :
  (i < List.length a)%nat -> set_byte i x (a ++ b) = set_byte i x a ++ b.
Proof.
  revert i. induction a as [|y a IH]; intros [|i] H; simpl in *; try lia; try reflexivity.
  rewrite IH by lia. reflexivity.
Qed.

Lemma set_byte_app_r (i : nat) (x : byte) (a b : bytes) :
  (List.length a <= i)%nat -> set_byte i x (a ++ b) = a ++ set_byte (i - List.length a) x b.
Proof.
  revert i. induction a as [|y a IH]; intros i H; simpl in *.
  - now rewrite Nat.sub_0_r.
  - destruct i as [|i]; [lia|]. simpl. rewrite IH by lia. reflexivity.
Qed.

Lemma set_byte_changes (i : nat) (x : byte) (l : bytes) :
  (i < List.length l)%nat -> x <> nth i l x00 -> set_byte i x l <> l.
Proof.
  revert i. induction l as [|y l IH]; intros [|i] H Hx; simpl in *; try lia.
  - intros E. injection E as E. now apply Hx.
  - intros E. injection E as E. apply (IH i); [lia|exact Hx|exact E].
Qed.

Lemma bytes_eqb_neq (a b : bytes) : a <> b -> bytes_eqb a b = false.
Proof.
  intros H. destruct (bytes_eqb a b) eqn:E; [|reflexivity].
  apply bytes_eqb_eq in E. contradiction.
Qed.

(** [DecryptEncPart] on a cipher made of a body and a tail as long as the
    HMAC truncation: the tail is compared with the truncated HMAC of the
    decrypted body. *)
Lemma DecryptEncPart_body_tail (et : EType) (key : bytes) (u : Z) (ke ki C tail b mac : bytes)
    (t kv : Z) :
  DeriveKey et key (GetUsageKe u) = Ok ke ->
  DeriveKey et key (GetUsageKi u) = Ok ki ->
  len tail = Z.quot (GetHMACBitLength et) 8 ->
  Decrypt et ke C = Ok b ->
  hmac_truncated et ki b = Ok mac ->
  DecryptEncPart key {| ed_EType := t; KVNO := kv; Cipher := C ++ tail |} et u =
    if bytes_eqb tail mac then slice_from b (GetConfounderByteSize et)
    else Err err_integrity.
Proof.
  intros Hke Hki Htail Hdec Hmac.
  unfold DecryptEncPart. rewrite Hke. simpl. rewrite <- Htail.
  rewrite slice_to_app. simpl. rewrite Hdec. simpl.
  unfold EType_VerifyIntegrity, VerifyIntegrity. rewrite <- Htail.
  unfold make_checked.
  replace (0 <=? len tail) with true
    by (symmetry; apply Z.leb_le; apply len_nonneg).
  simpl. rewrite slice_from_app. simpl.
  unfold GetIntegrityHash. rewrite (getHash_derived _ _ _ _ _ Hki).
  rewrite drop_error_hmac_truncated, Hmac. simpl.
  rewrite copy_make_same. unfold hmac_Equal.
  destruct (bytes_eqb tail mac); reflexivity.
Qed.

Lemma slice_from_confounded (et : EType) (r pt : bytes) :
  0 <= GetConfounderByteSize et ->
  slice_from (confounded et r pt) (GetConfounderByteSize et) = Ok pt.
Proof.
  intros H. unfold confounded.
  set (c := copy (make (GetConfounderByteSize et)) r).
  assert (Hc : len c = GetConfounderByteSize et).
  { unfold c, len. rewrite copy_length, make_length. lia. }
  rewrite <- Hc.
  replace (len c) with (len (c ++ pt) - len pt) by (rewrite len_app; lia).
  apply slice_from_app.
Qed.

Section EncryptedDataEngine.
Context {aes : AesSuite}.

(** The engine in terms of [seal], once the two keys are known. *)
Lemma GetEncryptedData_seal pt key usage kvno r et k ki :
  GetEtype (KeyType key) = Ok et ->
  0 <= GetConfounderByteSize et ->
  (if negb (usage =? 0)
   then DeriveKey et (KeyValue key) (GetUsageKe (uint32 usage))
   else Ok (KeyValue key)) = Ok k ->
  DeriveKey et (KeyValue key) (GetUsageKi (uint32 usage)) = Ok ki ->
  GetEncryptedData pt key usage kvno (Ok r) =
    sealed_data key kvno (seal et k ki (confounded et r pt)).
Proof.
  intros Het Hc Hk Hki. unfold GetEncryptedData. rewrite Het. simpl.
  replace (if negb (usage =? 0)
           then wrap "Error deriving key: %v"
                  (DeriveKey et (KeyValue key) (GetUsageKe (uint32 usage)))
           else Ok (KeyValue key)) with (@Ok bytes k).
  2:{ destruct (negb (usage =? 0)); [rewrite Hk|]; simpl; congruence. }
  simpl. unfold make_checked.
  replace (0 <=? GetConfounderByteSize et) with true by (symmetry; now apply Z.leb_le).
  simpl. fold (confounded et r pt).
  unfold GetIntegrityHash. rewrite (getHash_derived _ _ _ _ _ Hki).
  rewrite drop_error_hmac_truncated.
  unfold sealed_data, seal.
  destruct (Encrypt et k (confounded et r pt)) as [[st C]| |]; simpl; try reflexivity.
  destruct (hmac_truncated et ki (confounded et r pt)) eqn:E; simpl; try reflexivity.
  exfalso. eapply slice_to_not_Err. exact E.
Qed.

(** C3, as the code has it: with usage 0 the engine encrypts under the
    given key itself (no derivation for Ke) while the HMAC key Ki is still
    derived, from the usage constant 00 00 00 00 55; with any other usage
    both Ke (tag AA) and Ki (tag 55) are derived from the given key. *)
Theorem GetEncryptedData_keys :
  forall pt key usage kvno r et,
    GetEtype (KeyType key) = Ok et ->
    0 <= GetConfounderByteSize et ->
    (usage = 0 -> forall ki,
        DeriveKey et (KeyValue key) [x00; x00; x00; x00; x55] = Ok ki ->
        GetEncryptedData pt key usage kvno (Ok r) =
          sealed_data key kvno (seal et (KeyValue key) ki (confounded et r pt)))
    /\ (usage <> 0 -> forall ke ki,
        DeriveKey et (KeyValue key) (getUsage (uint32 usage) xaa) = Ok ke ->
        DeriveKey et (KeyValue key) (getUsage (uint32 usage) x55) = Ok ki ->
        GetEncryptedData pt key usage kvno (Ok r) =
          sealed_data key kvno (seal et ke ki (confounded et r pt))).
Proof.
  intros pt key usage kvno r et Het Hc. split.
  - intros -> ki Hki. apply GetEncryptedData_seal; try assumption; reflexivity.
  - intros Hu ke ki Hke Hki. apply GetEncryptedData_seal; try assumption.
    replace (usage =? 0) with false by (symmetry; now apply Z.eqb_neq).
    exact Hke.
Qed.

(** C6, as the code has it: for a usage other than 0, [DecryptEncPart]
    gives back the plaintext sealed by [GetEncryptedData] under the same key
    and usage (where decrypt undoes encrypt and the derivations succeed);
    changing a byte of the trailing MAC gives the integrity error; changing
    a byte of the cipher body gives the integrity error whenever the
    truncated HMAC of the newly decrypted text differs from the MAC. *)
Theorem seal_then_open :
  forall pt key usage kvno r et ke ki st C mac,
    GetEtype (KeyType key) = Ok et ->
    usage <> 0 ->
    0 <= GetConfounderByteSize et ->
    DeriveKey et (KeyValue key) (GetUsageKe (uint32 usage)) = Ok ke ->
    DeriveKey et (KeyValue key) (GetUsageKi (uint32 usage)) = Ok ki ->
    Encrypt et ke (confounded et r pt) = Ok (st, C) ->
    Decrypt et ke C = Ok (confounded et r pt) ->
    hmac_truncated et ki (confounded et r pt) = Ok mac ->
    let ed := {| ed_EType := KeyType key; KVNO := kvno; Cipher := C ++ mac |} in
    GetEncryptedData pt key usage kvno (Ok r) = Ok ed
    /\ DecryptEncPart (KeyValue key) ed et (uint32 usage) = Ok pt
    /\ (forall i x,
          (List.length C <= i < List.length (C ++ mac))%nat ->
          x <> nth i (C ++ mac) x00 ->
          DecryptEncPart (KeyValue key) (with_Cipher ed (set_byte i x (C ++ mac)))
            et (uint32 usage) = Err err_integrity)
    /\ (forall i x b' mac',
          (i < List.length C)%nat ->
          Decrypt et ke (set_byte i x C) = Ok b' ->
          hmac_truncated et ki b' = Ok mac' ->
          mac' <> mac ->
          DecryptEncPart (KeyValue key) (with_Cipher ed (set_byte i x (C ++ mac)))
            et (uint32 usage) = Err err_integrity).
Proof.
  intros pt key usage kvno r et ke ki st C mac Het Hu Hc Hke Hki Henc Hdec Hmac ed.
  pose proof (slice_to_Ok _ _ _ Hmac) as [Hlen _].
  split; [|split; [|split]].
  - rewrite (GetEncryptedData_seal pt key usage kvno r et ke ki); try assumption.
    + unfold sealed_data, seal. rewrite Henc. simpl. rewrite Hmac. reflexivity.
    + replace (usage =? 0) with false by (symmetry; now apply Z.eqb_neq).
      exact Hke.
  - unfold ed.
    rewrite (DecryptEncPart_body_tail et _ _ ke ki C mac _ mac _ _ Hke Hki Hlen Hdec Hmac).
    replace (bytes_eqb mac mac) with true by (symmetry; now apply bytes_eqb_eq).
    now apply slice_from_confounded.
  - intros i x Hi Hx. unfold with_Cipher, ed. simpl.
    rewrite set_byte_app_r by lia.
    assert (Hi' : (i - List.length C < List.length mac)%nat)
      by (rewrite length_app in Hi; lia).
    assert (Hx' : x <> nth (i - List.length C) mac x00)
      by (rewrite app_nth2 in Hx by lia; exact Hx).
    rewrite (DecryptEncPart_body_tail et _ _ ke ki C _ (confounded et r pt) mac _ _ Hke Hki); try assumption.
    + rewrite bytes_eqb_neq; [reflexivity|]. now apply set_byte_changes.
    + unfold len in *. rewrite set_byte_length. exact Hlen.
  - intros i x b' mac' Hi Hdec' Hmac' Hneq. unfold with_Cipher, ed. simpl.
    rewrite set_byte_app_l by lia.
    rewrite (DecryptEncPart_body_tail et _ _ ke ki _ mac b' mac' _ _ Hke Hki Hlen Hdec' Hmac').
    rewrite bytes_eqb_neq; [reflexivity|]. congruence.
Qed.

End EncryptedDataEngine.




(** ** AP-REQ *)

Section APReqProperties.
Context {codec : TypesCodec} {asn1 : Asn1}.

(** C9: once the ASN.1 layer has decoded the bytes as an AP-REQ structure,
    [Unmarshal] returns an error when the decoded msg-type is not 14; when
    it is 14 and the embedded ticket unmarshals, it returns no error and
    the receiver holds the decoded pvno, msg-type, ap-options, ticket and
    authenticator. *)
Theorem APReq_Unmarshal_checks_msg_type :
  forall a b m,
    asn1_UnmarshalWithParams b "application,explicit,tag:14" = Ok m ->
    (m_MsgType m <> msgtype.KRB_AP_REQ ->
       APReq_Unmarshal a b =
         Ok (a, Some (errors_New "Message ID does not indicate a KRB_AS_REP")))
    /\ (m_MsgType m = msgtype.KRB_AP_REQ ->
        forall t, UnmarshalTicket (rv_Bytes (m_Ticket m)) = (t, None) ->
        APReq_Unmarshal a b =
          Ok ({| PVNO := m_PVNO m; MsgType := m_MsgType m;
                 APOptions := m_APOptions m; ap_Ticket := t;
                 Authenticator := m_Authenticator m |}, None)).
Proof.
  intros a b m Hm. unfold APReq_Unmarshal. rewrite Hm. split.
  - intros Hne. apply Z.eqb_neq in Hne. rewrite Hne. reflexivity.
  - intros He t Ht. apply Z.eqb_eq in He. rewrite He. simpl. rewrite Ht. reflexivity.
Qed.

End APReqProperties.

(** ** The exchanges *)

Section ExchangeProperties.
Context {aes : AesSuite} {codec : TypesCodec} {co : Collaborators}.

Ltac run := unfold bindM, get_client, set_client, lift, fail, ret, SendToKDC; simpl.

(** The AS exchange up to the reply to the retried request, when the first
    reply is a KRB-ERROR asking for pre-authentication. *)
Lemma ASExchange_preauth_path w a b1 rb1 ar1 e1 krberr paTSb id0 ids etype key oe ed b2 :
  IsConfigured (w_client w) = true ->
  NewASReq (cl_Config (w_client w)) (Username (cl_Credentials (w_client w))) = a ->
  ASReq_Marshal a = Ok b1 ->
  KDC (w_sent w ++ [b1]) = Ok rb1 ->
  ASRep_Unmarshal zero_KDCRep rb1 = (ar1, Some e1) ->
  KRBError_Unmarshal rb1 = (krberr, None) ->
  ErrorCode krberr = errorcode.KDC_ERR_PREAUTH_REQUIRED ->
  GetPAEncTSEncAsnMarshalled = Ok paTSb ->
  sort_Reverse_IntSlice (Default_tkt_enctype_ids (libDefaults (cl_Config (w_client w))))
    = id0 :: ids ->
  GetEtype id0 = Ok etype ->
  Keytab_GetEncryptionKey (cred_Keytab (cl_Credentials (w_client w)))
    (Username (cl_Credentials (w_client w)))
    (Default_realm (libDefaults (cl_Config (w_client w)))) 1 (GetETypeID etype) = (key, oe) ->
  GetEncryptedData paTSb key 0 1 rand_Read = Ok ed ->
  ASReq_Marshal (add_PAData a {| PADataType := patype.PA_ENC_TIMESTAMP;
                                 PADataValue := Cipher ed |}) = Ok b2 ->
  ASExchange w =
    (let w2 := {| w_client := set_enctype_ids (w_client w) (id0 :: ids);
                  w_sent := (w_sent w ++ [b1]) ++ [b2] |} in
     match wrap "Error sending AS_REQ to KDC: %v" (KDC ((w_sent w ++ [b1]) ++ [b2])) with
     | Ok rb2 =>
         match ASRep_Unmarshal ar1 rb2 with
         | (_, Some err) =>
             (w2, Err (fmt_Errorf "Could not unmarshal data returned from KDC: %v" err))
         | (_, None) => (w2, Err (KRBError_error krberr))
         end
     | Err e => (w2, Err e)
     | Panic => (w2, Panic)
     end).
Proof.
  intros Hcfg Ha Hb1 Hrb1 Har1 Hkrb Hcode HpaTS Hsort Het Hkey Hed Hb2.
  destruct w as [cl sent]. simpl in *.
  unfold ASExchange. run. rewrite Hcfg. simpl. rewrite Ha, Hb1. simpl.
  rewrite Hrb1. simpl. rewrite Har1, Hkrb, Hcode. simpl.
  unfold preauth_retry. run. rewrite HpaTS. simpl. rewrite Hsort. simpl.
  rewrite Het. simpl. rewrite Hkey. rewrite Hed. simpl. rewrite Hb2. simpl.
  destruct (KDC ((sent ++ [b1]) ++ [b2])) as [rb2| |]; simpl; try reflexivity.
  destruct (ASRep_Unmarshal ar1 rb2) as [ar2 [err|]]; reflexivity.
Qed.

(** A KRB-ERROR with another error code is returned as it is; nothing but
    the first request has been sent and the client is unchanged. *)
Lemma ASExchange_other_error w a b1 rb1 ar1 e1 krberr :
  IsConfigured (w_client w) = true ->
  NewASReq (cl_Config (w_client w)) (Username (cl_Credentials (w_client w))) = a ->
  ASReq_Marshal a = Ok b1 ->
  KDC (w_sent w ++ [b1]) = Ok rb1 ->
  ASRep_Unmarshal zero_KDCRep rb1 = (ar1, Some e1) ->
  KRBError_Unmarshal rb1 = (krberr, None) ->
  ErrorCode krberr <> errorcode.KDC_ERR_PREAUTH_REQUIRED ->
  ASExchange w =
    ({| w_client := w_client w; w_sent := w_sent w ++ [b1] |},
     Err (KRBError_error krberr)).
Proof.
  intros Hcfg Ha Hb1 Hrb1 Har1 Hkrb Hcode.
  destruct w as [cl sent]. simpl in *.
  unfold ASExchange. run. rewrite Hcfg. simpl. rewrite Ha, Hb1. simpl.
  rewrite Hrb1. simpl. rewrite Har1, Hkrb. apply Z.eqb_neq in Hcode.
  rewrite Hcode. reflexivity.
Qed.

(** The path without pre-authentication: a first reply that unmarshals as
    an AS-REP is decrypted and validated, the session is filled from the
    decrypted part and nil is returned. *)
Lemma ASExchange_direct_reply w a b1 rb1 ar1 ar2 err :
  IsConfigured (w_client w) = true ->
  NewASReq (cl_Config (w_client w)) (Username (cl_Credentials (w_client w))) = a ->
  ASReq_Marshal a = Ok b1 ->
  KDC (w_sent w ++ [b1]) = Ok rb1 ->
  ASRep_Unmarshal zero_KDCRep rb1 = (ar1, None) ->
  ASRep_DecryptEncPart ar1 (cl_Credentials (w_client w)) = (ar2, None) ->
  ASRep_IsValid ar2 (cl_Config (w_client w)) a = (true, err) ->
  ASExchange w =
    ({| w_client :=
          set_Session (w_client w)
            {| AuthTime := enc_AuthTime (DecryptedEncPart ar2);
               EndTime := enc_EndTime (DecryptedEncPart ar2);
               RenewTill := enc_RenewTill (DecryptedEncPart ar2);
               TGT := rep_Ticket ar2;
               SessionKey := enc_Key (DecryptedEncPart ar2);
               SessionKeyExpiration := KeyExpiration (DecryptedEncPart ar2) |};
        w_sent := w_sent w ++ [b1] |}, Ok tt).
Proof.
  intros Hcfg Ha Hb1 Hrb1 Har1 Hdec Hvalid.
  destruct w as [cl sent]. simpl in *.
  unfold ASExchange. run. rewrite Hcfg. simpl. rewrite Ha, Hb1. simpl.
  rewrite Hrb1. simpl. rewrite Har1, Hdec, Hvalid. reflexivity.
Qed.

(** C1, on the code: after a KRB-ERROR with code 25 the request is sent
    once more with the PA-ENC-TIMESTAMP appended, and when the reply to it
    unmarshals as an AS-REP, [ASExchange] still returns the KRB-ERROR: the
    reply is neither decrypted nor validated and the session is the one
    from before the call. *)
Theorem ASExchange_returns_krberror_after_retry :
  forall w a b1 rb1 ar1 e1 krberr paTSb id0 ids etype key oe ed b2 rb2 ar2,
    IsConfigured (w_client w) = true ->
    NewASReq (cl_Config (w_client w)) (Username (cl_Credentials (w_client w))) = a ->
    ASReq_Marshal a = Ok b1 ->
    KDC (w_sent w ++ [b1]) = Ok rb1 ->
    ASRep_Unmarshal zero_KDCRep rb1 = (ar1, Some e1) ->
    KRBError_Unmarshal rb1 = (krberr, None) ->
    ErrorCode krberr = errorcode.KDC_ERR_PREAUTH_REQUIRED ->
    GetPAEncTSEncAsnMarshalled = Ok paTSb ->
    sort_Reverse_IntSlice (Default_tkt_enctype_ids (libDefaults (cl_Config (w_client w))))
      = id0 :: ids ->
    GetEtype id0 = Ok etype ->
    Keytab_GetEncryptionKey (cred_Keytab (cl_Credentials (w_client w)))
      (Username (cl_Credentials (w_client w)))
      (Default_realm (libDefaults (cl_Config (w_client w)))) 1 (GetETypeID etype) = (key, oe) ->
    GetEncryptedData paTSb key 0 1 rand_Read = Ok ed ->
    ASReq_Marshal (add_PAData a {| PADataType := patype.PA_ENC_TIMESTAMP;
                                   PADataValue := Cipher ed |}) = Ok b2 ->
    KDC ((w_sent w ++ [b1]) ++ [b2]) = Ok rb2 ->
    ASRep_Unmarshal ar1 rb2 = (ar2, None) ->
    ASExchange w =
      ({| w_client := set_enctype_ids (w_client w) (id0 :: ids);
          w_sent := (w_sent w ++ [b1]) ++ [b2] |},
       Err (KRBError_error krberr))
    /\ cl_Session (w_client (fst (ASExchange w))) = cl_Session (w_client w).
Proof.
  intros w a b1 rb1 ar1 e1 krberr paTSb id0 ids etype key oe ed b2 rb2 ar2
    Hcfg Ha Hb1 Hrb1 Har1 Hkrb Hcode HpaTS Hsort Het Hkey Hed Hb2 Hrb2 Har2.
  rewrite (ASExchange_preauth_path w a b1 rb1 ar1 e1 krberr paTSb id0 ids etype key oe ed b2)
    by assumption.
  rewrite Hrb2. simpl. rewrite Har2. split; reflexivity.
Qed.

(** C2, as the code has it: the PA-ENC-TIMESTAMP of the retried request
    is what the engine returns for the marshalled timestamp under the
    keytab key with usage 0 and kvno 1: the body is encrypted under the
    keytab key itself, the HMAC key is derived from it with the usage
    constant 00 00 00 00 55. *)
Theorem preauth_timestamp_sealed_with_usage_zero :
  forall w a b1 rb1 ar1 e1 krberr paTSb id0 ids etype key oe et r ki c b2,
    IsConfigured (w_client w) = true ->
    NewASReq (cl_Config (w_client w)) (Username (cl_Credentials (w_client w))) = a ->
    ASReq_Marshal a = Ok b1 ->
    KDC (w_sent w ++ [b1]) = Ok rb1 ->
    ASRep_Unmarshal zero_KDCRep rb1 = (ar1, Some e1) ->
    KRBError_Unmarshal rb1 = (krberr, None) ->
    ErrorCode krberr = errorcode.KDC_ERR_PREAUTH_REQUIRED ->
    GetPAEncTSEncAsnMarshalled = Ok paTSb ->
    sort_Reverse_IntSlice (Default_tkt_enctype_ids (libDefaults (cl_Config (w_client w))))
      = id0 :: ids ->
    GetEtype id0 = Ok etype ->
    Keytab_GetEncryptionKey (cred_Keytab (cl_Credentials (w_client w)))
      (Username (cl_Credentials (w_client w)))
      (Default_realm (libDefaults (cl_Config (w_client w)))) 1 (GetETypeID etype) = (key, oe) ->
    GetEtype (KeyType key) = Ok et ->
    0 <= GetConfounderByteSize et ->
    rand_Read = Ok r ->
    DeriveKey et (KeyValue key) [x00; x00; x00; x00; x55] = Ok ki ->
    seal et (KeyValue key) ki (confounded et r paTSb) = Ok c ->
    ASReq_Marshal (add_PAData a {| PADataType := patype.PA_ENC_TIMESTAMP;
                                   PADataValue := c |}) = Ok b2 ->
    GetEncryptedData paTSb key 0 1 rand_Read =
      Ok {| ed_EType := KeyType key; KVNO := 1; Cipher := c |}
    /\ w_sent (fst (ASExchange w)) = (w_sent w ++ [b1]) ++ [b2].
Proof.
  intros w a b1 rb1 ar1 e1 krberr paTSb id0 ids etype key oe et r ki c b2
    Hcfg Ha Hb1 Hrb1 Har1 Hkrb Hcode HpaTS Hsort Het Hkey Hket Hconf Hr Hki Hc Hb2.
  assert (Hed : GetEncryptedData paTSb key 0 1 rand_Read =
                Ok {| ed_EType := KeyType key; KVNO := 1; Cipher := c |}).
  { rewrite Hr.
    rewrite (GetEncryptedData_seal paTSb key 0 1 r et (KeyValue key) ki);
      try assumption; try reflexivity.
    unfold sealed_data. rewrite Hc. reflexivity. }
  split; [exact Hed|].
  rewrite (ASExchange_preauth_path w a b1 rb1 ar1 e1 krberr paTSb id0 ids etype key oe _ b2
             Hcfg Ha Hb1 Hrb1 Har1 Hkrb Hcode HpaTS Hsort Het Hkey Hed Hb2).
  cbv zeta.
  destruct (KDC ((w_sent w ++ [b1]) ++ [b2])) as [rb2| |]; simpl; try reflexivity.
  destruct (ASRep_Unmarshal ar1 rb2) as [ar2 [err|]]; reflexivity.
Qed.

(** [TGSExchange] never writes the client. *)
Lemma TGSExchange_client spn renewal w :
  w_client (fst (TGSExchange spn renewal w)) = w_client w.
Proof.
  destruct w as [cl sent]. unfold TGSExchange. run.
  destruct (cl_Session cl) as [session|]; [|reflexivity].
  destruct (NewTGSReq _ _ _ _ _ _) as [tgsReq| |]; simpl; try reflexivity.
  destruct (TGSReq_Marshal tgsReq) as [b| |]; simpl; try reflexivity.
  destruct (KDC (sent ++ [b])) as [r| |]; simpl; try reflexivity.
  destruct (TGSRep_Unmarshal zero_KDCRep r) as [rep1 [err|]]; try reflexivity.
  destruct (TGSRep_DecryptEncPart rep1 (SessionKey session)) as [rep2 [err|]];
    try reflexivity.
  destruct (TGSRep_IsValid rep2 (cl_Config cl) tgsReq) as [[|] err]; reflexivity.
Qed.

(** A successful [TGSExchange] went through every step. *)
Lemma TGSExchange_Ok spn renewal w w' tgsReq tgsRep :
  TGSExchange spn renewal w = (w', Ok (tgsReq, tgsRep)) ->
  exists session b r rep1 err,
    cl_Session (w_client w) = Some session
    /\ NewTGSReq (Username (cl_Credentials (w_client w))) (cl_Config (w_client w))
         (TGT session) (SessionKey session) spn renewal = Ok tgsReq
    /\ TGSReq_Marshal tgsReq = Ok b
    /\ KDC (w_sent w ++ [b]) = Ok r
    /\ TGSRep_Unmarshal zero_KDCRep r = (rep1, None)
    /\ TGSRep_DecryptEncPart rep1 (SessionKey session) = (tgsRep, None)
    /\ TGSRep_IsValid tgsRep (cl_Config (w_client w)) tgsReq = (true, err)
    /\ w' = {| w_client := w_client w; w_sent := w_sent w ++ [b] |}.
Proof.
  destruct w as [cl sent]. unfold TGSExchange. run.
  destruct (cl_Session cl) as [session|]; [|discriminate].
  destruct (NewTGSReq _ _ _ _ _ _) as [req| |] eqn:Ereq; simpl; try discriminate.
  destruct (TGSReq_Marshal req) as [b| |] eqn:Eb; simpl; try discriminate.
  destruct (KDC (sent ++ [b])) as [r| |] eqn:Er; simpl; try discriminate.
  destruct (TGSRep_Unmarshal zero_KDCRep r) as [rep1 [err|]] eqn:E1; try discriminate.
  destruct (TGSRep_DecryptEncPart rep1 (SessionKey session)) as [rep2 [err|]] eqn:E2;
    try discriminate.
  destruct (TGSRep_IsValid rep2 (cl_Config cl) req) as [[|] err] eqn:E3; try discriminate.
  intros H. injection H as <- <- <-.
  exists session, b, r, rep1, err. repeat split; assumption.
Qed.

(** C8: without a session [TGSExchange] returns its error with nothing
    handed to the transport and the client untouched; [GetServiceTicket]
    applies [AddEntry] once to the cache when the exchange succeeds (and an
    exchange succeeds only when every step did), and leaves the cache as it
    was when it does not return nil. *)
Theorem GetServiceTicket_cache :
  forall spn w,
    let princ := {| NameType := nametype.KRB_NT_PRINCIPAL;
                    NameString := strings_Split_slash spn |} in
    (forall p renewal,
        cl_Session (w_client w) = None ->
        TGSExchange p renewal w =
          (w, Err (errors_New
             "Error client does not have a session. Client needs to login first")))
    /\ (forall w' tgsReq tgsRep,
        TGSExchange princ false w = (w', Ok (tgsReq, tgsRep)) ->
        GetServiceTicket spn w =
          ({| w_client :=
                set_Cache (w_client w)
                  (AddEntry (cl_Cache (w_client w)) (rep_Ticket tgsRep)
                     (enc_AuthTime (DecryptedEncPart tgsRep))
                     (enc_EndTime (DecryptedEncPart tgsRep))
                     (enc_RenewTill (DecryptedEncPart tgsRep)));
              w_sent := w_sent w' |}, Ok tt))
    /\ (forall w' r,
        GetServiceTicket spn w = (w', r) -> r <> Ok tt ->
        cl_Cache (w_client w') = cl_Cache (w_client w)
        /\ (forall req rep, TGSExchange princ false w <> (w', Ok (req, rep))))
    /\ (forall w',
        GetServiceTicket spn w = (w', Ok tt) ->
        exists session tgsReq b r rep1 tgsRep err,
          cl_Session (w_client w) = Some session
          /\ NewTGSReq (Username (cl_Credentials (w_client w))) (cl_Config (w_client w))
               (TGT session) (SessionKey session) princ false = Ok tgsReq
          /\ TGSReq_Marshal tgsReq = Ok b
          /\ KDC (w_sent w ++ [b]) = Ok r
          /\ TGSRep_Unmarshal zero_KDCRep r = (rep1, None)
          /\ TGSRep_DecryptEncPart rep1 (SessionKey session) = (tgsRep, None)
          /\ TGSRep_IsValid tgsRep (cl_Config (w_client w)) tgsReq = (true, err)
          /\ w_sent w' = w_sent w ++ [b]
          /\ cl_Cache (w_client w') =
               AddEntry (cl_Cache (w_client w)) (rep_Ticket tgsRep)
                 (enc_AuthTime (DecryptedEncPart tgsRep))
                 (enc_EndTime (DecryptedEncPart tgsRep))
                 (enc_RenewTill (DecryptedEncPart tgsRep))).
Proof.
  intros spn w princ. split; [|split; [|split]].
  - intros p renewal Hs. destruct w as [cl sent]. simpl in Hs.
    unfold TGSExchange. run. rewrite Hs. reflexivity.
  - intros w' tgsReq tgsRep H.
    pose proof (TGSExchange_client princ false w) as Hcl. rewrite H in Hcl. simpl in Hcl.
    unfold GetServiceTicket. fold princ. unfold bindM at 1. rewrite H.
    run. rewrite Hcl. reflexivity.
  - intros w' r H Hr.
    pose proof (TGSExchange_client princ false w) as Hcl.
    unfold GetServiceTicket in H. fold princ in H. unfold bindM at 1 in H.
    destruct (TGSExchange princ false w) as [w1 [[req rep]|e|]] eqn:E; simpl in Hcl.
    + revert H. run. intros H. injection H as <- <-. now contradiction Hr.
    + injection H as <- <-. rewrite Hcl. split; [reflexivity|]. intros; discriminate.
    + injection H as <- <-. rewrite Hcl. split; [reflexivity|]. intros; discriminate.
  - intros w' H.
    unfold GetServiceTicket in H. fold princ in H. unfold bindM at 1 in H.
    destruct (TGSExchange princ false w) as [w1 [[req rep]|e|]] eqn:E;
      try discriminate.
    destruct (TGSExchange_Ok _ _ _ _ _ _ E)
      as (session & b & r & rep1 & err & Hs & Hreq & Hb & Hr & H1 & H2 & H3 & Hw1).
    subst w1. revert H. run. intros H. injection H as <-.
    exists session, req, b, r, rep1, rep, err. simpl. repeat split; assumption.
Qed.

End ExchangeProperties.

(** ** The code on concrete inputs *)

Module Runs.
Import Fixture.

Lemma xor_stream_length key : forall m cur,
  List.length (xor_stream key cur m) = List.length m.
Proof.
  induction m as [|b m IH]; intros cur; simpl; [reflexivity|].
  destruct cur as [|kb kr]; [destruct key as [|kb kr]|]; simpl; now rewrite IH.
Qed.

Lemma lxor_below_256 (a b : N) : (a < 256 -> b < 256 -> N.lxor a b < 256)%N.
Proof.
  intros Ha Hb.
  assert (Hlog : forall n, (n < 256 -> N.log2 n < 8)%N).
  { intros n Hn. destruct (N.eq_dec n 0) as [->|Hz]; [reflexivity|].
    apply N.log2_lt_pow2; [lia|exact Hn]. }
  destruct (N.eq_dec (N.lxor a b) 0) as [->|Hz]; [reflexivity|].
  change 256%N with (2 ^ 8)%N. apply N.log2_lt_pow2; [lia|].
  eapply N.le_lt_trans; [apply N.log2_lxor|].
  apply N.max_lub_lt; apply Hlog; assumption.
Qed.

Lemma byte_below_256 (a : byte) : (Byte.to_N a < 256)%N.
Proof. pose proof (Byte.to_N_bounded a). lia. Qed.

Lemma byte_xor_to_N (a b : byte) :
  Byte.to_N (byte_xor a b) = N.lxor (Byte.to_N a) (Byte.to_N b).
Proof.
  unfold byte_xor.
  destruct (Byte.of_N (N.lxor (Byte.to_N a) (Byte.to_N b))) as [c|] eqn:E.
  - now apply Byte.to_of_N.
  - apply Byte.of_N_None_iff in E.
    pose proof (lxor_below_256 _ _ (byte_below_256 a) (byte_below_256 b)). lia.
Qed.

Lemma byte_xor_involutive (a b : byte) : byte_xor (byte_xor a b) b = a.
Proof.
  assert (H : Byte.to_N (byte_xor (byte_xor a b) b) = Byte.to_N a).
  { rewrite !byte_xor_to_N, N.lxor_assoc, N.lxor_nilpotent. apply N.lxor_0_r. }
  pose proof (Byte.of_to_N (byte_xor (byte_xor a b) b)) as H1.
  rewrite H, Byte.of_to_N in H1. now injection H1.
Qed.

Lemma xor_stream_involutive key : forall m cur,
  xor_stream key cur (xor_stream key cur m) = m.
Proof.
  induction m as [|b m IH]; intros cur; simpl; [reflexivity|].
  destruct cur as [|kb kr]; [destruct key as [|kb kr]|]; simpl;
    rewrite ?byte_xor_involutive, IH; reflexivity.
Qed.

(** The stand-in enctype keeps the laws the specification states for an
    enctype: decrypt undoes encrypt and both preserve the length. *)
Lemma enctype_decrypt_encrypt id size k m st c :
  Encrypt (enctype id size) k m = Ok (st, c) ->
  Decrypt (enctype id size) k c = Ok m /\ len c = len m.
Proof.
  simpl. unfold crypt. destruct (len m <? 16) eqn:E; simpl; [discriminate|].
  intros H. injection H as _ <-.
  assert (Hl : len (xor_stream k [] m) = len m)
    by (unfold len; now rewrite xor_stream_length).
  rewrite Hl, E, xor_stream_involutive. split; reflexivity.
Qed.



Lemma stream_decrypt_encrypt k m st c :
  Encrypt stream k m = Ok (st, c) -> Decrypt stream k c = Ok m /\ len c = len m.
Proof.
  simpl. intros H. injection H as _ <-.
  rewrite xor_stream_involutive. split; [reflexivity|].
  unfold len. now rewrite xor_stream_length.
Qed.

Lemma default_salt_is_realm_then_components_witness :
  GetKeyFromPassword (aes := suite) (codec := codec)
    "password" user "EXAMPLE.COM" 17 [] =
    (let! k := wrap "Error deriving key from string: %+v"
                 (StringToKey aes128 "password" "EXAMPLE.COMuser" "00001000") in
     Ok ({| KeyType := 17; KeyValue := k |}, aes128))
  /\ GetSalt user "EXAMPLE.COM" = "EXAMPLE.COMuser"%string.
Proof.
  exact (default_salt_is_realm_then_components (aes := suite) (codec := codec)
           "password" user "EXAMPLE.COM" 17 [] aes128 (s2k_initial aes128)
           eq_refl eq_refl eq_refl).
Defined.

Lemma later_pw_salt_overrides_etype_info2_witness :
  pa_loop (aes := suite) (codec := codec) 17 (s2k_initial aes128)
    [ {| PADataType := 19; PADataValue := x11 :: list_byte_of_string "INFO2SALT" |};
      {| PADataType := 3; PADataValue := list_byte_of_string "PWSALT" |} ]
    = Ok {| st_etype := aes128; st_sk2p := "00001000";
            st_salt := "PWSALT"; st_paID := 0 |}.
Proof.
  exact (proj1 (later_pw_salt_overrides_etype_info2 (aes := suite) (codec := codec)
           "password" user "EXAMPLE.COM" 17 aes128
           (x11 :: list_byte_of_string "INFO2SALT")
           {| ei2_EType := 17; ei2_Salt := "INFO2SALT"; ei2_S2KParams := [] |} []
           "P"%byte (list_byte_of_string "WSALT")
           eq_refl eq_refl eq_refl)).
Defined.

Lemma key_type_stays_requested_after_switch_witness :
  exists k,
    GetKeyFromPassword (aes := suite) (codec := codec) "password" user "EXAMPLE.COM" 17
      [ {| PADataType := 19; PADataValue := x12 :: list_byte_of_string "SALT" |} ]
      = Ok ({| KeyType := 17; KeyValue := k |}, aes256)
    /\ len k = 32
    /\ ~ I1 (aes := suite) {| KeyType := 17; KeyValue := k |}.
Proof.
  eexists.
  pose proof (key_type_stays_requested_after_switch (aes := suite) (codec := codec)
                "password" user "EXAMPLE.COM"
                (x12 :: list_byte_of_string "SALT")
                {| ei2_EType := 18; ei2_Salt := "SALT"; ei2_S2KParams := [] |} []
                _ eq_refl eq_refl eq_refl eq_refl) as H.
  cbv zeta in H.
  assert (Hs : GetKeyByteSize aes256 <> GetKeyByteSize aes128) by (simpl; lia).
  destruct (H Hs) as [H1 H2].
  split; [exact H1|]. split; [reflexivity|exact H2].
Defined.

Lemma GetEncryptedData_keys_witness :
  GetEncryptedData (aes := suite) plaintext key128 0 0 (Ok confounder) =
    sealed_data key128 0
      (seal aes128 (KeyValue key128)
         (map (fun b => byte_xor b x55) (KeyValue key128))
         (confounded aes128 confounder plaintext))
  /\ GetEncryptedData (aes := suite) plaintext key128 3 0 (Ok confounder) =
    sealed_data key128 0
      (seal aes128
         (map (fun b => byte_xor b xa9) (KeyValue key128))
         (map (fun b => byte_xor b x56) (KeyValue key128))
         (confounded aes128 confounder plaintext)).
Proof.
  split.
  - apply (proj1 (GetEncryptedData_keys (aes := suite) plaintext key128 0 0 confounder
                    aes128 eq_refl ltac:(simpl; lia)) eq_refl).
    reflexivity.
  - apply (proj2 (GetEncryptedData_keys (aes := suite) plaintext key128 3 0 confounder
                    aes128 eq_refl ltac:(simpl; lia)) ltac:(lia)); reflexivity.
Defined.

(** With usage 0 the MAC is not keyed with the given key itself. *)
Lemma usage_zero_integrity_key_is_derived :
  GetEncryptedData (aes := suite) plaintext key128 0 0 (Ok confounder) <>
    sealed_data key128 0
      (seal aes128 (KeyValue key128) (KeyValue key128)
         (confounded aes128 confounder plaintext)).
Proof.
  intros H. apply (f_equal (fun r => Cipher (val zero_EncryptedData r))) in H.
  revert H. apply bytes_neq. vm_compute. reflexivity.
Qed.

Lemma seal_then_open_witness :
  GetEncryptedData (aes := suite) plaintext key128 3 0 (Ok confounder) = Ok sealed3
  /\ DecryptEncPart (KeyValue key128) sealed3 aes128 (uint32 3) = Ok plaintext
  /\ DecryptEncPart (KeyValue key128)
       (with_Cipher sealed3 (set_byte 35 x01 (body3 ++ mac3))) aes128 (uint32 3)
     = Err err_integrity
  /\ DecryptEncPart (KeyValue key128)
       (with_Cipher sealed3 (set_byte 2 x00 (body3 ++ mac3))) aes128 (uint32 3)
     = Err err_integrity.
Proof.
  assert (A1 : GetEtype (aes := suite) (KeyType key128) = Ok aes128) by reflexivity.
  assert (A2 : 3 <> 0) by lia.
  assert (A3 : 0 <= GetConfounderByteSize aes128) by (simpl; lia).
  assert (A4 : DeriveKey aes128 (KeyValue key128) (GetUsageKe (uint32 3)) = Ok ke3)
    by (vm_compute; reflexivity).
  assert (A5 : DeriveKey aes128 (KeyValue key128) (GetUsageKi (uint32 3)) = Ok ki3)
    by (vm_compute; reflexivity).
  assert (A6 : Encrypt aes128 ke3 (confounded aes128 confounder plaintext)
               = Ok (state3, body3)) by (vm_compute; reflexivity).
  assert (A7 : Decrypt aes128 ke3 body3 = Ok (confounded aes128 confounder plaintext))
    by (vm_compute; reflexivity).
  assert (A8 : hmac_truncated aes128 ki3 (confounded aes128 confounder plaintext)
               = Ok mac3) by (vm_compute; reflexivity).
  destruct (seal_then_open (aes := suite) plaintext key128 3 0 confounder aes128
              ke3 ki3 state3 body3 mac3 A1 A2 A3 A4 A5 A6 A7 A8)
    as (H1 & H2 & H3 & H4).
  split; [exact H1|]. split; [exact H2|]. split.
  - apply H3; [vm_compute; lia | apply Byte.eqb_false; vm_compute; reflexivity].
  - apply (H4 2%nat x00 opened3' mac3');
      [vm_compute; lia | vm_compute; reflexivity | vm_compute; reflexivity
      | apply bytes_neq; vm_compute; reflexivity].
Defined.

(** What the engine seals with usage 0 does not open with usage 0. *)
Lemma usage_zero_does_not_round_trip :
  bind (GetEncryptedData (aes := suite) plaintext key128 0 0 (Ok confounder))
    (fun ed => DecryptEncPart (KeyValue key128) ed aes128 (uint32 0))
  = Err err_integrity.
Proof. vm_compute. reflexivity. Qed.



Lemma APReq_Unmarshal_checks_msg_type_witness :
  APReq_Unmarshal (codec := codec) (asn1 := asn1)
    {| PVNO := 0; MsgType := 0; APOptions := {| bs_Bytes := []; BitLength := 0 |};
       ap_Ticket := zero_Ticket; Authenticator := zero_EncryptedData |}
    [x05; x0e; "T"%byte] =
    Ok ({| PVNO := 5; MsgType := 14;
           APOptions := {| bs_Bytes := [x00; x00; x00; x00]; BitLength := 32 |};
           ap_Ticket := {| TktVNO := 5; tkt_Realm := "T"; SName := zero_PrincipalName;
                           tkt_EncPart := zero_EncryptedData |};
           Authenticator := zero_EncryptedData |}, None)
  /\ APReq_Unmarshal (codec := codec) (asn1 := asn1)
    {| PVNO := 0; MsgType := 0; APOptions := {| bs_Bytes := []; BitLength := 0 |};
       ap_Ticket := zero_Ticket; Authenticator := zero_EncryptedData |}
    [x05; x0b; "T"%byte] =
    Ok ({| PVNO := 0; MsgType := 0; APOptions := {| bs_Bytes := []; BitLength := 0 |};
           ap_Ticket := zero_Ticket; Authenticator := zero_EncryptedData |},
        Some (errors_New "Message ID does not indicate a KRB_AS_REP")).
Proof.
  split.
  - eapply (proj2 (APReq_Unmarshal_checks_msg_type (codec := codec) (asn1 := asn1)
                     _ [x05; x0e; "T"%byte] _ eq_refl)); reflexivity.
  - eapply (proj1 (APReq_Unmarshal_checks_msg_type (codec := codec) (asn1 := asn1)
                     _ [x05; x0b; "T"%byte] _ eq_refl)). vm_compute. discriminate.
Defined.

Lemma ASExchange_returns_krberror_after_retry_witness :
  snd (ASExchange (aes := suite) (co := collaborators kdc_preauth) world)
    = Err (KRBError_error (krberror 25))
  /\ cl_Session (w_client (fst (ASExchange (aes := suite)
                                  (co := collaborators kdc_preauth) world))) = None
  /\ List.length (w_sent (fst (ASExchange (aes := suite)
                                 (co := collaborators kdc_preauth) world))) = 2%nat.
Proof.
  edestruct (ASExchange_returns_krberror_after_retry (aes := suite)
               (co := collaborators kdc_preauth) world) as [H1 H2];
    [reflexivity | reflexivity | reflexivity | reflexivity | reflexivity
    | reflexivity | reflexivity | reflexivity | reflexivity | reflexivity
    | reflexivity | reflexivity | reflexivity | reflexivity | reflexivity | ].
  rewrite H2, H1. split; [reflexivity|]. split; reflexivity.
Defined.

Lemma preauth_timestamp_sealed_with_usage_zero_witness :
  exists c,
    seal aes128 (KeyValue key128) (map (fun b => byte_xor b x55) (KeyValue key128))
      (confounded aes128 confounder (list_byte_of_string "20161231235959Z")) = Ok c
    /\ w_sent (fst (ASExchange (aes := suite) (co := collaborators kdc_preauth) world))
       = [[x0a]; x0a :: x02 :: c].
Proof.
  eexists.
  edestruct (preauth_timestamp_sealed_with_usage_zero (aes := suite)
               (co := collaborators kdc_preauth) world) as [H1 H2];
    [reflexivity | reflexivity | reflexivity | reflexivity | reflexivity
    | reflexivity | reflexivity | reflexivity | reflexivity | reflexivity
    | reflexivity | reflexivity | simpl; lia | reflexivity | reflexivity
    | reflexivity | reflexivity | ].
  split; [reflexivity|]. rewrite H2. vm_compute. reflexivity.
Defined.

(** The PA-ENC-TIMESTAMP of the retried request is not the one that
    usage 1 gives. *)
Lemma preauth_timestamp_is_not_sealed_with_usage_one :
  match GetEncryptedData (aes := suite) (list_byte_of_string "20161231235959Z")
          key128 keyusage.AS_REQ_PA_ENC_TIMESTAMP 1 (Ok confounder) with
  | Ok ed =>
      nth 1 (w_sent (fst (ASExchange (aes := suite)
                            (co := collaborators kdc_preauth) world))) []
      <> x0a :: x02 :: Cipher ed
  | _ => False
  end.
Proof. vm_compute. apply bytes_neq. vm_compute. reflexivity. Qed.

Lemma GetServiceTicket_cache_witness :
  TGSExchange (co := collaborators kdc_tgs) user false world =
    (world, Err (errors_New
       "Error client does not have a session. Client needs to login first"))
  /\ cl_Cache (w_client (fst (GetServiceTicket (co := collaborators kdc_tgs)
                                "HTTP/www.example.com" logged_in)))
     = [("krbtgt/EXAMPLE.COM"%string,
         {| ce_Ticket := rep_Ticket (reply x0d); ce_AuthTime := 100;
            ce_EndTime := 200; ce_RenewTill := 300 |})]
  /\ cl_Cache (w_client (fst (GetServiceTicket (co := collaborators kdc_unknown)
                                "HTTP/www.example.com" logged_in))) = [].
Proof.
  split; [|split].
  - apply (proj1 (GetServiceTicket_cache (co := collaborators kdc_tgs)
                    "HTTP/www.example.com" world)). reflexivity.
  - erewrite (proj1 (proj2 (GetServiceTicket_cache (co := collaborators kdc_tgs)
                              "HTTP/www.example.com" logged_in)));
      [|reflexivity]. reflexivity.
  - eapply (proj1 (proj2 (proj2 (GetServiceTicket_cache (co := collaborators kdc_unknown)
                                   "HTTP/www.example.com" logged_in))));
      [reflexivity | vm_compute; discriminate].
Defined.

End Runs.

(** * Further properties of the code *)

From Stdlib Require Import Sorting.Permutation Sorting.Sorted.

(** ** Arithmetic of bytes and slices *)

Arguments int_of_byte : simpl never.

Lemma len_repeat {A} (x : A) (n : nat) : len (repeat x n) = Z.of_nat n.
Proof. unfold len. now rewrite repeat_length. Qed.

Lemma len_make (n : Z) : 0 <= n -> len (make n) = n.
Proof. intros H. unfold len. rewrite make_length. lia. Qed.

Lemma len_zero_nil {A} (l : list A) : len l = 0 <-> l = [].
Proof.
  unfold len. destruct l; simpl; split; intros H; try reflexivity; try discriminate; lia.
Qed.

Lemma firstn_len_app {A} (a b : list A) : firstn (List.length a) (a ++ b) = a.
Proof. rewrite firstn_app, firstn_all, Nat.sub_diag. simpl. apply app_nil_r. Qed.

Lemma skipn_len_app {A} (a b : list A) : skipn (List.length a) (a ++ b) = b.
Proof. rewrite skipn_app, skipn_all, Nat.sub_diag. reflexivity. Qed.

Lemma int_of_byte_range (c : byte) : 0 <= int_of_byte c <= 255.
Proof. unfold int_of_byte. pose proof (Byte.to_N_bounded c). lia. Qed.

Lemma int_of_byte_of_Z (z : Z) : int_of_byte (byte_of_Z z) = z mod 256.
Proof.
  unfold int_of_byte, byte_of_Z.
  pose proof (Z.mod_pos_bound z 256 ltac:(lia)) as Hb.
  destruct (Byte.of_N (Z.to_N (z mod 256))) as [c|] eqn:E.
  - apply Byte.to_of_N in E. rewrite E. lia.
  - apply Byte.of_N_None_iff in E. lia.
Qed.

Lemma int_of_byte_inj (a b : byte) : int_of_byte a = int_of_byte b -> a = b.
Proof.
  unfold int_of_byte. intros H. apply N2Z.inj in H.
  pose proof (Byte.of_to_N a) as Ha. rewrite H, Byte.of_to_N in Ha. now injection Ha.
Qed.

Lemma rem_is_mod (a m : Z) : 0 <= a -> 0 < m -> Z.rem a m = a mod m.
Proof. intros. now apply Z.rem_mod_nonneg. Qed.

Lemma pad_to_multiple (a m : Z) : 0 < m -> (a + (m - a mod m)) mod m = 0.
Proof.
  intros Hm. rewrite (Z.div_mod a m) at 1 by lia.
  replace (m * (a / m) + a mod m + (m - a mod m)) with ((a / m + 1) * m) by lia.
  apply Z.mod_mul. lia.
Qed.

(** ** Padding *)

Lemma skipn_repeat_add {A} (x : A) (n k : nat) :
  skipn n (repeat x (n + k)) = repeat x k.
Proof.
  rewrite repeat_app. rewrite <- (repeat_length x n) at 1. apply skipn_len_app.
Qed.

(** [copy] of a source into a longer zeroed buffer. *)
Lemma copy_make_longer (b : bytes) (n : Z) :
  0 <= n -> copy (make (len b + n)) b = b ++ make n.
Proof.
  intros Hn. unfold copy. rewrite make_length.
  rewrite firstn_all2 by (unfold len; lia).
  f_equal. unfold make.
  replace (Z.to_nat (len b + n)) with (List.length b + Z.to_nat n)%nat
    by (unfold len; lia).
  apply skipn_repeat_add.
Qed.

Lemma copy_at_end (b z pad : bytes) :
  List.length pad = List.length z -> copy_at (b ++ z) (len b) pad = b ++ pad.
Proof.
  intros H. unfold copy_at, len. rewrite Nat2Z.id, firstn_len_app, skipn_len_app.
  now rewrite copy_same_length.
Qed.

Lemma pkcs7Pad_value (b : bytes) (m : Z) :
  0 < m -> b <> [] ->
  pkcs7Pad b m =
    Ok (b ++ repeat (byte_of_Z (m - len b mod m)) (Z.to_nat (m - len b mod m))).
Proof.
  intros Hm Hb. unfold pkcs7Pad.
  replace (m <=? 0) with false by (symmetry; apply Z.leb_gt; lia).
  assert (Hl : len b <> 0) by (intros E; now apply len_zero_nil in E).
  apply Z.eqb_neq in Hl. rewrite Hl.
  pose proof (len_nonneg b) as Hlb.
  rewrite rem_is_mod by lia.
  pose proof (Z.mod_pos_bound (len b) m Hm) as Hr.
  set (n := m - len b mod m). assert (Hn : 0 < n <= m) by (unfold n; lia).
  unfold make_checked.
  replace (0 <=? len b + n) with true by (symmetry; apply Z.leb_le; lia).
  simpl. rewrite copy_make_longer by lia.
  replace (len b) with (len (b ++ make n) - len (make n)) at 1
    by (rewrite len_app; lia).
  rewrite slice_from_app. simpl.
  rewrite copy_at_end; [reflexivity|].
  rewrite repeat_length, make_length. reflexivity.
Qed.

(** The check loop of [pkcs7Unpad] never indexes out of range when
    [n <= len b], and it runs to its end exactly when the last [n] bytes are
    [c]. *)
Lemma pkcs7_check_spec (b : bytes) (c : byte) (n : Z) (idxs : list nat) :
  0 <= len b - n ->
  (forall i, In i idxs -> Z.of_nat i < n) ->
  exists ok,
    pkcs7_check b c n idxs = Ok ok
    /\ (ok = true <->
        forall i, In i idxs -> nth (Z.to_nat (len b - n) + i) b x00 = c).
Proof.
  intros Hn. induction idxs as [|i idxs IH]; intros Hin; simpl.
  - exists true. split; [reflexivity|]. split; [contradiction|reflexivity].
  - assert (Hi : Z.of_nat i < n) by (apply Hin; now left).
    unfold index.
    replace (0 <=? len b - n + Z.of_nat i) with true by (symmetry; apply Z.leb_le; lia).
    replace (len b - n + Z.of_nat i <? len b) with true by (symmetry; apply Z.ltb_lt; lia).
    simpl.
    replace (Z.to_nat (len b - n + Z.of_nat i)) with (Z.to_nat (len b - n) + i)%nat by lia.
    destruct (Byte.eqb (nth (Z.to_nat (len b - n) + i) b x00) c) eqn:E; simpl.
    + destruct IH as [ok [Hok Hiff]]; [intros j Hj; apply Hin; now right|].
      exists ok. split; [exact Hok|]. rewrite Hiff. split.
      * intros H j [<-|Hj]; [now apply Byte.byte_dec_bl|now apply H].
      * intros H j Hj. apply H. now right.
    + exists false. split; [reflexivity|]. split; [discriminate|].
      intros H. specialize (H i (or_introl eq_refl)).
      apply Byte.byte_dec_lb in H. congruence.
Qed.

Lemma tail_is_repeat (b : bytes) (c : byte) (k n : nat) :
  (k + n = List.length b)%nat ->
  (forall i, In i (seq 0 n) -> nth (k + i) b x00 = c) ->
  skipn k b = repeat c n.
Proof.
  intros Hlen H. apply (nth_ext _ _ x00 x00).
  - rewrite length_skipn, repeat_length. lia.
  - intros i Hi. rewrite length_skipn in Hi.
    rewrite nth_skipn, nth_repeat_lt by lia. apply H. apply in_seq. lia.
Qed.

(** X1: [pkcs7Pad] is defined exactly for a positive block size and a
    non-empty input; it appends between 1 and [m] bytes, all equal to the
    low eight bits of their number, and the result is a whole number of
    blocks. *)
Theorem pkcs7Pad_appends :
  forall b m,
    (0 < m -> b <> [] ->
       exists n,
         pkcs7Pad b m = Ok (b ++ repeat (byte_of_Z (Z.of_nat n)) n)
         /\ 1 <= Z.of_nat n <= m
         /\ (len b + Z.of_nat n) mod m = 0)
    /\ (m <= 0 \/ b = [] -> exists e, pkcs7Pad b m = Err e).
Proof.
  intros b m. split.
  - intros Hm Hb. pose proof (Z.mod_pos_bound (len b) m Hm) as Hr.
    exists (Z.to_nat (m - len b mod m)). rewrite Z2Nat.id by lia.
    split; [now apply pkcs7Pad_value|]. split; [lia|now apply pad_to_multiple].
  - intros [Hm| ->]; unfold pkcs7Pad.
    + replace (m <=? 0) with true by (symmetry; apply Z.leb_le; lia). eauto.
    + destruct (m <=? 0); simpl; eauto.
Qed.

Lemma pkcs7Unpad_cases (b : bytes) (m : Z) :
  match pkcs7Unpad b m with
  | Ok r => exists n, b = r ++ repeat (byte_of_Z (Z.of_nat n)) n
                      /\ 1 <= Z.of_nat n <= 255
                      /\ len b mod m = 0 /\ 0 < m
  | Err _ => True
  | Panic => False
  end.
Proof.
  unfold pkcs7Unpad.
  destruct (m <=? 0) eqn:Em; [exact I|]. apply Z.leb_gt in Em.
  destruct (len b =? 0) eqn:El; [exact I|].
  apply Z.eqb_neq in El. pose proof (len_nonneg b) as Hlb.
  rewrite rem_is_mod by lia.
  destruct (len b mod m =? 0) eqn:Er; simpl; [|exact I].
  apply Z.eqb_eq in Er.
  unfold index at 1.
  replace (0 <=? len b - 1) with true by (symmetry; apply Z.leb_le; lia).
  replace (len b - 1 <? len b) with true by (symmetry; apply Z.ltb_lt; lia).
  simpl. set (c := nth (Z.to_nat (len b - 1)) b x00).
  pose proof (int_of_byte_range c) as Hc.
  destruct (int_of_byte c =? 0) eqn:E0; simpl; [exact I|].
  apply Z.eqb_neq in E0.
  destruct (int_of_byte c >? len b) eqn:Eg; [exact I|].
  assert (Hn : int_of_byte c <= len b)
    by (rewrite Z.gtb_ltb in Eg; apply Z.ltb_ge in Eg; lia).
  destruct (pkcs7_check_spec b c (int_of_byte c) (seq 0 (Z.to_nat (int_of_byte c))))
    as [ok [Hok Hiff]]; [lia| |].
  { intros i Hi. apply in_seq in Hi. lia. }
  rewrite Hok. simpl. destruct ok; simpl; [|exact I].
  unfold slice_to.
  replace (0 <=? len b - int_of_byte c) with true by (symmetry; apply Z.leb_le; lia).
  replace (len b - int_of_byte c <=? len b) with true by (symmetry; apply Z.leb_le; lia).
  simpl.
  exists (Z.to_nat (int_of_byte c)). rewrite Z2Nat.id by lia.
  split; [|lia].
  replace (byte_of_Z (int_of_byte c)) with c.
  2:{ apply int_of_byte_inj. rewrite int_of_byte_of_Z, Z.mod_small; lia. }
  rewrite <- (tail_is_repeat b c (Z.to_nat (len b - int_of_byte c))).
  - symmetry. apply firstn_skipn.
  - unfold len in *. lia.
  - apply Hiff. reflexivity.
Qed.

(** X2: [pkcs7Unpad] never fails at run time, and when it returns data the
    input was that data followed by a padding of 1 to 255 bytes, each equal
    to the length of the padding. *)
Theorem pkcs7Unpad_result :
  forall b m,
    pkcs7Unpad b m <> Panic
    /\ (forall r, pkcs7Unpad b m = Ok r ->
          exists n, b = r ++ repeat (byte_of_Z (Z.of_nat n)) n
                    /\ 1 <= Z.of_nat n <= 255
                    /\ len b mod m = 0 /\ 0 < m).
Proof.
  intros b m. pose proof (pkcs7Unpad_cases b m) as H.
  destruct (pkcs7Unpad b m) as [r| |]; [|split; [discriminate|intros; discriminate]|contradiction].
  split; [discriminate|]. intros r' E. injection E as <-. exact H.
Qed.

(** Unpadding data followed by [n] bytes of value [n]. *)
Lemma pkcs7Unpad_padded (b : bytes) (m : Z) (n : nat) :
  0 < m -> 1 <= Z.of_nat n <= 255 -> (len b + Z.of_nat n) mod m = 0 ->
  pkcs7Unpad (b ++ repeat (byte_of_Z (Z.of_nat n)) n) m = Ok b.
Proof.
  intros Hm Hn Hmod. unfold pkcs7Unpad.
  set (c := byte_of_Z (Z.of_nat n)). set (p := b ++ repeat c n).
  assert (Hp : len p = len b + Z.of_nat n) by (unfold p; now rewrite len_app, len_repeat).
  pose proof (len_nonneg b) as Hlb.
  assert (Hc : int_of_byte c = Z.of_nat n)
    by (unfold c; rewrite int_of_byte_of_Z, Z.mod_small; lia).
  replace (m <=? 0) with false by (symmetry; apply Z.leb_gt; lia).
  replace (len p =? 0) with false by (symmetry; apply Z.eqb_neq; lia).
  rewrite rem_is_mod, Hp, Hmod by lia. simpl.
  unfold index at 1. rewrite Hp.
  replace (0 <=? len b + Z.of_nat n - 1) with true by (symmetry; apply Z.leb_le; lia).
  replace (len b + Z.of_nat n - 1 <? len b + Z.of_nat n) with true
    by (symmetry; apply Z.ltb_lt; lia).
  simpl.
  assert (Hnth : forall i, (i < n)%nat -> nth (List.length b + i) p x00 = c).
  { intros i Hi. unfold p. rewrite app_nth2 by lia.
    replace (List.length b + i - List.length b)%nat with i by lia.
    now apply nth_repeat_lt. }
  replace (Z.to_nat (len b + Z.of_nat n - 1)) with (List.length b + (n - 1))%nat
    by (unfold len; lia).
  rewrite Hnth by lia. rewrite Hc.
  replace (Z.of_nat n =? 0) with false by (symmetry; apply Z.eqb_neq; lia).
  replace (Z.of_nat n >? len b + Z.of_nat n) with false
    by (symmetry; rewrite Z.gtb_ltb; apply Z.ltb_ge; lia).
  simpl.
  destruct (pkcs7_check_spec p c (Z.of_nat n) (seq 0 (Z.to_nat (Z.of_nat n))))
    as [ok [Hok Hiff]]; [lia| |].
  { intros i Hi. apply in_seq in Hi. lia. }
  rewrite Hok. simpl.
  assert (ok = true) as ->.
  { apply Hiff. intros i Hi. apply in_seq in Hi.
    replace (Z.to_nat (len p - Z.of_nat n)) with (List.length b) by (unfold len in *; lia).
    apply Hnth. lia. }
  simpl. unfold p. replace (Z.of_nat n) with (len (repeat c n)) by apply len_repeat.
  rewrite <- len_app. apply slice_to_app.
Qed.

(** X3: for a block size from 1 to 255 and non-empty data, [pkcs7Unpad]
    undoes [pkcs7Pad]. *)
Theorem pkcs7_round_trip :
  forall b m,
    0 < m <= 255 -> b <> [] ->
    (let! p := pkcs7Pad b m in pkcs7Unpad p m) = Ok b.
Proof.
  intros b m Hm Hb.
  pose proof (Z.mod_pos_bound (len b) m ltac:(lia)) as Hr.
  rewrite pkcs7Pad_value by (lia || assumption). simpl.
  rewrite <- (Z2Nat.id (m - len b mod m)) at 1 by lia.
  apply pkcs7Unpad_padded; rewrite ?Z2Nat.id by lia; try lia.
  apply pad_to_multiple. lia.
Qed.

(** X4: the bound 255 is needed: when the padding would be 256 bytes or
    more, its length does not fit the padding byte and [pkcs7Unpad] does not
    give the data back. *)
Theorem pkcs7_wide_block_no_round_trip :
  forall b m,
    0 < m -> b <> [] -> 256 <= m - len b mod m ->
    (let! p := pkcs7Pad b m in pkcs7Unpad p m) <> Ok b.
Proof.
  intros b m Hm Hb Hwide. rewrite pkcs7Pad_value by assumption. simpl.
  set (n := m - len b mod m) in *. set (c := byte_of_Z n).
  intros H. pose proof (pkcs7Unpad_cases (b ++ repeat c (Z.to_nat n)) m) as Hc.
  rewrite H in Hc. destruct Hc as [n' [Heq [Hn' _]]].
  apply (f_equal (@List.length byte)) in Heq.
  rewrite !length_app, !repeat_length in Heq. lia.
Qed.

(** X5: [zeroPad] is defined exactly for a positive block size and a
    non-empty input; it appends fewer than [m] zero bytes, as many as bring
    the length to a whole number of blocks, and none when it already is. *)
Theorem zeroPad_appends :
  forall b m,
    (0 < m -> b <> [] ->
       exists z,
         zeroPad b m = Ok (b ++ repeat x00 z)
         /\ Z.of_nat z < m
         /\ (len b + Z.of_nat z) mod m = 0
         /\ (len b mod m = 0 -> z = 0%nat))
    /\ (m <= 0 \/ b = [] -> exists e, zeroPad b m = Err e).
Proof.
  intros b m. split.
  - intros Hm Hb. unfold zeroPad.
    replace (m <=? 0) with false by (symmetry; apply Z.leb_gt; lia).
    assert (Hl : len b <> 0) by (intros E; now apply len_zero_nil in E).
    apply Z.eqb_neq in Hl. rewrite Hl.
    pose proof (len_nonneg b) as Hlb. rewrite rem_is_mod by lia.
    pose proof (Z.mod_pos_bound (len b) m Hm) as Hr.
    destruct (len b mod m =? 0) eqn:E; simpl.
    + apply Z.eqb_eq in E. exists 0%nat. simpl. rewrite app_nil_r, Z.add_0_r.
      repeat split; auto; lia.
    + apply Z.eqb_neq in E. exists (Z.to_nat (m - len b mod m)).
      rewrite Z2Nat.id by lia. repeat split; try lia.
      apply pad_to_multiple. lia.
  - intros [Hm| ->]; unfold zeroPad.
    + replace (m <=? 0) with true by (symmetry; apply Z.leb_le; lia). eauto.
    + destruct (m <=? 0); simpl; eauto.
Qed.

(** X6: padding twice is padding once. *)
Theorem zeroPad_idempotent :
  forall b m p, zeroPad b m = Ok p -> zeroPad p m = Ok p.
Proof.
  intros b m p. unfold zeroPad.
  destruct (m <=? 0) eqn:Em; [discriminate|]. apply Z.leb_gt in Em.
  destruct (len b =? 0) eqn:El; [discriminate|]. apply Z.eqb_neq in El.
  pose proof (len_nonneg b) as Hlb. rewrite rem_is_mod by lia.
  pose proof (Z.mod_pos_bound (len b) m Em) as Hr.
  assert (Hdone : forall q, len q <> 0 -> len q mod m = 0 ->
            (if len q =? 0 then Err (errors_New "Data not valid to pad: Zero size")
             else if negb (Z.rem (len q) m =? 0)
                  then Ok (q ++ make (m - Z.rem (len q) m)) else Ok q) = Ok q).
  { intros q Hq Hmod. apply Z.eqb_neq in Hq. rewrite Hq.
    rewrite rem_is_mod by (pose proof (len_nonneg q); lia).
    rewrite Hmod. reflexivity. }
  destruct (len b mod m =? 0) eqn:E; simpl; intros H; injection H as <-.
  - apply Z.eqb_eq in E. now apply Hdone.
  - apply Z.eqb_neq in E. apply Hdone.
    + rewrite len_app. pose proof (len_nonneg (make (m - len b mod m))). lia.
    + rewrite len_app, len_make by lia. apply pad_to_multiple. lia.
Qed.

(** ** Usage constants *)

Lemma usage_number_getUsage (un : Z) (o : byte) :
  0 <= un < 2 ^ 32 -> usage_number (getUsage un o) = un.
Proof.
  intros Hun. unfold usage_number, getUsage. cbn [app firstn fold_left].
  rewrite !int_of_byte_of_Z.
  change (2 ^ 24) with (256 * 256 * 256). change (2 ^ 16) with (256 * 256).
  change (2 ^ 8) with 256. change (2 ^ 32) with (256 * 256 * 256 * 256) in Hun.
  rewrite <- !Z.div_div by lia.
  pose proof (Z.div_mod un 256 ltac:(lia)) as H1.
  pose proof (Z.div_mod (un / 256) 256 ltac:(lia)) as H2.
  pose proof (Z.div_mod (un / 256 / 256) 256 ltac:(lia)) as H3.
  pose proof (Z.mod_pos_bound un 256 ltac:(lia)).
  pose proof (Z.mod_pos_bound (un / 256) 256 ltac:(lia)).
  pose proof (Z.mod_pos_bound (un / 256 / 256) 256 ltac:(lia)).
  assert (Hq : 0 <= un / 256 / 256 / 256 < 256).
  { split; [repeat apply Z.div_pos; lia|].
    repeat (apply Z.div_lt_upper_bound; [lia|]). lia. }
  rewrite (Z.mod_small (un / 256 / 256 / 256)) by lia. lia.
Qed.

(** X7: a usage constant has five bytes: the usage number, read back from
    the first four as a big-endian integer, and the tag; so the constants of
    different numbers differ, and those for Kc, Ke and Ki differ whatever the
    numbers. *)
Theorem usage_constants :
  forall un un' o o',
    0 <= un < 2 ^ 32 -> 0 <= un' < 2 ^ 32 ->
    len (getUsage un o) = 5
    /\ usage_number (getUsage un o) = un
    /\ nth 4 (getUsage un o) x00 = o
    /\ (getUsage un o = getUsage un' o' -> un = un' /\ o = o')
    /\ GetUsageKc un <> GetUsageKe un'
    /\ GetUsageKe un <> GetUsageKi un'
    /\ GetUsageKc un <> GetUsageKi un'.
Proof.
  intros un un' o o' Hun Hun'.
  assert (Htag : forall a t a' t', getUsage a t = getUsage a' t' -> t = t').
  { intros a t a' t' E. apply (f_equal (fun l => nth 4 l x00)) in E. exact E. }
  split; [reflexivity|]. split; [now apply usage_number_getUsage|].
  split; [reflexivity|]. split; [|split; [|split]].
  - intros E. split; [|now apply Htag in E].
    rewrite <- (usage_number_getUsage un o), <- (usage_number_getUsage un' o') by assumption.
    now rewrite E.
  - intros E. apply Htag in E. apply (f_equal int_of_byte) in E. vm_compute in E. discriminate.
  - intros E. apply Htag in E. apply (f_equal int_of_byte) in E. vm_compute in E. discriminate.
  - intros E. apply Htag in E. apply (f_equal int_of_byte) in E. vm_compute in E. discriminate.
Qed.

(** ** Checksums and integrity *)

Lemma slice_split (b : bytes) (k : Z) (body tail : bytes) :
  slice_to b k = Ok body -> slice_from b k = Ok tail ->
  b = body ++ tail /\ len tail = len b - k.
Proof.
  unfold slice_to, slice_from.
  destruct ((0 <=? k) && (k <=? len b)) eqn:E; try discriminate.
  apply andb_true_iff in E. destruct E as [E0 E1].
  apply Z.leb_le in E0, E1.
  intros H1 H2. injection H1 as <-. injection H2 as <-.
  split; [symmetry; apply firstn_skipn|].
  unfold len in *. rewrite length_skipn. lia.
Qed.

Lemma hmac_truncated_length (et : EType) (k pt mac : bytes) :
  hmac_truncated et k pt = Ok mac -> len mac = Z.quot (GetHMACBitLength et) 8.
Proof. intros H. now apply slice_to_Ok in H. Qed.

(** [VerifyIntegrity] on a text ending in a tail as long as the HMAC
    truncation: the tail is compared with the expected MAC, nil when the hash
    could not be computed. *)
Lemma VerifyIntegrity_body_tail (key body tail pt : bytes) (usage : Z) (et : EType) :
  len tail = Z.quot (GetHMACBitLength et) 8 ->
  VerifyIntegrity key (body ++ tail) pt usage et =
    (let! expectedMAC := drop_error (GetIntegrityHash pt key usage et) in
     Ok (hmac_Equal tail expectedMAC)).
Proof.
  intros Hlen. unfold VerifyIntegrity. rewrite <- Hlen. unfold make_checked.
  replace (0 <=? len tail) with true by (symmetry; apply Z.leb_le; apply len_nonneg).
  simpl. rewrite slice_from_app. simpl. rewrite copy_make_same. reflexivity.
Qed.

(** X8: [VerifyChecksum] accepts the checksum that [GetChecksumHash]
    computes for the same message, key and usage, and no other; that checksum
    has the length of the HMAC truncation. *)
Theorem VerifyChecksum_accepts_exactly :
  forall key chksum msg usage et mac,
    GetChecksumHash msg key usage et = Ok mac ->
    len mac = Z.quot (GetHMACBitLength et) 8
    /\ VerifyChecksum key mac msg usage et = Ok true
    /\ (chksum <> mac -> VerifyChecksum key chksum msg usage et = Ok false).
Proof.
  intros key chksum msg usage et mac H. split; [|split].
  - unfold GetChecksumHash, getHash in H.
    destruct (DeriveKey et key (GetUsageKc usage)); simpl in H; try discriminate.
    now apply hmac_truncated_length in H.
  - unfold VerifyChecksum. rewrite H. simpl. unfold hmac_Equal.
    now replace (bytes_eqb mac mac) with true by (symmetry; now apply bytes_eqb_eq).
  - intros Hne. unfold VerifyChecksum. rewrite H. simpl. unfold hmac_Equal.
    now rewrite bytes_eqb_neq.
Qed.

(** X9: the error of the hash is dropped in [VerifyChecksum]: when the key
    derivation fails, the expected MAC is nil, so the empty checksum is
    accepted and every other one refused. *)
Theorem VerifyChecksum_when_derivation_fails :
  forall key chksum msg usage et e,
    DeriveKey et key (GetUsageKc usage) = Err e ->
    VerifyChecksum key [] msg usage et = Ok true
    /\ (chksum <> [] -> VerifyChecksum key chksum msg usage et = Ok false).
Proof.
  intros key chksum msg usage et e H.
  unfold VerifyChecksum, GetChecksumHash, getHash. rewrite H. simpl.
  split; [reflexivity|]. intros Hne. unfold hmac_Equal. now rewrite bytes_eqb_neq.
Qed.

(** X10: [VerifyIntegrity] reads nothing of the ciphertext but its last
    bytes, as many as the HMAC truncation: it fails at run time on a shorter
    text, accepts when they are the integrity hash of the plaintext, refuses
    when they are not, and refuses when the hash cannot be computed. *)
Theorem VerifyIntegrity_reads_the_tail :
  forall key body tail pt usage et,
    let n := Z.quot (GetHMACBitLength et) 8 in
    (forall ct, 0 <= n -> len ct < n -> VerifyIntegrity key ct pt usage et = Panic)
    /\ (len tail = n ->
        forall mac, GetIntegrityHash pt key usage et = Ok mac ->
          (tail = mac -> VerifyIntegrity key (body ++ tail) pt usage et = Ok true)
          /\ (tail <> mac -> VerifyIntegrity key (body ++ tail) pt usage et = Ok false))
    /\ (len tail = n -> 0 < n ->
        forall e, GetIntegrityHash pt key usage et = Err e ->
          VerifyIntegrity key (body ++ tail) pt usage et = Ok false).
Proof.
  intros key body tail pt usage et n. split; [|split].
  - intros ct Hn Hct. unfold VerifyIntegrity. fold n. unfold make_checked.
    replace (0 <=? n) with true by (symmetry; now apply Z.leb_le). simpl.
    destruct (slice_out_of_range ct (len ct - n)) as [_ ->]; [lia|reflexivity].
  - intros Hlen mac Hmac. rewrite VerifyIntegrity_body_tail by exact Hlen.
    rewrite Hmac. simpl. unfold hmac_Equal. split.
    + intros ->. now replace (bytes_eqb mac mac) with true
        by (symmetry; now apply bytes_eqb_eq).
    + intros Hne. now rewrite bytes_eqb_neq.
  - intros Hlen Hn e He. rewrite VerifyIntegrity_body_tail by exact Hlen.
    rewrite He. simpl. unfold hmac_Equal. rewrite bytes_eqb_neq; [reflexivity|].
    intros ->. unfold len in Hlen. simpl in Hlen. lia.
Qed.

(** X11: [DecryptEncPart] returns a plaintext only for a cipher whose last
    bytes are the integrity hash of the decrypted body: the cipher splits
    into a body and a tail of the HMAC truncation, the body decrypts under
    the derived Ke, the tail is the truncated HMAC under Ki of what it
    decrypts to, and the plaintext is that text without its confounder. *)
Theorem DecryptEncPart_authentic :
  forall key pe et usage p,
    0 < Z.quot (GetHMACBitLength et) 8 ->
    DecryptEncPart key pe et usage = Ok p ->
    exists k body tail b,
      Cipher pe = body ++ tail
      /\ len tail = Z.quot (GetHMACBitLength et) 8
      /\ DeriveKey et key (GetUsageKe usage) = Ok k
      /\ Decrypt et k body = Ok b
      /\ GetIntegrityHash b key usage et = Ok tail
      /\ b = firstn (Z.to_nat (GetConfounderByteSize et)) b ++ p
      /\ len p = len b - GetConfounderByteSize et.
Proof.
  intros key pe et usage p Hn. unfold DecryptEncPart.
  set (n := Z.quot (GetHMACBitLength et) 8) in *.
  destruct (DeriveKey et key (GetUsageKe usage)) as [k| |]; simpl; try discriminate.
  destruct (slice_to (Cipher pe) (len (Cipher pe) - n)) as [body| |] eqn:Eb;
    simpl; try discriminate.
  destruct (Decrypt et k body) as [b| |] eqn:Ed; simpl; try discriminate.
  unfold EType_VerifyIntegrity, VerifyIntegrity. fold n. unfold make_checked.
  replace (0 <=? n) with true by (symmetry; apply Z.leb_le; lia). simpl.
  destruct (slice_from (Cipher pe) (len (Cipher pe) - n)) as [tail| |] eqn:Et;
    simpl; try discriminate.
  destruct (slice_split _ _ _ _ Eb Et) as [Hsplit Hlen].
  assert (Hl : len tail = n) by lia.
  replace (copy (make n) tail) with tail by (rewrite <- Hl; now rewrite copy_make_same).
  destruct (GetIntegrityHash b key usage et) as [mac|e|] eqn:Eh; simpl; try discriminate.
  - unfold hmac_Equal. destruct (bytes_eqb tail mac) eqn:Eq; simpl; try discriminate.
    apply bytes_eqb_eq in Eq. subst mac. intros Hp.
    exists k, body, tail, b. repeat split; try assumption.
    + assert (Hs : slice_to b (GetConfounderByteSize et)
                   = Ok (firstn (Z.to_nat (GetConfounderByteSize et)) b)).
      { unfold slice_to. unfold slice_from in Hp.
        destruct ((0 <=? GetConfounderByteSize et) && (GetConfounderByteSize et <=? len b));
          [reflexivity|discriminate]. }
      now apply (slice_split _ _ _ _ Hs Hp).
    + unfold slice_from in Hp.
      destruct ((0 <=? GetConfounderByteSize et) && (GetConfounderByteSize et <=? len b)) eqn:E;
        [|discriminate].
      apply andb_true_iff in E. destruct E as [E0 E1]. apply Z.leb_le in E0, E1.
      injection Hp as <-. unfold len in *. rewrite length_skipn. lia.
  - unfold hmac_Equal. rewrite bytes_eqb_neq; [discriminate|].
    intros ->. unfold len in Hl. simpl in Hl. lia.
Qed.

Section EngineFurther.
Context {aes : AesSuite}.

(** X12: the error of the integrity hash is dropped in [GetEncryptedData]:
    when the derivation of Ki fails (and the one of Ke did not), the call
    still succeeds and the cipher is the bare ciphertext, without MAC. *)
Theorem GetEncryptedData_without_mac :
  forall pt key usage kvno r et k st C e,
    GetEtype (KeyType key) = Ok et ->
    0 <= GetConfounderByteSize et ->
    (if negb (usage =? 0)
     then DeriveKey et (KeyValue key) (GetUsageKe (uint32 usage))
     else Ok (KeyValue key)) = Ok k ->
    Encrypt et k (confounded et r pt) = Ok (st, C) ->
    DeriveKey et (KeyValue key) (GetUsageKi (uint32 usage)) = Err e ->
    GetEncryptedData pt key usage kvno (Ok r) =
      Ok {| ed_EType := KeyType key; KVNO := kvno; Cipher := C |}.
Proof.
  intros pt key usage kvno r et k st C e Het Hc Hk Henc Hki.
  unfold GetEncryptedData. rewrite Het. simpl.
  replace (if negb (usage =? 0)
           then wrap "Error deriving key: %v"
                  (DeriveKey et (KeyValue key) (GetUsageKe (uint32 usage)))
           else Ok (KeyValue key)) with (@Ok bytes k).
  2:{ destruct (negb (usage =? 0)); [rewrite Hk|]; simpl; congruence. }
  simpl. unfold make_checked.
  replace (0 <=? GetConfounderByteSize et) with true by (symmetry; now apply Z.leb_le).
  simpl. fold (confounded et r pt). rewrite Henc. simpl.
  unfold GetIntegrityHash, getHash. rewrite Hki. simpl. now rewrite app_nil_r.
Qed.

(** X13: whatever [GetEncryptedData] returns carries the enctype id of the
    key and the kvno given; its cipher is the encryption of exactly one
    confounder's worth of bytes from the random source followed by the
    plaintext, followed by a MAC of the HMAC truncation or by nothing. *)
Theorem GetEncryptedData_shape :
  forall pt key usage kvno rnd ed,
    GetEncryptedData pt key usage kvno rnd = Ok ed ->
    ed_EType ed = KeyType key
    /\ KVNO ed = kvno
    /\ exists et r k st C ih,
         GetEtype (KeyType key) = Ok et
         /\ rnd = Ok r
         /\ (k = KeyValue key /\ usage = 0
             \/ DeriveKey et (KeyValue key) (GetUsageKe (uint32 usage)) = Ok k /\ usage <> 0)
         /\ len (confounded et r pt) = GetConfounderByteSize et + len pt
         /\ Encrypt et k (confounded et r pt) = Ok (st, C)
         /\ Cipher ed = C ++ ih
         /\ (ih = [] \/ len ih = Z.quot (GetHMACBitLength et) 8).
Proof.
  intros pt key usage kvno rnd ed. unfold GetEncryptedData.
  destruct (GetEtype (KeyType key)) as [et| |] eqn:Het; simpl; try discriminate.
  destruct (usage =? 0) eqn:Eu; simpl.
  - apply Z.eqb_eq in Eu.
    unfold make_checked.
    destruct (0 <=? GetConfounderByteSize et) eqn:Ec; simpl; try discriminate.
    apply Z.leb_le in Ec.
    destruct rnd as [r| |]; simpl; try discriminate.
    fold (confounded et r pt).
    destruct (Encrypt et (KeyValue key) (confounded et r pt)) as [[st C]| |] eqn:Ee;
      simpl; try discriminate.
    destruct (GetIntegrityHash (confounded et r pt) (KeyValue key) (uint32 usage) et)
      as [ih|e|] eqn:Eh; simpl; try discriminate; intros H; injection H as <-; simpl;
      (split; [reflexivity|]; split; [reflexivity|]).
    + exists et, r, (KeyValue key), st, C, ih. repeat split; auto.
      * unfold confounded. rewrite len_app. unfold len at 1.
        rewrite copy_length, make_length. lia.
      * right. unfold GetIntegrityHash, getHash in Eh.
        destruct (DeriveKey et (KeyValue key) (GetUsageKi (uint32 usage)));
          simpl in Eh; try discriminate.
        now apply hmac_truncated_length in Eh.
    + exists et, r, (KeyValue key), st, C, []. repeat split; auto.
      unfold confounded. rewrite len_app. unfold len at 1.
      rewrite copy_length, make_length. lia.
  - apply Z.eqb_neq in Eu.
    destruct (DeriveKey et (KeyValue key) (GetUsageKe (uint32 usage))) as [k| |] eqn:Ek;
      simpl; try discriminate.
    unfold make_checked.
    destruct (0 <=? GetConfounderByteSize et) eqn:Ec; simpl; try discriminate.
    apply Z.leb_le in Ec.
    destruct rnd as [r| |]; simpl; try discriminate.
    fold (confounded et r pt).
    destruct (Encrypt et k (confounded et r pt)) as [[st C]| |] eqn:Ee;
      simpl; try discriminate.
    destruct (GetIntegrityHash (confounded et r pt) (KeyValue key) (uint32 usage) et)
      as [ih|e|] eqn:Eh; simpl; try discriminate; intros H; injection H as <-; simpl;
      (split; [reflexivity|]; split; [reflexivity|]).
    + exists et, r, k, st, C, ih. repeat split; auto.
      * unfold confounded. rewrite len_app. unfold len at 1.
        rewrite copy_length, make_length. lia.
      * right. unfold GetIntegrityHash, getHash in Eh.
        destruct (DeriveKey et (KeyValue key) (GetUsageKi (uint32 usage)));
          simpl in Eh; try discriminate.
        now apply hmac_truncated_length in Eh.
    + exists et, r, k, st, C, []. repeat split; auto.
      unfold confounded. rewrite len_app. unfold len at 1.
      rewrite copy_length, make_length. lia.
Qed.

End EngineFurther.

(** ** Key from password, further *)

Section KeyFromPasswordFurther.
Context {aes : AesSuite} {codec : TypesCodec}.

Lemma pa_step_unrecognised etypeId st pa :
  recognised_PA pa = false -> pa_step etypeId st pa = Ok st.
Proof.
  unfold recognised_PA, pa_step. intros H.
  apply orb_false_iff in H. destruct H as [H H3].
  apply orb_false_iff in H. destruct H as [H1 H2].
  now rewrite H1, H2, H3.
Qed.

Lemma pa_loop_filter etypeId pas : forall st,
  pa_loop etypeId st pas = pa_loop etypeId st (filter recognised_PA pas).
Proof.
  induction pas as [|pa pas IH]; intros st; simpl; [reflexivity|].
  destruct (recognised_PA pa) eqn:E; simpl.
  - destruct (pa_step etypeId st pa); simpl; auto.
  - rewrite pa_step_unrecognised by exact E. simpl. apply IH.
Qed.

Lemma pa_loop_app etypeId pre post : forall st,
  pa_loop etypeId st (pre ++ post) =
    (let! st' := pa_loop etypeId st pre in pa_loop etypeId st' post).
Proof.
  induction pre as [|pa pre IH]; intros st; simpl; [reflexivity|].
  destruct (pa_step etypeId st pa); simpl; auto.
Qed.

(** X14: PA-DATA of a type other than PA-PW-SALT, PA-ETYPE-INFO and
    PA-ETYPE-INFO2 has no effect on [GetKeyFromPassword], wherever it stands
    in the sequence and whatever it holds. *)
Theorem GetKeyFromPassword_ignores_other_padata :
  forall passwd cn realm etypeId pas,
    GetKeyFromPassword passwd cn realm etypeId pas =
    GetKeyFromPassword passwd cn realm etypeId (filter recognised_PA pas).
Proof.
  intros. unfold GetKeyFromPassword.
  destruct (GetEtype etypeId); simpl; try reflexivity.
  now rewrite <- pa_loop_filter.
Qed.

(** X15: a PA-ETYPE-INFO or PA-ETYPE-INFO2 value that decodes to an empty
    sequence stops [GetKeyFromPassword] with a run-time failure (the entry at
    index 0 is read without a test of the length), whatever follows it. *)
Theorem GetKeyFromPassword_empty_etype_info :
  forall passwd cn realm etypeId et pre st v post,
    GetEtype etypeId = Ok et ->
    pa_loop etypeId (s2k_initial et) pre = Ok st ->
    (ETypeInfo_Unmarshal v = Ok [] ->
       GetKeyFromPassword passwd cn realm etypeId
         (pre ++ {| PADataType := patype.PA_ETYPE_INFO; PADataValue := v |} :: post) = Panic)
    /\ (ETypeInfo2_Unmarshal v = Ok [] ->
       GetKeyFromPassword passwd cn realm etypeId
         (pre ++ {| PADataType := patype.PA_ETYPE_INFO2; PADataValue := v |} :: post) = Panic).
Proof.
  intros passwd cn realm etypeId et pre st v post Het Hpre.
  pose proof (pa_loop_paID _ _ _ _ Hpre) as HpaID. simpl in HpaID.
  split; intros Hv; unfold GetKeyFromPassword; rewrite Het; simpl;
    rewrite pa_loop_app, Hpre; simpl; unfold pa_step; simpl;
    rewrite HpaID, Hv; reflexivity.
Qed.

Lemma switch_etype_registry etypeId cur id et' :
  (cur = Aes128CtsHmacSha96 \/ cur = Aes256CtsHmacSha96) ->
  switch_etype etypeId cur id = Ok et' ->
  et' = Aes128CtsHmacSha96 \/ et' = Aes256CtsHmacSha96.
Proof.
  intros Hcur. unfold switch_etype, GetEtype.
  destruct (negb (etypeId =? id)); [|intros H; injection H as <-; exact Hcur].
  destruct (id =? etype.AES128_CTS_HMAC_SHA1_96);
    [intros H; injection H as <-; now left|].
  destruct (id =? etype.AES256_CTS_HMAC_SHA1_96);
    [intros H; injection H as <-; now right|discriminate].
Qed.

Lemma pa_step_registry etypeId st pa st' :
  (st_etype st = Aes128CtsHmacSha96 \/ st_etype st = Aes256CtsHmacSha96) ->
  pa_step etypeId st pa = Ok st' ->
  st_etype st' = Aes128CtsHmacSha96 \/ st_etype st' = Aes256CtsHmacSha96.
Proof.
  intros Hst. unfold pa_step.
  destruct (PADataType pa =? patype.PA_PW_SALT).
  { destruct (st_paID st >? PADataType pa); intros H; injection H as <-; exact Hst. }
  destruct (PADataType pa =? patype.PA_ETYPE_INFO).
  { destruct (st_paID st >? PADataType pa); [intros H; injection H as <-; exact Hst|].
    destruct (ETypeInfo_Unmarshal (PADataValue pa)) as [[|e0 l]| |]; simpl; try discriminate.
    destruct (switch_etype etypeId (st_etype st) (ei_EType e0)) eqn:E; simpl; try discriminate.
    intros H; injection H as <-. simpl. eapply switch_etype_registry; eassumption. }
  destruct (PADataType pa =? patype.PA_ETYPE_INFO2).
  { destruct (st_paID st >? PADataType pa); [intros H; injection H as <-; exact Hst|].
    destruct (ETypeInfo2_Unmarshal (PADataValue pa)) as [[|e0 l]| |]; simpl; try discriminate.
    destruct (switch_etype etypeId (st_etype st) (ei2_EType e0)) eqn:E; simpl; try discriminate.
    intros H; injection H as <-. simpl. eapply switch_etype_registry; eassumption. }
  intros H; injection H as <-; exact Hst.
Qed.

Lemma pa_loop_registry etypeId pas : forall st st',
  (st_etype st = Aes128CtsHmacSha96 \/ st_etype st = Aes256CtsHmacSha96) ->
  pa_loop etypeId st pas = Ok st' ->
  st_etype st' = Aes128CtsHmacSha96 \/ st_etype st' = Aes256CtsHmacSha96.
Proof.
  induction pas as [|pa pas IH]; intros st st' Hst H; simpl in H.
  - injection H as <-. exact Hst.
  - destruct (pa_step etypeId st pa) as [st1| |] eqn:E; simpl in H; try discriminate.
    eapply IH; [|exact H]. eapply pa_step_registry; eassumption.
Qed.

(** X16: a successful [GetKeyFromPassword] was asked for enctype 17 or 18;
    the key it returns carries the requested id; the enctype it returns is
    one of the two of the registry, and the key value is what the
    string-to-key of that enctype gives for the password, with a salt that
    is the default salt or a non-empty one from the PA-DATA. *)
Theorem GetKeyFromPassword_result :
  forall passwd cn realm etypeId pas key et',
    GetKeyFromPassword passwd cn realm etypeId pas = Ok (key, et') ->
    KeyType key = etypeId
    /\ (etypeId = etype.AES128_CTS_HMAC_SHA1_96 \/ etypeId = etype.AES256_CTS_HMAC_SHA1_96)
    /\ (et' = Aes128CtsHmacSha96 \/ et' = Aes256CtsHmacSha96)
    /\ exists salt sk2p,
         StringToKey et' passwd salt sk2p = Ok (KeyValue key)
         /\ (salt = GetSalt cn realm \/ salt <> EmptyString).
Proof.
  intros passwd cn realm etypeId pas key et'. unfold GetKeyFromPassword.
  destruct (GetEtype etypeId) as [et| |] eqn:Het; simpl; try discriminate.
  assert (Hid : etypeId = etype.AES128_CTS_HMAC_SHA1_96
                \/ etypeId = etype.AES256_CTS_HMAC_SHA1_96).
  { unfold GetEtype in Het.
    destruct (etypeId =? etype.AES128_CTS_HMAC_SHA1_96) eqn:E1;
      [left; now apply Z.eqb_eq|].
    destruct (etypeId =? etype.AES256_CTS_HMAC_SHA1_96) eqn:E2;
      [right; now apply Z.eqb_eq|discriminate]. }
  assert (Het0 : et = Aes128CtsHmacSha96 \/ et = Aes256CtsHmacSha96).
  { unfold GetEtype in Het.
    destruct (etypeId =? etype.AES128_CTS_HMAC_SHA1_96);
      [injection Het as <-; now left|].
    destruct (etypeId =? etype.AES256_CTS_HMAC_SHA1_96);
      [injection Het as <-; now right|discriminate]. }
  destruct (pa_loop etypeId (s2k_initial et) pas) as [st| |] eqn:Hloop; simpl; try discriminate.
  pose proof (pa_loop_registry etypeId pas (s2k_initial et) st Het0 Hloop) as Hreg.
  destruct (StringToKey (st_etype st) passwd
              (if String.eqb (st_salt st) EmptyString then GetSalt cn realm else st_salt st)
              (st_sk2p st)) as [k| |] eqn:Hk; simpl; try discriminate.
  intros H. injection H as <- <-. simpl.
  split; [reflexivity|]. split; [exact Hid|]. split; [exact Hreg|].
  eexists _, _. split; [exact Hk|].
  destruct (String.eqb (st_salt st) EmptyString) eqn:E; [now left|right].
  now apply String.eqb_neq in E.
Qed.

End KeyFromPasswordFurther.

(** X17: the salt is the realm followed by the components: components can
    be moved into the realm, and neither the name type nor the boundaries
    between components enter it. *)
Theorem GetSalt_boundaries :
  forall t t' ns1 ns2 realm,
    GetSalt {| NameType := t; NameString := ns1 ++ ns2 |} realm =
      GetSalt {| NameType := t'; NameString := ns2 |}
        (GetSalt {| NameType := t; NameString := ns1 |} realm)
    /\ (forall pn pn',
          String.concat EmptyString (NameString pn)
            = String.concat EmptyString (NameString pn') ->
          GetSalt pn realm = GetSalt pn' realm).
Proof.
  intros t t' ns1 ns2 realm. split.
  - unfold GetSalt. simpl. apply fold_left_app.
  - intros pn pn' H. now rewrite !GetSalt_concat, H.
Qed.

(** ** AP-REQ, further *)

Section APReqFurther.
Context {aes : AesSuite} {codec : TypesCodec} {asn1 : Asn1} {deps : APReqDeps}.

(** X18: [NewAPReq] returns an AP-REQ with pvno 5, msg-type 14, the flags
    of [NewKrbFlags] and the ticket given; its authenticator is sealed under
    the session key with key usage 7 and kvno 0, so that [DecryptEncPart]
    with usage 7 gives back the marshalled authenticator (where the
    derivations and the encryption succeed and decrypt undoes encrypt). *)
Theorem NewAPReq_authenticator_opens :
  forall TGT sessionKey auth r m et ke ki st C mac,
    Authenticator_Marshal auth = Ok m ->
    GetEtype (KeyType sessionKey) = Ok et ->
    0 <= GetConfounderByteSize et ->
    DeriveKey et (KeyValue sessionKey) (GetUsageKe 7) = Ok ke ->
    DeriveKey et (KeyValue sessionKey) (GetUsageKi 7) = Ok ki ->
    Encrypt et ke (confounded et r m) = Ok (st, C) ->
    Decrypt et ke C = Ok (confounded et r m) ->
    hmac_truncated et ki (confounded et r m) = Ok mac ->
    let ed := {| ed_EType := KeyType sessionKey; KVNO := 0; Cipher := C ++ mac |} in
    NewAPReq TGT sessionKey auth (Ok r) =
      Ok {| PVNO := 5; MsgType := 14; APOptions := NewKrbFlags;
            ap_Ticket := TGT; Authenticator := ed |}
    /\ DecryptEncPart (KeyValue sessionKey) ed et 7 = Ok m.
Proof.
  intros TGT sessionKey auth r m et ke ki st C mac
    Hm Het Hc Hke Hki Henc Hdec Hmac ed.
  pose proof (hmac_truncated_length _ _ _ _ Hmac) as Hlen.
  split.
  - unfold NewAPReq, encryptAuthenticator. rewrite Hm. simpl.
    rewrite (GetEncryptedData_seal m sessionKey
               keyusage.TGS_REQ_PA_TGS_REQ_AP_REQ_AUTHENTICATOR 0 r et ke ki Het Hc Hke Hki).
    unfold sealed_data, seal. rewrite Henc. simpl. rewrite Hmac. reflexivity.
  - unfold ed.
    rewrite (DecryptEncPart_body_tail et _ 7 ke ki C mac _ mac _ _ Hke Hki Hlen Hdec Hmac).
    replace (bytes_eqb mac mac) with true by (symmetry; now apply bytes_eqb_eq).
    now apply slice_from_confounded.
Qed.

(** X19: [Marshal] does not look at the msg-type, [Unmarshal] does: where
    the ASN.1 decoder gives back the fields encoded and the ticket decoder
    the ticket, an AP-REQ with msg-type 14 survives [Marshal] then
    [Unmarshal] unchanged, into any receiver, and one with another msg-type
    marshals but is refused by [Unmarshal], the receiver left as it was. *)
Theorem APReq_Marshal_then_Unmarshal :
  forall a a0 tb mk m',
    Ticket_Marshal (ap_Ticket a) = Ok tb ->
    asn1_Marshal (to_marshalAPReq a tb) = Ok mk ->
    asn1_UnmarshalWithParams (AddASNAppTag mk asnAppTag.APREQ)
      "application,explicit,tag:14" = Ok m' ->
    same_APReq_fields (to_marshalAPReq a tb) m' ->
    UnmarshalTicket tb = (ap_Ticket a, None) ->
    APReq_Marshal a = Ok (AddASNAppTag mk asnAppTag.APREQ)
    /\ (MsgType a = msgtype.KRB_AP_REQ ->
        APReq_Unmarshal a0 (AddASNAppTag mk asnAppTag.APREQ) = Ok (a, None))
    /\ (MsgType a <> msgtype.KRB_AP_REQ ->
        APReq_Unmarshal a0 (AddASNAppTag mk asnAppTag.APREQ) =
          Ok (a0, Some (errors_New "Message ID does not indicate a KRB_AS_REP"))).
Proof.
  intros a a0 tb mk m' Htb Hmk Hdec (Hpv & Hmt & Hopt & Hbytes & Hauth) Htkt.
  simpl in Hpv, Hmt, Hopt, Hbytes, Hauth. split; [|split].
  - unfold APReq_Marshal. rewrite Htb. simpl. rewrite Hmk. reflexivity.
  - intros H14. unfold APReq_Unmarshal. rewrite Hdec. cbv beta iota.
    rewrite Hmt, H14. simpl.
    rewrite Hbytes, Htkt, Hpv, Hopt, Hauth. destruct a; simpl in *. congruence.
  - intros Hne. unfold APReq_Unmarshal. rewrite Hdec. cbv beta iota. rewrite Hmt.
    apply Z.eqb_neq in Hne. now rewrite Hne.
Qed.

(** X20: [Unmarshal] returns nil only for bytes that decode to msg-type 14
    with a ticket that unmarshals; the receiver then holds msg-type 14 and
    the decoded fields. *)
Theorem APReq_Unmarshal_nil_only_for_ap_req :
  forall a b a',
    APReq_Unmarshal a b = Ok (a', None) ->
    MsgType a' = msgtype.KRB_AP_REQ
    /\ exists m,
         asn1_UnmarshalWithParams b "application,explicit,tag:14" = Ok m
         /\ m_MsgType m = msgtype.KRB_AP_REQ
         /\ UnmarshalTicket (rv_Bytes (m_Ticket m)) = (ap_Ticket a', None)
         /\ PVNO a' = m_PVNO m
         /\ APOptions a' = m_APOptions m
         /\ Authenticator a' = m_Authenticator m.
Proof.
  intros a b a'. unfold APReq_Unmarshal.
  destruct (asn1_UnmarshalWithParams b "application,explicit,tag:14") as [m| |] eqn:Hm;
    try discriminate.
  destruct (m_MsgType m =? msgtype.KRB_AP_REQ) eqn:E; simpl; try discriminate.
  apply Z.eqb_eq in E.
  destruct (UnmarshalTicket (rv_Bytes (m_Ticket m))) as [t [err|]] eqn:Ht; try discriminate.
  intros H. injection H as <-. simpl. split; [exact E|].
  exists m. repeat split; assumption.
Qed.

End APReqFurther.

(** ** Sorting the enctype ids *)

Lemma insert_desc_perm (x : Z) (l : list Z) : Permutation (x :: l) (insert_desc x l).
Proof.
  induction l as [|y l IH]; simpl; [reflexivity|].
  destruct (y <=? x); [reflexivity|].
  etransitivity; [apply perm_swap|]. now apply perm_skip.
Qed.

Lemma sort_Reverse_perm (l : list Z) : Permutation l (sort_Reverse_IntSlice l).
Proof.
  induction l as [|x l IH]; simpl; [reflexivity|].
  etransitivity; [apply perm_skip, IH|]. apply insert_desc_perm.
Qed.

Lemma insert_desc_sorted (x : Z) (l : list Z) :
  StronglySorted (fun a b => b <= a) l ->
  StronglySorted (fun a b => b <= a) (insert_desc x l).
Proof.
  induction 1 as [|y l Hs IH Hall]; simpl.
  - constructor; constructor.
  - destruct (y <=? x) eqn:E.
    + apply Z.leb_le in E. constructor; [now constructor|].
      constructor; [exact E|]. eapply Forall_impl; [|exact Hall].
      intros; simpl in *; lia.
    + apply Z.leb_gt in E. constructor; [exact IH|].
      eapply Permutation_Forall; [apply insert_desc_perm|].
      constructor; [lia|exact Hall].
Qed.

Lemma sort_Reverse_sorted (l : list Z) :
  StronglySorted (fun a b => b <= a) (sort_Reverse_IntSlice l).
Proof.
  induction l as [|x l IH]; simpl; [constructor|]. now apply insert_desc_sorted.
Qed.

Lemma sort_Reverse_head (l : list Z) (m : Z) :
  In m l -> (forall x, In x l -> x <= m) ->
  exists rest, sort_Reverse_IntSlice l = m :: rest.
Proof.
  intros Hin Hmax.
  pose proof (sort_Reverse_perm l) as Hp. pose proof (sort_Reverse_sorted l) as Hs.
  destruct (sort_Reverse_IntSlice l) as [|h rest].
  - apply Permutation_sym, Permutation_nil in Hp. subst l. contradiction.
  - exists rest. f_equal.
    assert (Hh : h <= m).
    { apply Hmax. eapply Permutation_in; [symmetry; exact Hp|]. now left. }
    apply StronglySorted_inv in Hs. destruct Hs as [_ Hall].
    apply (Permutation_in _ Hp) in Hin. destruct Hin as [->|Hin]; [reflexivity|].
    rewrite Forall_forall in Hall. specialize (Hall _ Hin). simpl in Hall. lia.
Qed.

(** ** The exchanges, further *)

Section ExchangeFurther.
Context {aes : AesSuite} {co : Collaborators}.

Ltac run := unfold bindM, get_client, set_client, lift, fail, ret, SendToKDC; simpl.

Ltac branches :=
  repeat match goal with
         | |- context [match ?x with _ => _ end] =>
             lazymatch x with
             | context [match _ with _ => _ end] => fail
             | _ => destruct x eqn:?; simpl
             end
         end.

Ltac sent_so_far :=
  first [ exists []; split; [now rewrite app_nil_r | simpl; lia]
        | eexists [_]; split; [reflexivity | simpl; lia]
        | eexists [_; _]; split; [now rewrite <- app_assoc | simpl; lia] ].

(** X21: whatever happens in [ASExchange], the requests handed to the
    transport before stay, at most two are added, and the credentials, the
    ticket cache and the realm of the configuration are not written. *)
Theorem ASExchange_footprint :
  forall w,
    let w' := fst (ASExchange w) in
    (exists added, w_sent w' = w_sent w ++ added /\ (List.length added <= 2)%nat)
    /\ cl_Credentials (w_client w') = cl_Credentials (w_client w)
    /\ cl_Cache (w_client w') = cl_Cache (w_client w)
    /\ Default_realm (libDefaults (cl_Config (w_client w')))
       = Default_realm (libDefaults (cl_Config (w_client w))).
Proof.
  intros [cl sent]. unfold ASExchange, preauth_retry. run.
  branches; (split; [sent_so_far|]); repeat split.
Qed.

Lemma wrap_Ok_inv {A} (format : string) (r : res A) (a : A) :
  wrap format r = Ok a -> r = Ok a.
Proof. destruct r; simpl; congruence. Qed.

(** A nil return of [ASExchange], taken apart. *)
Lemma ASExchange_Ok_inv w w' :
  ASExchange w = (w', Ok tt) ->
  exists b rb ar0 ar err,
    let a := NewASReq (cl_Config (w_client w)) (Username (cl_Credentials (w_client w))) in
    IsConfigured (w_client w) = true
    /\ ASReq_Marshal a = Ok b
    /\ KDC (w_sent w ++ [b]) = Ok rb
    /\ ASRep_Unmarshal zero_KDCRep rb = (ar0, None)
    /\ ASRep_DecryptEncPart ar0 (cl_Credentials (w_client w)) = (ar, None)
    /\ ASRep_IsValid ar (cl_Config (w_client w)) a = (true, err)
    /\ w' = {| w_client :=
                 set_Session (w_client w)
                   {| AuthTime := enc_AuthTime (DecryptedEncPart ar);
                      EndTime := enc_EndTime (DecryptedEncPart ar);
                      RenewTill := enc_RenewTill (DecryptedEncPart ar);
                      TGT := rep_Ticket ar;
                      SessionKey := enc_Key (DecryptedEncPart ar);
                      SessionKeyExpiration := KeyExpiration (DecryptedEncPart ar) |};
               w_sent := w_sent w ++ [b] |}.
Proof.
  destruct w as [cl sent]. unfold ASExchange, preauth_retry. run.
  branches; intros H; try discriminate.
  injection H as <-.
  repeat match goal with
         | H : wrap _ _ = Ok _ |- _ => apply wrap_Ok_inv in H
         | H : negb _ = false |- _ => apply negb_false_iff in H
         end.
  do 5 eexists. cbv zeta. repeat split; eassumption.
Qed.

(** X22: [ASExchange] writes the session only when it returns nil, and it
    returns nil only after the first reply was unmarshalled as an AS-REP,
    decrypted with the credentials and found valid against the request; the
    session then holds the ticket, the key and the times of that reply, and
    one request was sent. *)
Theorem ASExchange_session :
  forall w w' r,
    ASExchange w = (w', r) ->
    (r <> Ok tt -> cl_Session (w_client w') = cl_Session (w_client w))
    /\ (r = Ok tt ->
        exists b rb ar0 ar err,
          let a := NewASReq (cl_Config (w_client w)) (Username (cl_Credentials (w_client w))) in
          ASReq_Marshal a = Ok b
          /\ KDC (w_sent w ++ [b]) = Ok rb
          /\ ASRep_Unmarshal zero_KDCRep rb = (ar0, None)
          /\ ASRep_DecryptEncPart ar0 (cl_Credentials (w_client w)) = (ar, None)
          /\ ASRep_IsValid ar (cl_Config (w_client w)) a = (true, err)
          /\ w_sent w' = w_sent w ++ [b]
          /\ cl_Session (w_client w') =
               Some {| AuthTime := enc_AuthTime (DecryptedEncPart ar);
                       EndTime := enc_EndTime (DecryptedEncPart ar);
                       RenewTill := enc_RenewTill (DecryptedEncPart ar);
                       TGT := rep_Ticket ar;
                       SessionKey := enc_Key (DecryptedEncPart ar);
                       SessionKeyExpiration := KeyExpiration (DecryptedEncPart ar) |}).
Proof.
  intros w w' r H. split.
  - revert H. destruct w as [cl sent]. unfold ASExchange, preauth_retry. run.
    branches; intros H; injection H as <- <-; intros Hr; try reflexivity.
    now contradiction Hr.
  - intros ->. destruct (ASExchange_Ok_inv _ _ H)
      as (b & rb & ar0 & ar & err & _ & Hb & Hrb & H0 & Hd & Hv & ->).
    exists b, rb, ar0, ar, err. cbv zeta. repeat split; assumption.
Qed.

(** The exchange up to the choice of the enctype, when the first reply is a
    KRB-ERROR asking for pre-authentication and the timestamp is at hand. *)
Lemma ASExchange_to_enctype_choice w a b1 rb1 ar1 e1 krberr paTSb :
  IsConfigured (w_client w) = true ->
  NewASReq (cl_Config (w_client w)) (Username (cl_Credentials (w_client w))) = a ->
  ASReq_Marshal a = Ok b1 ->
  KDC (w_sent w ++ [b1]) = Ok rb1 ->
  ASRep_Unmarshal zero_KDCRep rb1 = (ar1, Some e1) ->
  KRBError_Unmarshal rb1 = (krberr, None) ->
  ErrorCode krberr = errorcode.KDC_ERR_PREAUTH_REQUIRED ->
  GetPAEncTSEncAsnMarshalled = Ok paTSb ->
  let ids := sort_Reverse_IntSlice
               (Default_tkt_enctype_ids (libDefaults (cl_Config (w_client w)))) in
  let w1 := {| w_client := set_enctype_ids (w_client w) ids; w_sent := w_sent w ++ [b1] |} in
  (ids = [] -> ASExchange w = (w1, Panic))
  /\ (forall id0 rest e,
        ids = id0 :: rest -> GetEtype id0 = Err e ->
        ASExchange w = (w1, Err (fmt_Errorf "Error creating etype: %v" e)))
  /\ (forall id0 rest etype key oe e,
        ids = id0 :: rest -> GetEtype id0 = Ok etype ->
        Keytab_GetEncryptionKey (cred_Keytab (cl_Credentials (w_client w)))
          (Username (cl_Credentials (w_client w)))
          (Default_realm (libDefaults (cl_Config (w_client w)))) 1 (GetETypeID etype)
          = (key, oe) ->
        GetEtype (KeyType key) = Err e ->
        ASExchange w =
          (w1, Err (fmt_Errorf "Error encrypting pre-authentication timestamp: %v"
                      (fmt_Errorf "Error getting etype: %v" e)))).
Proof.
  intros Hcfg Ha Hb1 Hrb1 Har1 Hkrb Hcode HpaTS ids w1.
  destruct w as [cl sent]. simpl in *.
  assert (Hstart : ASExchange {| w_client := cl; w_sent := sent |} =
            (do _ <- preauth_retry a ar1; fail (KRBError_error krberr))
              {| w_client := cl; w_sent := sent ++ [b1] |}).
  { unfold ASExchange. run. rewrite Hcfg. simpl. rewrite Ha, Hb1. simpl.
    rewrite Hrb1. simpl. rewrite Har1, Hkrb, Hcode. reflexivity. }
  rewrite Hstart. unfold preauth_retry. run. rewrite HpaTS. simpl. fold ids.
  split; [|split].
  - intros ->. reflexivity.
  - intros id0 rest e -> Het. simpl. rewrite Het. reflexivity.
  - intros id0 rest etype key oe e -> Het Hkey He. simpl. rewrite Het. simpl.
    rewrite Hkey. unfold GetEncryptedData. rewrite He. reflexivity.
Qed.

(** X23: with an empty list of default enctypes, a request for
    pre-authentication ends [ASExchange] in a run-time failure (the list is
    indexed at 0 without a test), after one request and with no session. *)
Theorem ASExchange_no_enctype_configured :
  forall w a b1 rb1 ar1 e1 krberr paTSb,
    IsConfigured (w_client w) = true ->
    NewASReq (cl_Config (w_client w)) (Username (cl_Credentials (w_client w))) = a ->
    ASReq_Marshal a = Ok b1 ->
    KDC (w_sent w ++ [b1]) = Ok rb1 ->
    ASRep_Unmarshal zero_KDCRep rb1 = (ar1, Some e1) ->
    KRBError_Unmarshal rb1 = (krberr, None) ->
    ErrorCode krberr = errorcode.KDC_ERR_PREAUTH_REQUIRED ->
    GetPAEncTSEncAsnMarshalled = Ok paTSb ->
    Default_tkt_enctype_ids (libDefaults (cl_Config (w_client w))) = [] ->
    snd (ASExchange w) = Panic
    /\ w_sent (fst (ASExchange w)) = w_sent w ++ [b1]
    /\ cl_Session (w_client (fst (ASExchange w))) = cl_Session (w_client w).
Proof.
  intros w a b1 rb1 ar1 e1 krberr paTSb Hcfg Ha Hb1 Hrb1 Har1 Hkrb Hcode HpaTS Hids.
  destruct (ASExchange_to_enctype_choice w a b1 rb1 ar1 e1 krberr paTSb
              Hcfg Ha Hb1 Hrb1 Har1 Hkrb Hcode HpaTS) as [H _].
  rewrite H by (rewrite Hids; reflexivity). repeat split.
Qed.

(** X24: the error of the keytab lookup is not looked at: when the key it
    returns names no supported enctype (as the zero key does), [ASExchange]
    reports the failure of the encryption of the timestamp, sends no second
    request and sets no session. *)
Theorem ASExchange_key_of_unknown_type :
  forall w a b1 rb1 ar1 e1 krberr paTSb id0 rest etype key oe e,
    IsConfigured (w_client w) = true ->
    NewASReq (cl_Config (w_client w)) (Username (cl_Credentials (w_client w))) = a ->
    ASReq_Marshal a = Ok b1 ->
    KDC (w_sent w ++ [b1]) = Ok rb1 ->
    ASRep_Unmarshal zero_KDCRep rb1 = (ar1, Some e1) ->
    KRBError_Unmarshal rb1 = (krberr, None) ->
    ErrorCode krberr = errorcode.KDC_ERR_PREAUTH_REQUIRED ->
    GetPAEncTSEncAsnMarshalled = Ok paTSb ->
    sort_Reverse_IntSlice (Default_tkt_enctype_ids (libDefaults (cl_Config (w_client w))))
      = id0 :: rest ->
    GetEtype id0 = Ok etype ->
    Keytab_GetEncryptionKey (cred_Keytab (cl_Credentials (w_client w)))
      (Username (cl_Credentials (w_client w)))
      (Default_realm (libDefaults (cl_Config (w_client w)))) 1 (GetETypeID etype)
      = (key, oe) ->
    GetEtype (KeyType key) = Err e ->
    snd (ASExchange w) =
      Err (fmt_Errorf "Error encrypting pre-authentication timestamp: %v"
             (fmt_Errorf "Error getting etype: %v" e))
    /\ w_sent (fst (ASExchange w)) = w_sent w ++ [b1]
    /\ cl_Session (w_client (fst (ASExchange w))) = cl_Session (w_client w).
Proof.
  intros w a b1 rb1 ar1 e1 krberr paTSb id0 rest etype key oe e
    Hcfg Ha Hb1 Hrb1 Har1 Hkrb Hcode HpaTS Hsort Het Hkey He.
  destruct (ASExchange_to_enctype_choice w a b1 rb1 ar1 e1 krberr paTSb
              Hcfg Ha Hb1 Hrb1 Har1 Hkrb Hcode HpaTS) as (_ & _ & H).
  rewrite (H id0 rest etype key oe e Hsort Het Hkey He). repeat split.
Qed.

(** X25: the enctype for pre-authentication is the numerically largest of
    the configured ids, whatever their order: when that one is not supported
    the exchange fails, whether or not another configured id is; the list in
    the configuration is left sorted in descending order. *)
Theorem ASExchange_preauth_takes_largest_enctype :
  forall w a b1 rb1 ar1 e1 krberr paTSb m e,
    IsConfigured (w_client w) = true ->
    NewASReq (cl_Config (w_client w)) (Username (cl_Credentials (w_client w))) = a ->
    ASReq_Marshal a = Ok b1 ->
    KDC (w_sent w ++ [b1]) = Ok rb1 ->
    ASRep_Unmarshal zero_KDCRep rb1 = (ar1, Some e1) ->
    KRBError_Unmarshal rb1 = (krberr, None) ->
    ErrorCode krberr = errorcode.KDC_ERR_PREAUTH_REQUIRED ->
    GetPAEncTSEncAsnMarshalled = Ok paTSb ->
    let ids := Default_tkt_enctype_ids (libDefaults (cl_Config (w_client w))) in
    In m ids -> (forall x, In x ids -> x <= m) ->
    GetEtype m = Err e ->
    ASExchange w =
      ({| w_client := set_enctype_ids (w_client w) (sort_Reverse_IntSlice ids);
          w_sent := w_sent w ++ [b1] |},
       Err (fmt_Errorf "Error creating etype: %v" e))
    /\ Permutation ids (sort_Reverse_IntSlice ids)
    /\ StronglySorted (fun x y => y <= x) (sort_Reverse_IntSlice ids).
Proof.
  intros w a b1 rb1 ar1 e1 krberr paTSb m e
    Hcfg Ha Hb1 Hrb1 Har1 Hkrb Hcode HpaTS ids Hin Hmax He.
  split; [|split; [apply sort_Reverse_perm|apply sort_Reverse_sorted]].
  destruct (sort_Reverse_head ids m Hin Hmax) as [rest Hsort].
  destruct (ASExchange_to_enctype_choice w a b1 rb1 ar1 e1 krberr paTSb
              Hcfg Ha Hb1 Hrb1 Har1 Hkrb Hcode HpaTS) as (_ & H & _).
  exact (H m rest e Hsort He).
Qed.

(** X26: [GetServiceTicket] writes nothing of the client but the cache: the
    session, the credentials and the configuration are as before whatever
    the outcome; at most one request is handed to the transport, and none
    when there is no session. *)
Theorem GetServiceTicket_footprint :
  forall spn w,
    let w' := fst (GetServiceTicket spn w) in
    cl_Session (w_client w') = cl_Session (w_client w)
    /\ cl_Credentials (w_client w') = cl_Credentials (w_client w)
    /\ cl_Config (w_client w') = cl_Config (w_client w)
    /\ (w_sent w' = w_sent w \/ exists b, w_sent w' = w_sent w ++ [b])
    /\ (cl_Session (w_client w) = None -> w' = w).
Proof.
  intros spn [cl sent]. unfold GetServiceTicket, TGSExchange. run.
  branches; repeat split; eauto; discriminate.
Qed.

(** X27: after a [Login] that returned nil, a [TGSExchange] that succeeds
    has built its request from the ticket and the session key of the AS-REP
    that [Login] validated, and has decrypted the TGS-REP with that key. *)
Theorem Login_then_TGSExchange :
  forall w w1 spn renewal w2 tgsReq tgsRep,
    Login w = (w1, Ok tt) ->
    TGSExchange spn renewal w1 = (w2, Ok (tgsReq, tgsRep)) ->
    exists ar err b1 b2 r rep1,
      ASRep_IsValid ar (cl_Config (w_client w))
        (NewASReq (cl_Config (w_client w)) (Username (cl_Credentials (w_client w))))
        = (true, err)
      /\ NewTGSReq (Username (cl_Credentials (w_client w))) (cl_Config (w_client w))
           (rep_Ticket ar) (enc_Key (DecryptedEncPart ar)) spn renewal = Ok tgsReq
      /\ TGSReq_Marshal tgsReq = Ok b2
      /\ KDC ((w_sent w ++ [b1]) ++ [b2]) = Ok r
      /\ TGSRep_Unmarshal zero_KDCRep r = (rep1, None)
      /\ TGSRep_DecryptEncPart rep1 (enc_Key (DecryptedEncPart ar)) = (tgsRep, None)
      /\ w_sent w2 = (w_sent w ++ [b1]) ++ [b2].
Proof.
  intros w w1 spn renewal w2 tgsReq tgsRep Hlogin Htgs. unfold Login in Hlogin.
  destruct (ASExchange_Ok_inv _ _ Hlogin)
    as (b1 & rb & ar0 & ar & err & _ & Hb & Hrb & H0 & Hd & Hv & ->).
  destruct (TGSExchange_Ok _ _ _ _ _ _ Htgs)
    as (session & b2 & r & rep1 & err2 & Hs & Hreq & Hb2 & Hr & H1 & H2 & H3 & ->).
  simpl in *. injection Hs as <-. simpl in *.
  exists ar, err, b1, b2, r, rep1. repeat split; assumption.
Qed.

End ExchangeFurther.

(** ** The service principal name *)

Lemma strings_Split_slash_nonempty (s : string) : strings_Split_slash s <> [].
Proof.
  destruct s as [|c s]; simpl; [discriminate|].
  destruct (Ascii.eqb c "/"); [discriminate|].
  destruct (strings_Split_slash s); discriminate.
Qed.

(** X28: the components of the principal that [GetServiceTicket] asks a
    ticket for are the parts of the SPN between its slashes: there is at
    least one, none holds a slash, joined with slashes they give the SPN
    back, and an SPN without a slash is the only component. *)
Theorem GetServiceTicket_principal_components :
  forall spn,
    let ns := strings_Split_slash spn in
    ns <> []
    /\ String.concat "/" ns = spn
    /\ Forall (fun n => ~ In "/"%char (list_ascii_of_string n)) ns
    /\ (~ In "/"%char (list_ascii_of_string spn) -> ns = [spn]).
Proof.
  intros spn. cbv zeta. split; [apply strings_Split_slash_nonempty|].
  induction spn as [|c s IH]; simpl.
  - split; [reflexivity|]. split; [repeat constructor; auto|reflexivity].
  - destruct IH as (Hjoin & Hall & Hone).
    pose proof (strings_Split_slash_nonempty s) as Hne.
    destruct (Ascii.eqb c "/") eqn:E.
    + apply Ascii.eqb_eq in E. subst c. split; [|split].
      * destruct (strings_Split_slash s) as [|h t]; [contradiction|].
        simpl in *. now rewrite Hjoin.
      * constructor; [simpl; tauto|exact Hall].
      * intros H. exfalso. apply H. now left.
    + apply Ascii.eqb_neq in E.
      destruct (strings_Split_slash s) as [|h t]; [contradiction|]. split; [|split].
      * destruct t; simpl in *; now rewrite <- Hjoin.
      * inversion Hall as [|? ? Hh Ht]; subst. constructor; [|exact Ht].
        simpl. intros [H|H]; [congruence|contradiction].
      * intros H. assert (Heq : h :: t = [s]) by (apply Hone; intros Hin; apply H; now right).
        injection Heq as -> ->. reflexivity.
Qed.

(** ** Key stretching *)

Lemma copy_at_length (dst : bytes) (off : Z) (src : bytes) :
  List.length (copy_at dst off src) = List.length dst.
Proof.
  unfold copy_at. rewrite length_app, copy_length, length_firstn, length_skipn. lia.
Qed.

Lemma deriveRandom_loop_length (e : EType) (key : bytes) : forall fuel out i K r,
  deriveRandom_loop fuel e key out i K = Some (Ok r) -> len r = len out.
Proof.
  induction fuel as [|fuel IH]; intros out i K r; simpl.
  - destruct (i <? len out); [discriminate|]. intros H. now injection H as <-.
  - destruct (i <? len out); [|intros H; now injection H as <-].
    destruct (Encrypt e key K) as [[st K']| |]; try discriminate.
    intros H. apply IH in H. rewrite H. unfold len. now rewrite copy_at_length.
Qed.

(** X29: [deriveRandom] returns its buffer of [k/8] bytes: a result
    without error has exactly that length; an error of the first encryption
    is returned as it is; a negative [k/8] is a run-time failure. *)
Theorem deriveRandom_length :
  forall nfold fuel key usage n k e,
    (forall out, deriveRandom nfold fuel key usage n k e = Some (Ok out) ->
                 len out = Z.quot k 8 /\ 0 <= Z.quot k 8)
    /\ (forall err, 0 <= Z.quot k 8 -> Encrypt e key (nfold usage n) = Err err ->
                    deriveRandom nfold fuel key usage n k e = Some (Err err))
    /\ (Z.quot k 8 < 0 -> deriveRandom nfold fuel key usage n k e = Some Panic).
Proof.
  intros nfold fuel key usage n k e. unfold deriveRandom, make_checked.
  split; [|split].
  - intros out. destruct (0 <=? Z.quot k 8) eqn:E; [|discriminate].
    apply Z.leb_le in E.
    destruct (Encrypt e key (nfold usage n)) as [[st K]| |]; try discriminate.
    intros H. apply deriveRandom_loop_length in H. rewrite H.
    unfold len. rewrite copy_length, make_length. lia.
  - intros err Hk He. replace (0 <=? Z.quot k 8) with true by (symmetry; now apply Z.leb_le).
    now rewrite He.
  - intros Hk. now replace (0 <=? Z.quot k 8) with false by (symmetry; apply Z.leb_gt; lia).
Qed.

Lemma skipn_repeat {A} (x : A) (k z : nat) : skipn k (repeat x z) = repeat x (z - k).
Proof.
  destruct (Nat.le_gt_cases k z) as [H|H].
  - replace z with (k + (z - k))%nat at 1 by lia. apply skipn_repeat_add.
  - rewrite skipn_all2 by (rewrite repeat_length; lia).
    now replace (z - k)%nat with 0%nat by lia.
Qed.

Lemma copy_zeros (z : nat) (K : bytes) :
  copy (repeat x00 z) K = firstn z K ++ repeat x00 (z - List.length K).
Proof. unfold copy. now rewrite repeat_length, skipn_repeat. Qed.

Lemma copy_at_zeros (pre : bytes) (z : nat) (K : bytes) :
  copy_at (pre ++ repeat x00 z) (len pre) K =
    (pre ++ firstn z K) ++ repeat x00 (z - List.length K).
Proof.
  unfold copy_at, len. rewrite Nat2Z.id, firstn_len_app, skipn_len_app, copy_zeros.
  apply app_assoc.
Qed.

(** The loop, for an encryption that maps blocks of [L] bytes to blocks of
    [L] bytes under this key: it fills the [z] bytes left with the blocks
    that follow [K]. *)
Lemma deriveRandom_loop_blocks (e : EType) (key : bytes) (L : nat) :
  (0 < L)%nat ->
  (forall m, List.length m = L ->
     exists st c, Encrypt e key m = Ok (st, c) /\ List.length c = L) ->
  forall fuel z pre K b,
    List.length K = L -> (z <= fuel)%nat -> (z <= b)%nat ->
    deriveRandom_loop fuel e key (pre ++ repeat x00 z) (len pre) K =
      Some (Ok (pre ++ firstn z (match Encrypt e key K with
                                 | Ok (_, K') => DR_blocks e key b K'
                                 | _ => []
                                 end))).
Proof.
  intros HL Henc.
  assert (Hdone : forall fuel pre K,
            deriveRandom_loop fuel e key (pre ++ repeat x00 0) (len pre) K
            = Some (Ok (pre ++ []))).
  { intros fuel pre K. simpl repeat. rewrite app_nil_r.
    destruct fuel; simpl; now rewrite Z.ltb_irrefl. }
  induction fuel as [|fuel IH]; intros z pre K b HK Hz Hb.
  - replace z with 0%nat by lia. simpl firstn. apply Hdone.
  - destruct z as [|z']; [simpl firstn; apply Hdone|].
    remember (S z') as z eqn:Ez.
    destruct (Henc K HK) as (st & K' & HE & HK').
    cbn [deriveRandom_loop]. rewrite HE.
    replace (len pre <? len (pre ++ repeat x00 z)) with true
      by (symmetry; apply Z.ltb_lt; rewrite len_app, len_repeat; lia).
    rewrite copy_at_zeros, HK'.
    replace (len pre + Z.min (len (pre ++ repeat x00 z) - len pre) (len K'))
      with (len (pre ++ firstn z K'))
      by (rewrite !len_app, len_repeat; unfold len; rewrite length_firstn, HK'; lia).
    destruct b as [|b']; [lia|].
    rewrite (IH (z - L)%nat (pre ++ firstn z K') K' b' HK') by lia.
    do 2 f_equal. rewrite <- app_assoc. f_equal.
    simpl DR_blocks. rewrite firstn_app, HK'. reflexivity.
Qed.

(** X30: for an encryption that maps blocks to blocks of the same length
    under the key, and a folded constant of one block, [deriveRandom]
    returns the first [k/8] bytes of K1 | K2 | K3 ..., where K1 encrypts the
    folded constant and every further block encrypts the one before; [k/8]
    rounds of the loop are enough. *)
Theorem deriveRandom_is_the_truncated_blocks :
  forall nfold fuel key usage n k e L st K1,
    (0 < L)%nat ->
    (forall m, List.length m = L ->
       exists st c, Encrypt e key m = Ok (st, c) /\ List.length c = L) ->
    List.length (nfold usage n) = L ->
    Encrypt e key (nfold usage n) = Ok (st, K1) ->
    0 <= Z.quot k 8 ->
    (Z.to_nat (Z.quot k 8) <= fuel)%nat ->
    deriveRandom nfold fuel key usage n k e =
      Some (Ok (firstn (Z.to_nat (Z.quot k 8))
                  (DR_blocks e key (S (Z.to_nat (Z.quot k 8))) K1))).
Proof.
  intros nfold fuel key usage n k e L st K1 HL Henc Hfold HK1 Hk Hfuel.
  destruct (Henc _ Hfold) as (st' & c & HE & HcL).
  rewrite HK1 in HE. injection HE as <- <-.
  unfold deriveRandom, make_checked.
  replace (0 <=? Z.quot k 8) with true by (symmetry; now apply Z.leb_le).
  rewrite HK1. set (N := Z.to_nat (Z.quot k 8)) in *.
  unfold make. fold N. rewrite copy_zeros, HcL.
  replace (Z.min (len (repeat x00 N)) (len K1)) with (len (firstn N K1))
    by (rewrite len_repeat; unfold len; rewrite length_firstn, HcL; lia).
  rewrite (deriveRandom_loop_blocks e key L HL Henc fuel (N - L)%nat (firstn N K1) K1 N HcL)
    by lia.
  do 2 f_equal. simpl DR_blocks. now rewrite firstn_app, HcL.
Qed.

(** * The further properties on concrete inputs *)

Module Checks.
Import Fixture Fixture2.

Ltac by_evaluation := vm_compute; reflexivity.

Lemma abc_nonempty : abc <> [].
Proof. apply bytes_neq. by_evaluation. Qed.

(** The stand-in enctype encrypts every 16-byte block to a 16-byte block. *)
Lemma enctype_encrypts_blocks id size key m :
  List.length m = 16%nat ->
  exists st c, Encrypt (enctype id size) key m = Ok (st, c) /\ List.length c = 16%nat.
Proof.
  intros Hm. simpl. unfold crypt, len. rewrite Hm. simpl.
  eexists _, _. split; [reflexivity|].
  rewrite Runs.xor_stream_length. exact Hm.
Qed.

Lemma pkcs7Pad_appends_witness :
  exists n,
    pkcs7Pad abc 8 = Ok (abc ++ repeat (byte_of_Z (Z.of_nat n)) n)
    /\ 1 <= Z.of_nat n <= 8
    /\ (len abc + Z.of_nat n) mod 8 = 0.
Proof.
  apply (proj1 (pkcs7Pad_appends abc 8)); [lia | exact abc_nonempty].
Defined.

Lemma pkcs7Unpad_result_witness :
  exists n,
    abc_padded = abc ++ repeat (byte_of_Z (Z.of_nat n)) n
    /\ 1 <= Z.of_nat n <= 255
    /\ len abc_padded mod 8 = 0 /\ 0 < 8.
Proof.
  apply (proj2 (pkcs7Unpad_result abc_padded 8) abc). by_evaluation.
Defined.

Lemma pkcs7_round_trip_witness :
  (let! p := pkcs7Pad abc 8 in pkcs7Unpad p 8) = Ok abc.
Proof.
  apply pkcs7_round_trip; [lia | exact abc_nonempty].
Defined.

Lemma pkcs7_wide_block_no_round_trip_witness :
  (let! p := pkcs7Pad abc 300 in pkcs7Unpad p 300) <> Ok abc.
Proof.
  apply pkcs7_wide_block_no_round_trip;
    [lia | exact abc_nonempty | vm_compute; discriminate].
Defined.

Lemma zeroPad_appends_witness :
  exists z,
    zeroPad abc 8 = Ok (abc ++ repeat x00 z)
    /\ Z.of_nat z < 8
    /\ (len abc + Z.of_nat z) mod 8 = 0
    /\ (len abc mod 8 = 0 -> z = 0%nat).
Proof.
  apply (proj1 (zeroPad_appends abc 8)); [lia | exact abc_nonempty].
Defined.

Lemma zeroPad_idempotent_witness :
  zeroPad (abc ++ repeat x00 5) 8 = Ok (abc ++ repeat x00 5).
Proof.
  apply (zeroPad_idempotent abc 8). by_evaluation.
Defined.

Lemma usage_constants_witness :
  len (getUsage 7 xaa) = 5
  /\ usage_number (getUsage 7 xaa) = 7
  /\ nth 4 (getUsage 7 xaa) x00 = xaa
  /\ (getUsage 7 xaa = getUsage 8 x55 -> 7 = 8 /\ xaa = x55)
  /\ GetUsageKc 7 <> GetUsageKe 8
  /\ GetUsageKe 7 <> GetUsageKi 8
  /\ GetUsageKc 7 <> GetUsageKi 8.
Proof.
  apply usage_constants; lia.
Defined.

Lemma VerifyChecksum_accepts_exactly_witness :
  len checksum6 = Z.quot (GetHMACBitLength aes128) 8
  /\ VerifyChecksum (KeyValue key128) checksum6 plaintext 6 aes128 = Ok true
  /\ (plaintext <> checksum6 ->
      VerifyChecksum (KeyValue key128) plaintext plaintext 6 aes128 = Ok false).
Proof.
  apply VerifyChecksum_accepts_exactly. by_evaluation.
Defined.

Lemma VerifyChecksum_when_derivation_fails_witness :
  VerifyChecksum (KeyValue key128) [] plaintext 6 (no_derive aes128) = Ok true
  /\ (plaintext <> [] ->
      VerifyChecksum (KeyValue key128) plaintext plaintext 6 (no_derive aes128) = Ok false).
Proof.
  apply (VerifyChecksum_when_derivation_fails (KeyValue key128) plaintext plaintext 6
           (no_derive aes128) (errors_New "Incorrect keysize")).
  reflexivity.
Defined.

Lemma VerifyIntegrity_reads_the_tail_witness :
  VerifyIntegrity (KeyValue key128) (body3 ++ mac3) padded3 (uint32 3) aes128 = Ok true.
Proof.
  pose proof (VerifyIntegrity_reads_the_tail (KeyValue key128) body3 mac3 padded3
                (uint32 3) aes128) as H.
  cbv zeta in H. destruct H as (_ & H & _).
  apply (H ltac:(by_evaluation) mac3 ltac:(by_evaluation)). reflexivity.
Defined.

Lemma DecryptEncPart_authentic_witness :
  exists k body tail b,
    Cipher sealed3 = body ++ tail
    /\ len tail = Z.quot (GetHMACBitLength aes128) 8
    /\ DeriveKey aes128 (KeyValue key128) (GetUsageKe (uint32 3)) = Ok k
    /\ Decrypt aes128 k body = Ok b
    /\ GetIntegrityHash b (KeyValue key128) (uint32 3) aes128 = Ok tail
    /\ b = firstn (Z.to_nat (GetConfounderByteSize aes128)) b ++ plaintext
    /\ len plaintext = len b - GetConfounderByteSize aes128.
Proof.
  apply (DecryptEncPart_authentic (KeyValue key128) sealed3 aes128 (uint32 3) plaintext);
    by_evaluation.
Defined.

Lemma GetEncryptedData_without_mac_witness :
  GetEncryptedData (aes := suite_no_derive) plaintext key128 0 1 (Ok confounder) =
    Ok {| ed_EType := 17; KVNO := 1; Cipher := body0 |}.
Proof.
  apply (GetEncryptedData_without_mac (aes := suite_no_derive) plaintext key128 0 1
           confounder (no_derive aes128) (KeyValue key128) state0 body0
           (errors_New "Incorrect keysize"));
    [reflexivity | simpl; lia | reflexivity | by_evaluation | reflexivity].
Defined.

Lemma GetEncryptedData_shape_witness :
  ed_EType sealed3 = KeyType key128
  /\ KVNO sealed3 = 0
  /\ exists et r k st C ih,
       GetEtype (aes := suite) (KeyType key128) = Ok et
       /\ Ok confounder = Ok r
       /\ (k = KeyValue key128 /\ 3 = 0
           \/ DeriveKey et (KeyValue key128) (GetUsageKe (uint32 3)) = Ok k /\ 3 <> 0)
       /\ len (confounded et r plaintext) = GetConfounderByteSize et + len plaintext
       /\ Encrypt et k (confounded et r plaintext) = Ok (st, C)
       /\ Cipher sealed3 = C ++ ih
       /\ (ih = [] \/ len ih = Z.quot (GetHMACBitLength et) 8).
Proof.
  apply (GetEncryptedData_shape (aes := suite) plaintext key128 3 0 (Ok confounder) sealed3).
  by_evaluation.
Defined.

Lemma GetKeyFromPassword_empty_etype_info_witness :
  GetKeyFromPassword (aes := suite) (codec := codec_empty) "password" user "EXAMPLE.COM" 17
    [ {| PADataType := patype.PA_ETYPE_INFO2; PADataValue := [x11] |} ] = Panic.
Proof.
  apply (proj2 (GetKeyFromPassword_empty_etype_info (aes := suite) (codec := codec_empty)
                  "password" user "EXAMPLE.COM" 17 aes128 [] (s2k_initial aes128)
                  [x11] [] eq_refl eq_refl)).
  reflexivity.
Defined.

Lemma GetKeyFromPassword_result_witness :
  KeyType (fst password_key) = 17
  /\ (17 = etype.AES128_CTS_HMAC_SHA1_96 \/ 17 = etype.AES256_CTS_HMAC_SHA1_96)
  /\ (aes256 = aes128 \/ aes256 = aes256)
  /\ exists salt sk2p,
       StringToKey aes256 "password" salt sk2p = Ok (KeyValue (fst password_key))
       /\ (salt = GetSalt user "EXAMPLE.COM" \/ salt <> EmptyString).
Proof.
  apply (GetKeyFromPassword_result (aes := suite) (codec := codec)
           "password" user "EXAMPLE.COM" 17
           [ {| PADataType := 19; PADataValue := x12 :: list_byte_of_string "SALT" |} ]
           (fst password_key) aes256).
  reflexivity.
Defined.

Lemma GetSalt_boundaries_witness :
  GetSalt {| NameType := 1; NameString := ["host"%string; "name"%string] |} "EXAMPLE.COM"
  = GetSalt {| NameType := 2; NameString := ["ho"%string; "stname"%string] |} "EXAMPLE.COM".
Proof.
  apply (proj2 (GetSalt_boundaries 1 1 [] [] "EXAMPLE.COM")). reflexivity.
Defined.

Lemma NewAPReq_authenticator_opens_witness :
  NewAPReq (aes := suite) (deps := deps) ticket key128 authenticator (Ok confounder) =
    Ok {| PVNO := 5; MsgType := 14; APOptions := NewKrbFlags (APReqDeps := deps);
          ap_Ticket := ticket;
          Authenticator := {| ed_EType := 17; KVNO := 0; Cipher := body7 ++ mac7 |} |}
  /\ DecryptEncPart (KeyValue key128)
       {| ed_EType := 17; KVNO := 0; Cipher := body7 ++ mac7 |} aes128 7 = Ok auth_bytes.
Proof.
  apply (NewAPReq_authenticator_opens (aes := suite) (deps := deps) ticket key128
           authenticator confounder auth_bytes aes128 ke7 ki7 state7 body7 mac7);
    [reflexivity | reflexivity | simpl; lia | by_evaluation | by_evaluation
    | by_evaluation | by_evaluation | by_evaluation].
Defined.

Lemma APReq_Marshal_then_Unmarshal_witness :
  APReq_Marshal (deps := deps) (apreq 14) = Ok apreq_bytes
  /\ APReq_Unmarshal (codec := codec) (asn1 := asn1) zero_APReq apreq_bytes
     = Ok (apreq 14, None).
Proof.
  destruct (APReq_Marshal_then_Unmarshal (codec := codec) (asn1 := asn1) (deps := deps)
              (apreq 14) zero_APReq ticket_bytes apreq_bytes apreq_decoded)
    as (H1 & H2 & _);
    [reflexivity | reflexivity | reflexivity
    | split; [|split; [|split; [|split]]]; reflexivity
    | reflexivity | ].
  split; [exact H1 | apply H2; reflexivity].
Defined.

Lemma APReq_Unmarshal_nil_only_for_ap_req_witness :
  MsgType (apreq 14) = msgtype.KRB_AP_REQ
  /\ exists m,
       asn1_UnmarshalWithParams (Asn1 := asn1) apreq_bytes "application,explicit,tag:14" = Ok m
       /\ m_MsgType m = msgtype.KRB_AP_REQ
       /\ UnmarshalTicket (TypesCodec := codec) (rv_Bytes (m_Ticket m))
          = (ap_Ticket (apreq 14), None)
       /\ PVNO (apreq 14) = m_PVNO m
       /\ APOptions (apreq 14) = m_APOptions m
       /\ Authenticator (apreq 14) = m_Authenticator m.
Proof.
  apply (APReq_Unmarshal_nil_only_for_ap_req (codec := codec) (asn1 := asn1)
           zero_APReq apreq_bytes (apreq 14)).
  by_evaluation.
Defined.

Lemma ASExchange_session_witness :
  exists b rb ar0 ar err,
    let a := NewASReq (Collaborators := collaborators kdc_login)
               (cl_Config client) (Username (cl_Credentials client)) in
    ASReq_Marshal (Collaborators := collaborators kdc_login) a = Ok b
    /\ kdc_login (w_sent world ++ [b]) = Ok rb
    /\ ASRep_Unmarshal (Collaborators := collaborators kdc_login) zero_KDCRep rb = (ar0, None)
    /\ ASRep_DecryptEncPart (Collaborators := collaborators kdc_login)
         ar0 (cl_Credentials client) = (ar, None)
    /\ ASRep_IsValid (Collaborators := collaborators kdc_login) ar (cl_Config client) a
       = (true, err)
    /\ w_sent after_login = w_sent world ++ [b]
    /\ cl_Session (w_client after_login) =
         Some {| AuthTime := enc_AuthTime (DecryptedEncPart ar);
                 EndTime := enc_EndTime (DecryptedEncPart ar);
                 RenewTill := enc_RenewTill (DecryptedEncPart ar);
                 TGT := rep_Ticket ar;
                 SessionKey := enc_Key (DecryptedEncPart ar);
                 SessionKeyExpiration := KeyExpiration (DecryptedEncPart ar) |}.
Proof.
  apply (proj2 (ASExchange_session (aes := suite) (co := collaborators kdc_login)
                  world after_login (Ok tt) ltac:(by_evaluation))).
  reflexivity.
Defined.

Lemma ASExchange_no_enctype_configured_witness :
  snd (ASExchange (aes := suite) (co := collaborators kdc_preauth) no_enctypes) = Panic
  /\ w_sent (fst (ASExchange (aes := suite) (co := collaborators kdc_preauth) no_enctypes))
     = [[x0a]]
  /\ cl_Session (w_client (fst (ASExchange (aes := suite)
                                  (co := collaborators kdc_preauth) no_enctypes))) = None.
Proof.
  edestruct (ASExchange_no_enctype_configured (aes := suite)
               (co := collaborators kdc_preauth) no_enctypes) as (H1 & H2 & H3);
    [reflexivity | reflexivity | reflexivity | reflexivity | reflexivity
    | reflexivity | reflexivity | reflexivity | reflexivity | ].
  split; [exact H1|]. split; [exact H2 | exact H3].
Defined.

Lemma ASExchange_key_of_unknown_type_witness :
  snd (ASExchange (aes := suite) (co := collaborators kdc_preauth) no_key) =
    Err (fmt_Errorf "Error encrypting pre-authentication timestamp: %v"
           (fmt_Errorf "Error getting etype: %v"
              (fmt_Errorf_d "Unknown or unsupported EType: %d" 0)))
  /\ w_sent (fst (ASExchange (aes := suite) (co := collaborators kdc_preauth) no_key))
     = [[x0a]]
  /\ cl_Session (w_client (fst (ASExchange (aes := suite)
                                  (co := collaborators kdc_preauth) no_key))) = None.
Proof.
  edestruct (ASExchange_key_of_unknown_type (aes := suite)
               (co := collaborators kdc_preauth) no_key) as (H1 & H2 & H3);
    [reflexivity | reflexivity | reflexivity | reflexivity | reflexivity
    | reflexivity | reflexivity | reflexivity | reflexivity | reflexivity
    | reflexivity | reflexivity | ].
  split; [exact H1|]. split; [exact H2 | exact H3].
Defined.

Lemma ASExchange_preauth_takes_largest_enctype_witness :
  ASExchange (aes := suite) (co := collaborators kdc_preauth) many_enctypes =
    ({| w_client := set_enctype_ids (w_client many_enctypes) [23; 17; 3];
        w_sent := [[x0a]] |},
     Err (fmt_Errorf "Error creating etype: %v"
            (fmt_Errorf_d "Unknown or unsupported EType: %d" 23)))
  /\ Permutation [17; 23; 3] [23; 17; 3]
  /\ StronglySorted (fun x y => y <= x) [23; 17; 3].
Proof.
  edestruct (ASExchange_preauth_takes_largest_enctype (aes := suite)
               (co := collaborators kdc_preauth) many_enctypes) as (H1 & H2 & H3);
    [reflexivity | reflexivity | reflexivity | reflexivity | reflexivity
    | reflexivity | reflexivity | reflexivity
    | right; left; reflexivity
    | simpl; intros x [<-|[<-|[<-|[]]]]; lia
    | reflexivity | ].
  split; [exact H1|]. split; [exact H2 | exact H3].
Defined.

Lemma GetServiceTicket_footprint_witness :
  fst (GetServiceTicket (co := collaborators kdc_tgs) "HTTP/www.example.com" world) = world.
Proof.
  pose proof (GetServiceTicket_footprint (co := collaborators kdc_tgs)
                "HTTP/www.example.com" world) as H.
  cbv zeta in H. destruct H as (_ & _ & _ & _ & H).
  apply H. reflexivity.
Defined.

Lemma Login_then_TGSExchange_witness :
  exists ar err b1 b2 r rep1,
    ASRep_IsValid (Collaborators := collaborators kdc_login) ar (cl_Config client)
      (NewASReq (Collaborators := collaborators kdc_login)
         (cl_Config client) (Username (cl_Credentials client)))
      = (true, err)
    /\ NewTGSReq (Collaborators := collaborators kdc_login)
         (Username (cl_Credentials client)) (cl_Config client)
         (rep_Ticket ar) (enc_Key (DecryptedEncPart ar)) service false = Ok tgs_request
    /\ TGSReq_Marshal (Collaborators := collaborators kdc_login) tgs_request = Ok b2
    /\ kdc_login ((w_sent world ++ [b1]) ++ [b2]) = Ok r
    /\ TGSRep_Unmarshal (Collaborators := collaborators kdc_login) zero_KDCRep r
       = (rep1, None)
    /\ TGSRep_DecryptEncPart (Collaborators := collaborators kdc_login)
         rep1 (enc_Key (DecryptedEncPart ar)) = (reply x0d, None)
    /\ w_sent after_tgs = (w_sent world ++ [b1]) ++ [b2].
Proof.
  apply (Login_then_TGSExchange (aes := suite) (co := collaborators kdc_login)
           world after_login service false after_tgs tgs_request (reply x0d));
    by_evaluation.
Defined.

Lemma GetServiceTicket_principal_components_witness :
  strings_Split_slash "host" = ["host"%string].
Proof.
  pose proof (GetServiceTicket_principal_components "host") as H.
  cbv zeta in H. destruct H as (_ & _ & _ & H).
  apply H. simpl. intros [H1|[H1|[H1|[H1|[]]]]]; discriminate H1.
Defined.

Lemma deriveRandom_length_witness :
  len stretched = Z.quot 256 8 /\ 0 <= Z.quot 256 8.
Proof.
  apply (proj1 (deriveRandom_length nfold 4 (KeyValue key128) kerberos 128 256 aes128)).
  by_evaluation.
Defined.

Lemma deriveRandom_is_the_truncated_blocks_witness :
  deriveRandom nfold 32 (KeyValue key128) kerberos 128 256 aes128 =
    Some (Ok (firstn 32 (DR_blocks aes128 (KeyValue key128) 33 K1))).
Proof.
  apply (deriveRandom_is_the_truncated_blocks nfold 32 (KeyValue key128) kerberos 128 256
           aes128 16 K1_state K1);
    [lia | apply enctype_encrypts_blocks | by_evaluation | by_evaluation
    | vm_compute; discriminate | vm_compute; lia].
Defined.

End Checks.
